(** * pump-fun-sniper-bot: bonding-curve quote, vetting, routing and
      disposal scan, embedded from the Go sources.

    Integers of the Go program are [Z] with the conversion to [int64]
    written out; [float64] values are IEEE-754 binary64 numbers
    of [SpecFloat] (precision 53, emax 1024); a [big.Int] is [Z] (or
    [option Z] where the pointer may be nil); Go maps are [gmap]s read
    with Go's zero-value default. *)

From Stdlib Require Import ZArith Lia Bool List.
From Stdlib Require Import SpecFloat.
From Stdlib Require Strings.Byte.
From stdpp Require Import gmap strings list fin_maps.

Local Open Scope Z_scope.

(** ** Machine integers *)

(** [int64(x)]: the conversion of an integer to a signed 64-bit value
    keeps the low 64 bits, read in two's complement. *)
Definition int64 (z : Z) : Z := (z + 2 ^ 63) mod 2 ^ 64 - 2 ^ 63.

Definition is_uint64 (z : Z) : Prop := 0 <= z < 2 ^ 64.

(** ** float64 *)

Module Float64.

Definition prec : Z := 53.
Definition emax : Z := 1024.

(** [float64(n)] for an integer [n], and [big.Int.Float64]: the
    nearest binary64 value, ties to even. *)
Definition of_Z (n : Z) : spec_float := binary_normalize prec emax n 0 false.

Definition sub := SFsub prec emax.
Definition mul := SFmul prec emax.
Definition div := SFdiv prec emax.
Definition ltb := SFltb.

(** A decimal constant [num/den] of the source ([0.1] is [lit 1 10]):
    Go converts an untyped constant to the nearest float64, which is
    the correctly rounded quotient of two exactly representable
    integers. *)
Definition lit (num den : Z) : spec_float := div (of_Z num) (of_Z den).

End Float64.

(** [solana.LAMPORTS_PER_SOL] *)
Definition LAMPORTS_PER_SOL : Z := 1000000000.

(** ** math/big: Int and Float *)

(** [big.Int.Div]: Euclidean division, the remainder is never
    negative.  The caller checks the divisor (a zero divisor panics). *)
Definition bigDiv (x y : Z) : Z := Z.sgn y * (x / Z.abs y).

(** [big.Int.Int64]: the low 64 bits of the magnitude converted to
    int64, negated for a negative number. *)
Definition bigInt64 (x : Z) : Z :=
  let v := int64 (Z.abs x mod 2 ^ 64) in
  if x <? 0 then int64 (- v) else v.

(** [big.Int.BitLen] *)
Definition bitLen (x : Z) : Z :=
  if x =? 0 then 0 else Z.log2 (Z.abs x) + 1.

Module BigFloat.

(** A [big.Float] is an infinity or a number [mant * 2^exp] carrying
    the precision (in bits) it was created with. *)
Inductive t :=
| Finite (prec : Z) (mant : Z) (exp : Z)
| Inf (neg : bool).

(** Rounding of [m * 2^e] to [p] bits of mantissa, to nearest, ties to
    even: the mode of a zero-value [big.Float]. *)
Definition roundToNearestEven (p : Z) (m e : Z) : Z * Z :=
  let a := Z.abs m in
  let n := bitLen a in
  if n <=? p then (m, e)
  else
    let s := n - p in
    let q := Z.shiftr a s in
    let r := Z.land a (Z.ones s) in
    let half := Z.shiftl 1 (s - 1) in
    let q' := if (half <? r) || ((r =? half) && Z.odd q) then q + 1 else q in
    (Z.sgn m * q', e + s).

(** [big.NewFloat(x)]: precision 53, exact; panics on NaN. *)
Definition NewFloat (x : spec_float) : option t :=
  match x with
  | S754_nan => None
  | S754_zero _ => Some (Finite 53 0 0)
  | S754_infinity s => Some (Inf s)
  | S754_finite s m e => Some (Finite 53 (if s then Z.neg m else Z.pos m) e)
  end.

(** [new(big.Float).SetInt(x)]: precision [max(x.BitLen(), 64)],
    exact. *)
Definition SetInt (x : Z) : t := Finite (Z.max (bitLen x) 64) x 0.

(** [new(big.Float).Mul(x, y)]: the receiver has precision 0, so the
    result takes the larger precision of the operands and the exact
    product is rounded to it; zero times infinity panics. *)
Definition Mul (x y : t) : option t :=
  match x, y with
  | Finite px mx ex, Finite py my ey =>
      let p := Z.max px py in
      let '(m, e) := roundToNearestEven p (mx * my) (ex + ey) in
      Some (Finite p m e)
  | Finite _ mx _, Inf s =>
      if mx =? 0 then None else Some (Inf (xorb (mx <? 0) s))
  | Inf s, Finite _ my _ =>
      if my =? 0 then None else Some (Inf (xorb s (my <? 0)))
  | Inf s1, Inf s2 => Some (Inf (xorb s1 s2))
  end.

(** [x.Int(nil)]: truncation towards zero; nil for an infinity. *)
Definition Int (x : t) : option Z :=
  match x with
  | Finite _ m e =>
      Some (if 0 <=? e then m * 2 ^ e else Z.quot m (2 ^ (- e)))
  | Inf _ => None
  end.

End BigFloat.

(** ** Bonding curve *)

Record BondingCurveData := {
  RealTokenReserves : Z;
  VirtualTokenReserves : Z;
  VirtualSolReserves : Z
}.

(** [calculateBuyQuote].  [None] stands for a run that yields no
    integer: a panic (division by zero, NaN) or the nil result of an
    infinite product. *)
Definition calculateBuyQuote (solAmount : Z) (bondingCurve : BondingCurveData)
    (percentage : spec_float) : option Z :=
  let solAmountBig := int64 solAmount in
  let virtualSolReserves := VirtualSolReserves bondingCurve in
  let virtualTokenReserves := VirtualTokenReserves bondingCurve in
  let newVirtualSolReserves := virtualSolReserves + solAmountBig in
  let invariant := virtualSolReserves * virtualTokenReserves in
  if newVirtualSolReserves =? 0 then None
  else
    let newVirtualTokenReserves := bigDiv invariant newVirtualSolReserves in
    let tokensToBuy := virtualTokenReserves - newVirtualTokenReserves in
    match BigFloat.NewFloat percentage with
    | None => None
    | Some percentageMultiplier =>
        let tokensToBuyFloat := BigFloat.SetInt tokensToBuy in
        match BigFloat.Mul tokensToBuyFloat percentageMultiplier with
        | None => None
        | Some finalTokens => BigFloat.Int finalTokens
        end
    end.

(** The quote as the specification words it: the floor of the raw units
    times the multiplier, the multiplier being the number [m * 2^e]. *)
Definition floorScaled (x m e : Z) : Z :=
  if 0 <=? e then x * m * 2 ^ e else (x * m) / 2 ^ (- e).

Definition specRawUnits (purchaseAmount virtualSol virtualToken : Z) : Z :=
  virtualToken - (virtualSol * virtualToken) / (virtualSol + purchaseAmount).

Definition specBuyQuote (purchaseAmount : Z) (bc : BondingCurveData)
    (m e : Z) : Z :=
  floorScaled
    (specRawUnits purchaseAmount (VirtualSolReserves bc) (VirtualTokenReserves bc))
    m e.

(** The multiplier [1.0] and the initial reserves of a pump.fun curve
    (30 SOL against 1.073e15 token units), used as concrete inputs. *)
Definition one64 : spec_float := Float64.of_Z 1.

Definition pumpCurve : BondingCurveData :=
  {| RealTokenReserves := 793100000000000;
     VirtualTokenReserves := 1073000000000000;
     VirtualSolReserves := 30000000000 |}.

(** ** The asset record *)

(** The fields of [Coin] that the decisions read or write; a public key
    is the string it prints as, a nil [tokensHeld] is [None].  The
    remaining addresses and the signature of the Go struct take no part
    in any decision. *)
Record Coin := {
  mintAddr : string;
  creator : string;
  creatorATA : string;
  creatorPurchased : bool;
  creatorPurchaseSol : spec_float;
  creatorSold : bool;
  botPurchased : bool;
  exitedBuyCoin : bool;
  exitedSellCoin : bool;
  exitedCreatorListener : bool;
  isSellingCoin : bool;
  tokensHeld : option Z;
  buyPrice : Z
}.

(** The field writes of the source, one function per written field. *)
Definition setCreatorBuy (c : Coin) (sol : spec_float) (ata : string) : Coin :=
  {| mintAddr := mintAddr c; creator := creator c; creatorATA := ata;
     creatorPurchased := true; creatorPurchaseSol := sol;
     creatorSold := creatorSold c; botPurchased := botPurchased c;
     exitedBuyCoin := exitedBuyCoin c; exitedSellCoin := exitedSellCoin c;
     exitedCreatorListener := exitedCreatorListener c;
     isSellingCoin := isSellingCoin c; tokensHeld := tokensHeld c;
     buyPrice := buyPrice c |}.

Definition setBuyPrice (c : Coin) (price : Z) : Coin :=
  {| mintAddr := mintAddr c; creator := creator c; creatorATA := creatorATA c;
     creatorPurchased := creatorPurchased c;
     creatorPurchaseSol := creatorPurchaseSol c;
     creatorSold := creatorSold c; botPurchased := botPurchased c;
     exitedBuyCoin := exitedBuyCoin c; exitedSellCoin := exitedSellCoin c;
     exitedCreatorListener := exitedCreatorListener c;
     isSellingCoin := isSellingCoin c; tokensHeld := tokensHeld c;
     buyPrice := price |}.

Definition setPurchased (c : Coin) (tokens : Z) : Coin :=
  {| mintAddr := mintAddr c; creator := creator c; creatorATA := creatorATA c;
     creatorPurchased := creatorPurchased c;
     creatorPurchaseSol := creatorPurchaseSol c;
     creatorSold := creatorSold c; botPurchased := true;
     exitedBuyCoin := exitedBuyCoin c; exitedSellCoin := exitedSellCoin c;
     exitedCreatorListener := exitedCreatorListener c;
     isSellingCoin := isSellingCoin c; tokensHeld := Some tokens;
     buyPrice := buyPrice c |}.

Definition setExitedBuyCoinTrue (c : Coin) : Coin :=
  {| mintAddr := mintAddr c; creator := creator c; creatorATA := creatorATA c;
     creatorPurchased := creatorPurchased c;
     creatorPurchaseSol := creatorPurchaseSol c;
     creatorSold := creatorSold c; botPurchased := botPurchased c;
     exitedBuyCoin := true; exitedSellCoin := exitedSellCoin c;
     exitedCreatorListener := exitedCreatorListener c;
     isSellingCoin := isSellingCoin c; tokensHeld := tokensHeld c;
     buyPrice := buyPrice c |}.

Definition setExitedSellCoinTrue (c : Coin) : Coin :=
  {| mintAddr := mintAddr c; creator := creator c; creatorATA := creatorATA c;
     creatorPurchased := creatorPurchased c;
     creatorPurchaseSol := creatorPurchaseSol c;
     creatorSold := creatorSold c; botPurchased := botPurchased c;
     exitedBuyCoin := exitedBuyCoin c; exitedSellCoin := true;
     exitedCreatorListener := exitedCreatorListener c;
     isSellingCoin := isSellingCoin c; tokensHeld := tokensHeld c;
     buyPrice := buyPrice c |}.

Definition setExitedCreatorListenerTrue (c : Coin) : Coin :=
  {| mintAddr := mintAddr c; creator := creator c; creatorATA := creatorATA c;
     creatorPurchased := creatorPurchased c;
     creatorPurchaseSol := creatorPurchaseSol c;
     creatorSold := creatorSold c; botPurchased := botPurchased c;
     exitedBuyCoin := exitedBuyCoin c; exitedSellCoin := exitedSellCoin c;
     exitedCreatorListener := true;
     isSellingCoin := isSellingCoin c; tokensHeld := tokensHeld c;
     buyPrice := buyPrice c |}.

Definition setCreatorSoldTrue (c : Coin) : Coin :=
  {| mintAddr := mintAddr c; creator := creator c; creatorATA := creatorATA c;
     creatorPurchased := creatorPurchased c;
     creatorPurchaseSol := creatorPurchaseSol c;
     creatorSold := true; botPurchased := botPurchased c;
     exitedBuyCoin := exitedBuyCoin c; exitedSellCoin := exitedSellCoin c;
     exitedCreatorListener := exitedCreatorListener c;
     isSellingCoin := isSellingCoin c; tokensHeld := tokensHeld c;
     buyPrice := buyPrice c |}.

Definition setIsSellingCoinTrue (c : Coin) : Coin :=
  {| mintAddr := mintAddr c; creator := creator c; creatorATA := creatorATA c;
     creatorPurchased := creatorPurchased c;
     creatorPurchaseSol := creatorPurchaseSol c;
     creatorSold := creatorSold c; botPurchased := botPurchased c;
     exitedBuyCoin := exitedBuyCoin c; exitedSellCoin := exitedSellCoin c;
     exitedCreatorListener := exitedCreatorListener c;
     isSellingCoin := true; tokensHeld := tokensHeld c;
     buyPrice := buyPrice c |}.

(** [botHoldsTokens] *)
Definition botHoldsTokens (c : Coin) : bool :=
  match tokensHeld c with
  | None => false
  | Some held =>
      let heldTokensInt := bigInt64 held in
      100 <? heldTokensInt
  end.

(** [lateToBuy] *)
Definition lateToBuy (c : Coin) (bcd : BondingCurveData) : bool :=
  let reservesLamports := Float64.of_Z (VirtualSolReserves bcd) in
  let reservesSol := Float64.div reservesLamports (Float64.of_Z LAMPORTS_PER_SOL) in
  let reservesLessCreatorSol := Float64.sub reservesSol (creatorPurchaseSol c) in
  Float64.ltb (Float64.lit 1 10)
              (Float64.sub reservesLessCreatorSol (Float64.of_Z 30)).

(** ** The pending-coin registry and its scan *)

(** [pendingCoins] maps the mint address to a coin pointer ([None] for a
    nil pointer); an entry holds the present content of the coin it
    points to. *)

(** One iteration of the loop of [fetchCoinsToSell]: both deletions and
    the selection are tried in turn, none of them ends the iteration. *)
Definition scanCoin (acc : list Coin * gmap string (option Coin))
    (entry : string * option Coin) : list Coin * gmap string (option Coin) :=
  let '(coinsToSell, pendingCoins) := acc in
  let '(mint, ptr) := entry in
  match ptr with
  | None => acc
  | Some coin =>
      let pendingCoins :=
        if exitedBuyCoin coin && negb (botHoldsTokens coin)
        then delete mint pendingCoins else pendingCoins in
      let pendingCoins :=
        if exitedSellCoin coin && exitedCreatorListener coin
        then delete mint pendingCoins else pendingCoins in
      let coinsToSell :=
        if botHoldsTokens coin && creatorSold coin && negb (isSellingCoin coin)
        then coinsToSell ++ [coin] else coinsToSell in
      (coinsToSell, pendingCoins)
  end.

(** [fetchCoinsToSell]: the coins to sell and the registry it leaves.
    Go ranges over a map in no fixed order; the order taken here is the
    one of [map_to_list], and no statement below depends on it. *)
Definition fetchCoinsToSell (pendingCoins : gmap string (option Coin))
    : list Coin * gmap string (option Coin) :=
  foldl scanCoin ([], pendingCoins) (map_to_list pendingCoins).

(** ** The writes of the concurrent components on one coin *)

(** [BuyCoin] as far as it writes the coin: [purchase] is [None] when an
    early return leaves only the price (or nothing) written, and the
    deferred call sets [exitedBuyCoin] on every path. *)
Definition BuyCoinWrites (c : Coin) (price : option Z) (purchase : option Z)
    : Coin :=
  let c := match price with Some p => setBuyPrice c p | None => c end in
  let c := match purchase with Some t => setPurchased c t | None => c end in
  setExitedBuyCoinTrue c.

(** [SellCoinFast] as far as it writes the coin.  It sets
    [isSellingCoin], then waits on the result channel: only a confirmed
    sale sends on it.  The six-second deadline stops the sending of new
    transactions, not the wait, so without any confirmation the function
    stays blocked and its deferred [setExitedSellCoinTrue] never runs. *)
Definition SellCoinFast (coin : Coin) (resultArrives : bool) : Coin :=
  let coin := setIsSellingCoinTrue coin in
  if resultArrives then setExitedSellCoinTrue coin else coin.

(** Every write to a coin that is in the registry. *)
Inductive coinStep : Coin -> Coin -> Prop :=
| step_BuyCoin c price purchase :
    coinStep c (BuyCoinWrites c price purchase)
| step_setCreatorSold c :
    coinStep c (setCreatorSoldTrue c)
| step_listenerExit c :
    coinStep c (setExitedCreatorListenerTrue c)
| step_SellCoinFast c resultArrives :
    coinStep c (SellCoinFast c resultArrives)
| step_sellExit c :
    coinStep c (setExitedSellCoinTrue c).

(** ** Jito leader routing *)

Record JitoManager := {
  slotIndex : Z;
  epoch : Z;
  jitoValidators : gmap string bool;
  slotLeader : gmap Z string;
  voteAccounts : gmap string string
}.

(** A Go map read [m[k]] yields the zero value for a missing key. *)
Definition goLookupString (m : gmap string string) (k : string) : string :=
  default EmptyString (m !! k).

Definition goLookupBool (m : gmap string bool) (k : string) : bool :=
  default false (m !! k).

(** [isJitoLeader] *)
Definition isJitoLeader (j : JitoManager) : bool :=
  match slotLeader j !! slotIndex j with
  | None => false
  | Some validator =>
      let isLeader :=
        goLookupBool (jitoValidators j) (goLookupString (voteAccounts j) validator) in
      isLeader
  end.

Record jitoValidator := {
  VoteAccount : string;
  RunningJito : bool
}.

(** [buildJitoValidators]: the map is rebuilt from the validators the
    API reports as running Jito. *)
Definition buildJitoValidators (j : JitoManager) (validators : list jitoValidator)
    : JitoManager :=
  {| slotIndex := slotIndex j; epoch := epoch j;
     jitoValidators :=
       foldl (fun m v => if RunningJito v then <[VoteAccount v := true]> m else m)
             ∅ validators;
     slotLeader := slotLeader j; voteAccounts := voteAccounts j |}.

(** ** Transactions as the decoders see them *)

(** What [system.DecodeInstruction] yields: a transfer, with its
    [Lamports] pointer and the address of its funding account, or
    another system instruction.  The funding account is the first
    account of the instruction; it is [None] when the instruction
    carries no account, and [GetFundingAccount().PublicKey] then
    panics. *)
Inductive systemInstruction :=
| SystemTransfer (Lamports : option Z) (fundingAccount : option string)
| SystemOther.

(** The arguments of a pump [Buy] instruction after unmarshalling. *)
Record BuyArgs := {
  Amount : option Z;
  MaxSolCost : option Z
}.

(** The accounts of a pump [Create] instruction that the bot reads; a
    missing account is [None]. *)
Record CreateAccounts := {
  MintAccount : option string;
  BondingCurveAccount : option string;
  AssociatedBondingCurveAccount : option string;
  EventAuthorityAccount : option string;
  UserAccount : option string
}.

(** Modelled from the spec: the generated [pump] package (the decoder of
    the pump.fun instructions and their types) is not among the
    sources.  An instruction is recognised by its 8-byte discriminator
    among a closed set of kinds; a buy carries the result of
    unmarshalling its arguments ([None] when that fails) and its
    associated-user account, a create carries its accounts ([None]
    when unmarshalling fails). *)
Inductive pumpInstruction :=
| PumpCreate (accounts : option CreateAccounts)
| PumpBuy (args : option BuyArgs) (associatedUser : option string)
| PumpSell
| PumpWithdraw
| PumpInitialize
| PumpSetParams.

(** [solana.SystemProgramID] *)
Definition systemProgramID : string := "11111111111111111111111111111111".

(** [pumpProgramID] *)
Definition pumpProgramID : string :=
  "6EF8rrecthR5Dkzon8Nwu78hRvfCKubJ14M5uBEwF6P".

(** An instruction of a transaction message: the program it addresses,
    and the outcome of each decoding step the bot applies to it.  The
    decoders work on the accounts and the data alone, so what they
    yield does not depend on the program. *)
Record Instruction := {
  (** the key behind [ProgramIDIndex] *)
  programID : string;
  (** [ResolveInstructionAccounts] succeeds *)
  resolved : bool;
  (** [system.DecodeInstruction] on the resolved accounts and the data *)
  asSystem : option systemInstruction;
  (** [pump.DecodeInstruction], then [Data()] of at least 8 bytes *)
  asPump : option pumpInstruction
}.

Definition Transaction := list Instruction.

(** A response of the batch call, by the first test of
    [findFundersFromResps] that it fails, or the transaction it
    carries. *)
Inductive RPCResponse :=
| ResponseNoObject
| ResponseNoTransaction
| ResponseUndecodable
| ResponseTransaction (tx : Transaction).

(** ** Funder discovery *)

(** The test [solAmount > 0.05] of [checkHasFunder]. *)
Definition exceedsFunderMinimum (lamports : Z) : bool :=
  let rawLamports := Float64.of_Z lamports in
  let solAmount := Float64.div rawLamports (Float64.of_Z LAMPORTS_PER_SOL) in
  Float64.ltb (Float64.lit 5 100) solAmount.

(** [checkHasFunder]: the empty string when no instruction qualifies,
    [None] when the function panics.  The program of the instruction is
    not looked at; the funding account is read once the amount is
    there, before any test. *)
Fixpoint checkHasFunder (tx : Transaction) (creatorAddr : string)
    : option string :=
  match tx with
  | [] => Some EmptyString
  | iAtIndex :: rest =>
      if negb (resolved iAtIndex) then checkHasFunder rest creatorAddr
      else
        match asSystem iAtIndex with
        | None => checkHasFunder rest creatorAddr
        | Some SystemOther => checkHasFunder rest creatorAddr
        | Some (SystemTransfer None _) => checkHasFunder rest creatorAddr
        | Some (SystemTransfer (Some lamports) None) => None
        | Some (SystemTransfer (Some lamports) (Some funderAddr)) =>
            if negb (String.eqb funderAddr creatorAddr)
               && exceedsFunderMinimum lamports
            then Some funderAddr
            else checkHasFunder rest creatorAddr
        end
  end.

(** The loop of [findFundersFromResps] from a given list of funders;
    [None] when [checkHasFunder] panics. *)
Fixpoint findFundersLoop (responses : list RPCResponse) (creatorAddress : string)
    (fundersLimit : Z) (funders : list string) : option (list string) :=
  match responses with
  | [] => Some funders
  | response :: rest =>
      match response with
      | ResponseTransaction tx =>
          match checkHasFunder tx creatorAddress with
          | None => None
          | Some funder =>
              let funders :=
                if negb (String.eqb funder EmptyString)
                then funders ++ [funder] else funders in
              if Z.of_nat (length funders) =? fundersLimit then Some funders
              else findFundersLoop rest creatorAddress fundersLimit funders
          end
      | _ => findFundersLoop rest creatorAddress fundersLimit funders
      end
  end.

(** [findFundersFromResps] *)
Definition findFundersFromResps (responses : list RPCResponse)
    (creatorAddress : string) (fundersLimit : Z) : option (list string) :=
  findFundersLoop responses creatorAddress fundersLimit [].

(** An address is a qualifying sender in a transaction: some resolved
    instruction decodes under the system layout as a transfer whose
    funding account it is, it is not the creator, and the amount is
    above 50,000,000 lamports (0.05 SOL). *)
Definition qualifyingSender (tx : Transaction) (creatorAddr funder : string)
    : Prop :=
  exists i lamports,
    i ∈ tx /\ resolved i = true /\
    asSystem i = Some (SystemTransfer (Some lamports) (Some funder)) /\
    funder <> creatorAddr /\ 50000000 < lamports.

(** An address is the sender of a native transfer in a transaction:
    some instruction of the system program is a transfer funded by
    it. *)
Definition nativeTransferSender (tx : Transaction) (funder : string) : Prop :=
  exists i lamports,
    i ∈ tx /\ programID i = systemProgramID /\ resolved i = true /\
    asSystem i = Some (SystemTransfer lamports (Some funder)).

(** Every transfer that decodes in the transaction carries its funding
    account and an amount of 64 bits. *)
Definition transfersWellFormed (tx : Transaction) : Prop :=
  forall i lamports funder,
    i ∈ tx -> resolved i = true ->
    asSystem i = Some (SystemTransfer (Some lamports) funder) ->
    funder <> None /\ is_uint64 lamports.

(** ** Vetting *)

(** [exchangeAddresses] *)
Definition exchangeAddresses : gmap string unit :=
  list_to_map
    [ ("AC5RDfQFmDS1deWZos921JfqscXdByf8BKHs5ACWjtW2"%string, tt);
      ("42brAgAVNzMBP7aaktPvAmBSPEkehnFQejiZc53EpJFd"%string, tt);
      ("ASTyfSima4LLAdDgoFGkgqoKowG1LZFDr9fAQrg7iaJZ"%string, tt);
      ("H8sMJSCQxfKiFTCfDR3DUMLPwcRbM61LGFJ8N4dK3WjS"%string, tt);
      ("GJRs4FwHtemZ5ZE9x3FNvJ8TMwitKTh21yxdRPqn7npE"%string, tt);
      ("5tzFkiKscXHK5ZXCGbXZxdw7gTjjD1mBwuoFbhUvuAi9"%string, tt);
      ("2ojv9BAiHUrvsm9gxDe7fJSzbNZSJcxZvf8dqmWGHG8S"%string, tt);
      ("5VCwKtCXgCJ6kit5FybXjvriW3xELsFDhYrPSqtJNmcD"%string, tt);
      ("2AQdpHJ2JpcEgPiATUXjQxA8QmafFegfQwSLWSprPicm"%string, tt) ].

(** [isExchangeAddress] *)
Definition isExchangeAddress (address : string) : bool :=
  match exchangeAddresses !! address with
  | Some _ => true
  | None => false
  end.

(** The collaborators of the vetting: the rows of the [coins] table by
    their creator address, and the chain provider behind
    [fetchNLastTrans] ([None] when the lookup fails). *)
Record Bot := {
  coinsCreators : list string;
  fetchNLastTrans : Z -> string -> option (list RPCResponse);
  buyAmountLamport : Z
}.

(** [addressCreatedCoin]: the row count for the address is positive. *)
Definition addressCreatedCoin (b : Bot) (creatorAddress : string) : bool :=
  let count := Z.of_nat (count_occ String.string_dec (coinsCreators b) creatorAddress) in
  0 <? count.

(** [isSafeFunder]: the value sent on [funderStatusChan], [None] when
    the function returns without sending.  After the two tests the
    source has only commented-out code. *)
Definition isSafeFunder (b : Bot) (funder : string) : option bool :=
  if isExchangeAddress funder then Some true
  else if addressCreatedCoin b funder then Some false
  else None.

(** How a call of [shouldBuyCoin] ends. *)
Inductive vetting :=
| Returns (buy : bool)
| BlocksForever
| Panics.

(** [shouldBuyCoin].  A panic of the funder discovery is a panic of the
    call.  One goroutine per funder sends at most one value on the
    unbuffered channel and the loop receives one value per funder: with
    fewer values sent than funders the receive blocks for ever;
    otherwise the order of arrival does not change the count of safe
    funders. *)
Definition shouldBuyCoin (b : Bot) (coin : Coin) : vetting :=
  let creatorPubKey := creator coin in
  if Float64.ltb (creatorPurchaseSol coin) (Float64.lit 5 10)
     || Float64.ltb (Float64.lit 25 10) (creatorPurchaseSol coin)
  then Returns false
  else if addressCreatedCoin b creatorPubKey then Returns false
  else
    match fetchNLastTrans b 30 creatorPubKey with
    | None => Returns false
    | Some funderTrans =>
        match findFundersFromResps funderTrans creatorPubKey 3 with
        | None => Panics
        | Some creatorFunders =>
            if (length creatorFunders =? 0)%nat then Returns false
            else
              let received := omap (isSafeFunder b) creatorFunders in
              if (length received <? length creatorFunders)%nat
              then BlocksForever
              else
                let safeFundersCount :=
                  length (filter (fun safe => safe = true) received) in
                Returns (safeFundersCount =? length creatorFunders)%nat
        end
    end.

(** ** Decoding the creation transaction *)

Inductive mintError :=
| errBadCreateInstruction
| errNoCreatorATA
| errCreatingNewCoin
| errNoCreatorBuy
| errDecoding.

Inductive mintResult :=
| MintOk (c : Coin)
| MintErr (e : mintError).

(** The creator purchase recorded from the declared maximum cost:
    [0.99 * float64(MaxSolCost) / float64(LAMPORTS_PER_SOL)]. *)
Definition creatorPurchaseOf (maxSolCost : Z) : spec_float :=
  Float64.div (Float64.mul (Float64.lit 99 100) (Float64.of_Z maxSolCost))
              (Float64.of_Z LAMPORTS_PER_SOL).

(** [fetchCreatorBuy] *)
Fixpoint fetchCreatorBuy (c : Coin) (decodedTx : Transaction) : mintResult :=
  match decodedTx with
  | [] => MintErr errNoCreatorBuy
  | instruction :: rest =>
      if negb (resolved instruction) then fetchCreatorBuy c rest
      else
        match asPump instruction with
        | Some (PumpBuy None _) => MintErr errDecoding
        | Some (PumpBuy (Some p) associatedUser) =>
            match MaxSolCost p with
            | None => MintErr errNoCreatorBuy
            | Some maxSolCost =>
                match associatedUser with
                | None => MintErr errNoCreatorATA
                | Some ata =>
                    MintOk (setCreatorBuy c (creatorPurchaseOf maxSolCost) ata)
                end
            end
        | _ => fetchCreatorBuy c rest
        end
  end.

(** [newCoinFromCreateInst] *)
Definition newCoinFromCreateInst (inst : CreateAccounts) : mintResult :=
  match UserAccount inst, MintAccount inst, BondingCurveAccount inst,
        AssociatedBondingCurveAccount inst, EventAuthorityAccount inst with
  | Some creatorAddr, Some mint, Some _, Some _, Some _ =>
      MintOk {| mintAddr := mint; creator := creatorAddr;
                creatorATA := EmptyString;
                creatorPurchased := false;
                creatorPurchaseSol := S754_zero false;
                creatorSold := false; botPurchased := false;
                exitedBuyCoin := false; exitedSellCoin := false;
                exitedCreatorListener := false; isSellingCoin := false;
                tokensHeld := None; buyPrice := 0 |}
  | _, _, _, _, _ => MintErr errBadCreateInstruction
  end.

(** [fetchNewCoin] *)
Fixpoint fetchNewCoin (decodedTx : Transaction) : mintResult :=
  match decodedTx with
  | [] => MintErr errCreatingNewCoin
  | instruction :: rest =>
      if negb (resolved instruction) then fetchNewCoin rest
      else
        match asPump instruction with
        | Some (PumpCreate None) => MintErr errDecoding
        | Some (PumpCreate (Some p)) => newCoinFromCreateInst p
        | _ => fetchNewCoin rest
        end
  end.

(** [fetchMintDetails], from the decoded transaction on: an error of
    either step drops the candidate. *)
Definition fetchMintDetails (decodedTx : Transaction) : mintResult :=
  match fetchNewCoin decodedTx with
  | MintErr e => MintErr e
  | MintOk newCoin => fetchCreatorBuy newCoin decodedTx
  end.

(** An instruction that [fetchCreatorBuy] takes for a buy. *)
Definition isPumpBuy (i : Instruction) : bool :=
  resolved i &&
  match asPump i with
  | Some (PumpBuy _ _) => true
  | _ => false
  end.

(** The test of the third [if] of the loop of [fetchCoinsToSell]. *)
Definition selectedForSale (c : Coin) : bool :=
  botHoldsTokens c && creatorSold c && negb (isSellingCoin c).

(** The tests of the two deletions of the loop of [fetchCoinsToSell]. *)
Definition deletedByScan (c : Coin) : bool :=
  (exitedBuyCoin c && negb (botHoldsTokens c))
  || (exitedSellCoin c && exitedCreatorListener c).

(** An address is found in the responses: it is a qualifying sender in
    the transaction of one of them. *)
Definition foundIn (creatorAddress : string) (responses : list RPCResponse)
    (f : string) : Prop :=
  exists tx, ResponseTransaction tx ∈ responses /\
             qualifyingSender tx creatorAddress f.

(** ** Decoding the bonding-curve account *)

(** The value of a byte. *)
Definition byteZ (b : Byte.byte) : Z := Z.of_N (Byte.to_N b).

(** The little-endian number of a byte string, first byte lowest. *)
Fixpoint littleEndian (bs : list Byte.byte) : Z :=
  match bs with
  | [] => 0
  | b :: rest => byteZ b + 256 * littleEndian rest
  end.

(** [binary.LittleEndian.Uint64(data[lo:lo+8])] *)
Definition LittleEndianUint64 (data : list Byte.byte) (lo : nat) : Z :=
  littleEndian (take 8 (drop lo data)).

Inductive curveError :=
| errAccountInfo
| errInsufficientData.

Inductive curveResult :=
| CurveOk (bcd : BondingCurveData)
| CurveErr (e : curveError).

(** [fetchBondingCurve], from the answer of the provider on: [None]
    when the lookup fails or the account has no value, else the binary
    data of the account. *)
Definition fetchBondingCurve (accountInfo : option (list Byte.byte))
    : curveResult :=
  match accountInfo with
  | None => CurveErr errAccountInfo
  | Some data =>
      if (length data <? 24)%nat then CurveErr errInsufficientData
      else
        let realTokenReserves := LittleEndianUint64 data 0 in
        let virtualTokenReserves := LittleEndianUint64 data 8 in
        let virtualSolReserves := LittleEndianUint64 data 16 in
        CurveOk {| RealTokenReserves := realTokenReserves;
                   VirtualTokenReserves := virtualTokenReserves;
                   VirtualSolReserves := virtualSolReserves |}
  end.

(** The layout the decoder reads, written the other way round: [n]
    bytes of a number, lowest first. *)
Definition byteOfZ (z : Z) : Byte.byte :=
  default Byte.x00 (Byte.of_N (Z.to_N (z mod 256))).

Fixpoint littleEndianBytes (n : nat) (z : Z) : list Byte.byte :=
  match n with
  | O => []
  | S n => byteOfZ z :: littleEndianBytes n (z / 256)
  end.

Definition curveAccountData (bcd : BondingCurveData) : list Byte.byte :=
  littleEndianBytes 8 (RealTokenReserves bcd)
  ++ littleEndianBytes 8 (VirtualTokenReserves bcd)
  ++ littleEndianBytes 8 (VirtualSolReserves bcd).

(** ** Registry updates *)

(** [addNewPendingCoin] *)
Definition addNewPendingCoin (pendingCoins : gmap string (option Coin))
    (coin : Coin) : gmap string (option Coin) :=
  <[mintAddr coin := Some coin]> pendingCoins.

(** [setCreatorSold]: the write goes to the coin the registry holds
    under the mint address; [None] is the nil dereference of an entry
    that holds a nil pointer. *)
Definition setCreatorSold (pendingCoins : gmap string (option Coin))
    (coin : Coin) : option (gmap string (option Coin)) :=
  let mint := mintAddr coin in
  match pendingCoins !! mint with
  | None => Some pendingCoins
  | Some None => None
  | Some (Some registered) =>
      Some (<[mint := Some (setCreatorSoldTrue registered)]> pendingCoins)
  end.

(** ** Refreshing the routing state *)

Record VoteAccountsResult := {
  NodePubkey : string;
  VotePubkey : string
}.

(** [buildVoteAccounts]: the entries are added to the map the manager
    already has. *)
Definition buildVoteAccounts (j : JitoManager)
    (accounts : list VoteAccountsResult) : JitoManager :=
  {| slotIndex := slotIndex j; epoch := epoch j;
     jitoValidators := jitoValidators j;
     slotLeader := slotLeader j;
     voteAccounts :=
       foldl (fun m account => <[NodePubkey account := VotePubkey account]> m)
             (voteAccounts j) accounts |}.

(** [buildLeaderSchedule]: a new map, filled from the slots of every
    validator of the schedule.  Go ranges over the schedule in no fixed
    order; the order taken here is the one of [map_to_list]. *)
Definition buildLeaderSchedule (j : JitoManager)
    (scheduleResult : gmap string (list Z)) : JitoManager :=
  {| slotIndex := slotIndex j; epoch := epoch j;
     jitoValidators := jitoValidators j;
     slotLeader :=
       foldl (fun m entry =>
                foldl (fun m slot => <[slot := fst entry]> m) m (snd entry))
             ∅ (map_to_list scheduleResult);
     voteAccounts := voteAccounts j |}.

(** [fetchLeaderSchedule]: [None] for the schedule is a failed lookup;
    the boolean tells whether the function returned an error. *)
Definition fetchLeaderSchedule (j : JitoManager)
    (scheduleResult : option (gmap string (list Z))) : JitoManager * bool :=
  match scheduleResult with
  | None => (j, true)
  | Some schedule => (buildLeaderSchedule j schedule, false)
  end.

Definition setSlotIndex (j : JitoManager) (slot : Z) : JitoManager :=
  {| slotIndex := slot; epoch := epoch j;
     jitoValidators := jitoValidators j;
     slotLeader := slotLeader j; voteAccounts := voteAccounts j |}.

Definition setEpoch (j : JitoManager) (e : Z) : JitoManager :=
  {| slotIndex := slotIndex j; epoch := e;
     jitoValidators := jitoValidators j;
     slotLeader := slotLeader j; voteAccounts := voteAccounts j |}.

(** [fetchEpochInfo]: [epochInfo] is the slot index and the epoch the
    provider reports ([None] when the lookup fails). *)
Definition fetchEpochInfo (j : JitoManager) (epochInfo : option (Z * Z))
    (scheduleResult : option (gmap string (list Z))) : JitoManager * bool :=
  match epochInfo with
  | None => (j, true)
  | Some (scheduleSlotIndex, scheduleEpoch) =>
      let j := setSlotIndex j scheduleSlotIndex in
      if negb (epoch j =? scheduleEpoch) then
        let '(j, failed) := fetchLeaderSchedule j scheduleResult in
        if failed then (j, true)
        else (setEpoch j scheduleEpoch, false)
      else (j, false)
  end.

(** ** Detecting the creator's exit *)













(** The test of [listenCreatorSell] that ends the listener without a
    look at the creator's transactions. *)
Definition listenerGivesUp (coin : Coin) : bool :=
  (exitedBuyCoin coin && negb (botPurchased coin))
  || (botPurchased coin && negb (botHoldsTokens coin)).

(** ** Candidate selection *)

Inductive candidateSignal :=
| SendToBuy (coin : Coin)
| Skip
| Blocked
| Panicked.

(** [checkAndSignalBuyCoin]: [mintTx] is the decoded creation
    transaction ([None] when it cannot be fetched or decoded) and
    [elapsed] the nanoseconds read by [time.Since(start)] after the
    vetting. *)
Definition checkAndSignalBuyCoin (b : Bot) (mintTx : option Transaction)
    (elapsed : Z) : candidateSignal :=
  match mintTx with
  | None => Skip
  | Some decodedTx =>
      match fetchMintDetails decodedTx with
      | MintErr _ => Skip
      | MintOk newCoin =>
          match shouldBuyCoin b newCoin with
          | Panics => Panicked
          | BlocksForever => Blocked
          | Returns false => Skip
          | Returns true =>
              if 2 * 1000000000 <? elapsed then Skip
              else SendToBuy newCoin
          end
      end
  end.

(** ** Building and sending the transactions *)

(** [big.Int.Uint64]: the low 64 bits of the magnitude. *)
Definition bigUint64 (x : Z) : Z := Z.abs x mod 2 ^ 64.

(** The instructions the bot puts into a transaction. *)
Inductive TxInstruction :=
| SetComputeUnitPrice (microLamports : Z)
| SetComputeUnitLimit (units : Z)
| CreateAssociatedTokenAccount (mint : string)
| BuyInstruction (amount maxSolCost : Z) (mint : string)
| SellInstruction (amount minSolOutput : Z) (mint : string)
| JitoTip (lamports : Z).

(** [computeUnitLimits] *)
Definition computeUnitLimits : Z := 70000.

(** [createSellInstruction]: [None] is the nil dereference of a coin
    without [tokensHeld]. *)
Definition createSellInstruction (coin : Coin) : option TxInstruction :=
  match tokensHeld coin with
  | None => None
  | Some held =>
      let minimumLamports := 1 in
      Some (SellInstruction (bigUint64 held) minimumLamports (mintAddr coin))
  end.

(** [sellCoin] up to the signing: the instructions of the transaction
    and the flag handed to [signAndSendTx].  [tipInst] is the
    instruction [generateTipInstruction] builds. *)
Definition sellCoin (feeMicroLamport : Z) (j : JitoManager)
    (tipInst : TxInstruction) (coin : Coin) (sendVanilla : bool)
    : option (list TxInstruction * bool) :=
  match createSellInstruction coin with
  | None => None
  | Some sellInstruction =>
      let culInst := SetComputeUnitLimit computeUnitLimits in
      let cupInst := SetComputeUnitPrice feeMicroLamport in
      let instructions := [cupInst; culInst; sellInstruction] in
      let enableJito := isJitoLeader j && negb sendVanilla in
      let instructions :=
        if enableJito then drop 1 (instructions ++ [tipInst])
        else instructions in
      Some (instructions, enableJito)
  end.

(** The ticker loop of [SellCoinFast]: the value of [sendVanilla] handed
    to each of the next [n] attempts, the flag being flipped before
    every attempt. *)
Fixpoint sellTicks (n : nat) (sendVanilla : bool) : list bool :=
  match n with
  | O => []
  | S n =>
      let sendVanilla := negb sendVanilla in
      sendVanilla :: sellTicks n sendVanilla
  end.

Definition sellAttempts (n : nat) : list bool := sellTicks n true.

(** What [BuyCoin] gets from outside: the settings of the bot, and the
    outcome of every call that leaves the program. *)
Inductive sendOutcome :=
| SendConfirmed
| SendAlreadyProcessed
| SendFailed.

Record BuyEnv := {
  feeMicroLamport : Z;
  skipATALookup : bool;
  (** [calculateATAAddress], [None] on error *)
  ataAddress : option string;
  (** the lookup of [shouldCreateATA] finds the account *)
  ataExists : bool;
  (** the account read by [fetchBondingCurve] *)
  curveAccount : option (list Byte.byte);
  (** [createATA], [None] on error *)
  createATAInstruction : option TxInstruction;
  jitoManager : JitoManager;
  (** [generateTipInstruction], [None] on error *)
  tipInstruction : option TxInstruction;
  (** [createTransaction] succeeds *)
  transactionCreated : bool;
  (** [signAndSendTx]; an error that says the transaction has already
      been processed is [SendAlreadyProcessed] *)
  sendResult : sendOutcome
}.

Inductive buyError :=
| errLateToCoin
| errATAAddress
| errBondingCurve (e : curveError)
| errCreateATA
| errCreateTransaction
| errSend.

(** A run of [BuyCoin] returns with its error (if any), the coin as it
    leaves it and the transaction it signed (if any); or the quote
    panics; or a failing tip instruction ends the process. *)
Inductive buyOutcome :=
| BuyReturned (err : option buyError) (coin : Coin)
              (signed : option (list TxInstruction * bool))
| BuyPanicked
| BuyFatal.

(** [BuyCoin] on a coin that is not nil.  The deferred
    [setExitedBuyCoinTrue] runs on every return. *)
Definition BuyCoin (b : Bot) (env : BuyEnv) (coin : Coin) : buyOutcome :=
  match ataAddress env with
  | None => BuyReturned (Some errATAAddress) (setExitedBuyCoinTrue coin) None
  | Some ata =>
      let shouldCreateATA :=
        if skipATALookup env then true else negb (ataExists env) in
      match fetchBondingCurve (curveAccount env) with
      | CurveErr e =>
          BuyReturned (Some (errBondingCurve e)) (setExitedBuyCoinTrue coin) None
      | CurveOk bcd =>
          if lateToBuy coin bcd
          then BuyReturned (Some errLateToCoin) (setExitedBuyCoinTrue coin) None
          else
            let coin := setBuyPrice coin (buyAmountLamport b) in
            match calculateBuyQuote (buyAmountLamport b) bcd (Float64.lit 98 100) with
            | None => BuyPanicked
            | Some tokensToBuy =>
                let buyInstruction :=
                  BuyInstruction (bigUint64 tokensToBuy) (buyAmountLamport b)
                                 (mintAddr coin) in
                let culInst := SetComputeUnitLimit computeUnitLimits in
                let cupInst := SetComputeUnitPrice (feeMicroLamport env) in
                let assembled :=
                  if shouldCreateATA then
                    match createATAInstruction env with
                    | None => None
                    | Some createAtaInstruction =>
                        Some [cupInst; culInst; createAtaInstruction; buyInstruction]
                    end
                  else Some [cupInst; culInst; buyInstruction] in
                match assembled with
                | None =>
                    BuyReturned (Some errCreateATA) (setExitedBuyCoinTrue coin) None
                | Some instructions =>
                    let enableJito := isJitoLeader (jitoManager env) in
                    let withTip :=
                      if enableJito then
                        match tipInstruction env with
                        | None => None
                        | Some tipInst => Some (drop 1 (instructions ++ [tipInst]))
                        end
                      else Some instructions in
                    match withTip with
                    | None => BuyFatal
                    | Some instructions =>
                        if negb (transactionCreated env)
                        then BuyReturned (Some errCreateTransaction)
                                         (setExitedBuyCoinTrue coin) None
                        else
                          match sendResult env with
                          | SendFailed =>
                              BuyReturned (Some errSend) (setExitedBuyCoinTrue coin)
                                          (Some (instructions, enableJito))
                          | _ =>
                              let coin := setPurchased coin tokensToBuy in
                              BuyReturned None (setExitedBuyCoinTrue coin)
                                          (Some (instructions, enableJito))
                          end
                    end
                end
            end
      end
  end.

(** ** Funders, one instruction and one response at a time *)

(** The funding address of an instruction that [checkHasFunder] takes:
    a resolved instruction that decodes as a system transfer with an
    amount above 50,000,000 lamports, not funded by the creator. *)
Definition qualifyingTransfer (creatorAddr : string) (i : Instruction)
    : option string :=
  if resolved i then
    match asSystem i with
    | Some (SystemTransfer (Some lamports) (Some funderAddr)) =>
        if negb (String.eqb funderAddr creatorAddr) && (50000000 <? lamports)
        then Some funderAddr else None
    | _ => None
    end
  else None.

(** The funder [findFundersFromResps] takes from one response: the
    first qualifying transfer of its transaction, if the response
    carries a transaction and that address is not the empty string. *)
Definition responseFunder (creatorAddress : string) (response : RPCResponse)
    : option string :=
  match response with
  | ResponseTransaction tx =>
      match head (omap (qualifyingTransfer creatorAddress) tx) with
      | Some funder =>
          if String.eqb funder EmptyString then None else Some funder
      | None => None
      end
  | _ => None
  end.

(** ** Rounding to float64 *)

(** The record [shr_record] of [SpecFloat] locates the number [p / q]:
    its mantissa is the integer part, its round bit tells whether the
    fraction reaches one half, and its sticky bit whether anything is
    left beyond that. *)
Definition locates (mrs : shr_record) (p q : Z) : Prop :=
  exists t, 2 * p = (2 * shr_m mrs + Z.b2z (shr_r mrs)) * q + t /\
            0 <= t < q /\ shr_s mrs = negb (t =? 0).

(** A float is negative (a negative zero included) or not a number. *)
Definition negativeOrNaN (x : spec_float) : Prop :=
  match x with
  | S754_zero s | S754_infinity s | S754_finite s _ _ => s = true
  | S754_nan => True
  end.


(** ** Concrete inputs *)

(** A coin whose creator bought for the given amount of SOL. *)
Definition coinWithPurchase (sol : spec_float) : Coin :=
  {| mintAddr := "MintAddress"; creator := "CreatorWallet";
     creatorATA := "CreatorTokenAccount";
     creatorPurchased := true; creatorPurchaseSol := sol;
     creatorSold := false; botPurchased := false;
     exitedBuyCoin := false; exitedSellCoin := false;
     exitedCreatorListener := false; isSellingCoin := false;
     tokensHeld := None; buyPrice := 0 |}.

(** A snapshot with the given virtual sol reserves, in lamports. *)
Definition curveWithSol (lamports : Z) : BondingCurveData :=
  {| RealTokenReserves := 793100000000000;
     VirtualTokenReserves := 1073000000000000;
     VirtualSolReserves := lamports |}.

(** A coin bought by the bot, holding the given token units, whose
    creator has sold. *)
Definition heldCoin (tokens : Z) : Coin :=
  setCreatorSoldTrue
    (BuyCoinWrites (coinWithPurchase one64) (Some 50000000) (Some tokens)).

(** A manager whose validator list came with one entry that runs Jito
    and has no vote account, and whose current leader has no entry in
    the vote-account map. *)
Definition managerWithUnnamedValidator : JitoManager :=
  buildJitoValidators
    {| slotIndex := 5; epoch := 1; jitoValidators := ∅;
       slotLeader := {[ 5 := "LeaderNode"%string ]};
       voteAccounts := ∅ |}
    [ {| VoteAccount := EmptyString; RunningJito := true |} ].

(** A manager whose current leader resolves to a vote account that
    runs Jito, and one whose current slot has no leader. *)
Definition managerWithJitoLeader : JitoManager :=
  buildJitoValidators
    {| slotIndex := 5; epoch := 1; jitoValidators := ∅;
       slotLeader := {[ 5 := "LeaderNode"%string ]};
       voteAccounts := {[ "LeaderNode"%string := "LeaderVote"%string ]} |}
    [ {| VoteAccount := "LeaderVote"; RunningJito := true |} ].

Definition managerWithoutLeader : JitoManager :=
  {| slotIndex := 7; epoch := 1;
     jitoValidators := jitoValidators managerWithJitoLeader;
     slotLeader := slotLeader managerWithJitoLeader;
     voteAccounts := voteAccounts managerWithJitoLeader |}.

(** A resolved system transfer of the given lamports from the given
    address, and a bot with an empty [coins] table whose provider
    answers every lookup with one transaction made of that transfer. *)
Definition transferInstruction (lamports : Z) (sender : string) : Instruction :=
  {| programID := systemProgramID;
     resolved := true;
     asSystem := Some (SystemTransfer (Some lamports) (Some sender));
     asPump := None |}.

Definition botWithFunder (funder : string) : Bot :=
  {| coinsCreators := [];
     fetchNLastTrans := fun _ _ =>
       Some [ResponseTransaction [transferInstruction 1000000000 funder]];
     buyAmountLamport := 50000000 |}.

(** A bot whose provider finds no transaction at all. *)
Definition botWithoutFunder : Bot :=
  {| coinsCreators := [];
     fetchNLastTrans := fun _ _ => Some [];
     buyAmountLamport := 50000000 |}.

(** An instruction of the memo program whose twelve bytes of data read,
    under the layout of the system program, as a transfer of one SOL,
    and whose first account is the signer of the memo. *)
Definition memoProgramID : string :=
  "MemoSq4gqABAXKb96qnH8TysNcWxMyWCqXgDLGmfcHr".

Definition memoInstruction : Instruction :=
  {| programID := memoProgramID;
     resolved := true;
     asSystem := Some (SystemTransfer (Some 1000000000) (Some "MemoSigner"%string));
     asPump := None |}.

(** A resolved instruction that decodes as a transfer and carries no
    account. *)
Definition transferWithoutAccounts : Instruction :=
  {| programID := systemProgramID;
     resolved := true;
     asSystem := Some (SystemTransfer (Some 1000000000) None);
     asPump := None |}.

(** A bot whose provider answers every lookup with one transaction
    made of that instruction. *)
Definition botWithBrokenTransfer : Bot :=
  {| coinsCreators := [];
     fetchNLastTrans := fun _ _ =>
       Some [ResponseTransaction [transferWithoutAccounts]];
     buyAmountLamport := 50000000 |}.

(** A resolved pump buy with the given arguments, and a creation
    transaction made of a create and that buy. *)
Definition buyInstruction (amount maxSolCost : Z) (ata : string) : Instruction :=
  {| programID := pumpProgramID;
     resolved := true;
     asSystem := None;
     asPump := Some (PumpBuy (Some {| Amount := Some amount;
                                      MaxSolCost := Some maxSolCost |})
                             (Some ata)) |}.


Definition createInstruction : Instruction :=
  {| programID := pumpProgramID;
     resolved := true;
     asSystem := None;
     asPump := Some (PumpCreate
                       (Some {| MintAccount := Some "MintAddress"%string;
                                BondingCurveAccount := Some "Curve"%string;
                                AssociatedBondingCurveAccount := Some "CurveTokens"%string;
                                EventAuthorityAccount := Some "EventAuthority"%string;
                                UserAccount := Some "CreatorWallet"%string |})) |}.

(** A coin the bot bought and holds, whose creator has not sold. *)
Definition boughtCoin (tokens : Z) : Coin :=
  BuyCoinWrites (coinWithPurchase one64) (Some 50000000) (Some tokens).



(** ** Facts on the integer conversions and on rounding *)

Lemma int64_small (z : Z) : 0 <= z < 2 ^ 63 -> int64 z = z.
Proof.
  intros Hz. unfold int64. rewrite Z.mod_small; lia.
Qed.

Lemma int64_high (z : Z) : 2 ^ 63 <= z < 2 ^ 64 -> int64 z = z - 2 ^ 64.
Proof.
  intros Hz. unfold int64.
  replace (z + 2 ^ 63) with ((z - 2 ^ 63) + 1 * 2 ^ 64) by lia.
  rewrite Z.mod_add by lia. rewrite Z.mod_small; lia.
Qed.

Lemma bigDiv_pos (x y : Z) : 0 < y -> bigDiv x y = x / y.
Proof.
  intros Hy. unfold bigDiv.
  rewrite Z.sgn_pos, Z.abs_eq by lia. lia.
Qed.

Lemma bitLen_nonneg (x : Z) : 0 <= bitLen x.
Proof.
  unfold bitLen. destruct (x =? 0); [lia|].
  pose proof (Z.log2_nonneg (Z.abs x)). lia.
Qed.

Lemma bitLen_shift (t k : Z) :
  t <> 0 -> 0 <= k -> bitLen (Z.abs (t * 2 ^ k)) = bitLen t + k.
Proof.
  intros Ht Hk. unfold bitLen.
  assert (H2 : 0 < 2 ^ k) by (apply Z.pow_pos_nonneg; lia).
  assert (Ha : Z.abs (t * 2 ^ k) = Z.abs t * 2 ^ k).
  { rewrite Z.abs_mul, (Z.abs_eq (2 ^ k)) by lia. reflexivity. }
  rewrite Ha. rewrite (Z.abs_eq (Z.abs t * 2 ^ k)) by nia.
  destruct (Z.eqb_spec (Z.abs t * 2 ^ k) 0) as [E|_]; [nia|].
  destruct (Z.eqb_spec t 0) as [E|_]; [contradiction|].
  rewrite <- Z.shiftl_mul_pow2 by lia.
  rewrite Z.log2_shiftl by lia. lia.
Qed.

(** A product [t * 2^k] whose factor [t] fits the precision is not
    changed by the rounding: only zero bits are dropped. *)
Lemma roundToNearestEven_exact (p t k e : Z) :
  0 <= k -> bitLen t <= p ->
  exists s, 0 <= s <= k /\
    BigFloat.roundToNearestEven p (t * 2 ^ k) e = (t * 2 ^ (k - s), e + s).
Proof.
  intros Hk Hp. unfold BigFloat.roundToNearestEven.
  destruct (Z.eq_dec t 0) as [->|Ht].
  { exists 0. change (bitLen 0) with 0 in Hp.
    rewrite !Z.mul_0_l. change (bitLen (Z.abs 0)) with 0.
    destruct (Z.leb_spec 0 p); [|lia].
    split; [lia|]. f_equal; lia. }
  rewrite bitLen_shift by assumption.
  destruct (Z.leb_spec (bitLen t + k) p) as [Hle|Hgt].
  { exists 0. split; [lia|]. rewrite Z.sub_0_r. f_equal; lia. }
  set (s := bitLen t + k - p).
  assert (Hs : 0 < s <= k) by (unfold s; lia).
  exists s. split; [lia|].
  assert (H2s : 0 < 2 ^ s) by (apply Z.pow_pos_nonneg; lia).
  assert (H2ks : 0 < 2 ^ (k - s)) by (apply Z.pow_pos_nonneg; lia).
  assert (Habs : Z.abs (t * 2 ^ k) = Z.abs t * 2 ^ (k - s) * 2 ^ s).
  { rewrite Z.abs_mul, (Z.abs_eq (2 ^ k)) by (apply Z.pow_nonneg; lia).
    rewrite <- Z.mul_assoc, <- Z.pow_add_r by lia.
    do 2 f_equal. lia. }
  assert (Hr : Z.land (Z.abs (t * 2 ^ k)) (Z.ones s) = 0).
  { rewrite Z.land_ones by lia. rewrite Habs. apply Z.mod_mul. lia. }
  assert (Hq : Z.shiftr (Z.abs (t * 2 ^ k)) s = Z.abs t * 2 ^ (k - s)).
  { rewrite Z.shiftr_div_pow2 by lia. rewrite Habs. apply Z.div_mul. lia. }
  assert (Hhalf : 0 < Z.shiftl 1 (s - 1)).
  { rewrite Z.shiftl_1_l. apply Z.pow_pos_nonneg; lia. }
  rewrite Hr, Hq.
  destruct (Z.ltb_spec (Z.shiftl 1 (s - 1)) 0); [lia|].
  destruct (Z.eqb_spec 0 (Z.shiftl 1 (s - 1))); [lia|].
  simpl. f_equal.
  rewrite Z.sgn_mul, (Z.sgn_pos (2 ^ k)) by (apply Z.pow_pos_nonneg; lia).
  rewrite Z.mul_1_r, Z.mul_assoc. f_equal.
  destruct t; simpl; lia.
Qed.

Lemma NewFloat_one64 :
  BigFloat.NewFloat one64 = Some (BigFloat.Finite 53 (2 ^ 52) (-52)).
Proof. vm_compute. reflexivity. Qed.

(** Inside the int64 range of the purchase amount and at multiplier 1
    the code computes the raw units of the constant-product formula. *)
Lemma calculateBuyQuote_one_in_range (a : Z) (bc : BondingCurveData) :
  0 <= a < 2 ^ 63 ->
  0 < VirtualSolReserves bc + a ->
  calculateBuyQuote a bc one64
  = Some (specRawUnits a (VirtualSolReserves bc) (VirtualTokenReserves bc)).
Proof.
  intros Ha Hpos. unfold calculateBuyQuote, specRawUnits.
  rewrite int64_small by assumption.
  destruct (Z.eqb_spec (VirtualSolReserves bc + a) 0) as [E|_]; [lia|].
  rewrite bigDiv_pos by assumption.
  rewrite NewFloat_one64.
  set (t := VirtualTokenReserves bc
            - VirtualSolReserves bc * VirtualTokenReserves bc
              / (VirtualSolReserves bc + a)).
  unfold BigFloat.SetInt, BigFloat.Mul.
  destruct (roundToNearestEven_exact (Z.max (Z.max (bitLen t) 64) 53) t 52 (0 + -52))
    as (s & Hs & ->); [lia | lia |].
  unfold BigFloat.Int. f_equal.
  assert (H2 : 0 < 2 ^ (52 - s)) by (apply Z.pow_pos_nonneg; lia).
  destruct (Z.leb_spec 0 (0 + -52 + s)) as [H0|H0].
  - replace (52 - s) with 0 by lia. replace (0 + -52 + s) with 0 by lia.
    change (2 ^ 0) with 1. lia.
  - replace (- (0 + -52 + s)) with (52 - s) by lia.
    apply Z.quot_mul. lia.
Qed.

(** In that range the quote is bounded by the token reserves and grows
    with the purchase amount. *)
Lemma specRawUnits_bounded (a vS vT : Z) :
  0 <= a -> 0 < vS -> 0 < vT -> specRawUnits a vS vT <= vT.
Proof.
  intros Ha HS HT. unfold specRawUnits.
  assert (0 <= vS * vT / (vS + a)); [|lia].
  apply Z.div_pos; nia.
Qed.

Lemma specRawUnits_monotone (a1 a2 vS vT : Z) :
  0 <= a1 <= a2 -> 0 < vS -> 0 < vT ->
  specRawUnits a1 vS vT <= specRawUnits a2 vS vT.
Proof.
  intros Ha HS HT. unfold specRawUnits.
  assert (vS * vT / (vS + a2) <= vS * vT / (vS + a1)); [|lia].
  apply Z.div_le_compat_l; nia.
Qed.

Lemma calculateBuyQuote_bounded_monotone_in_range
    (a1 a2 : Z) (bc : BondingCurveData) :
  0 < VirtualSolReserves bc -> 0 < VirtualTokenReserves bc ->
  0 <= a1 <= a2 -> a2 < 2 ^ 63 ->
  exists q1 q2,
    calculateBuyQuote a1 bc one64 = Some q1 /\
    calculateBuyQuote a2 bc one64 = Some q2 /\
    q1 <= q2 /\ q2 <= VirtualTokenReserves bc.
Proof.
  intros HS HT Ha Hlt.
  exists (specRawUnits a1 (VirtualSolReserves bc) (VirtualTokenReserves bc)),
         (specRawUnits a2 (VirtualSolReserves bc) (VirtualTokenReserves bc)).
  repeat split.
  - apply calculateBuyQuote_one_in_range; lia.
  - apply calculateBuyQuote_one_in_range; lia.
  - apply specRawUnits_monotone; lia.
  - apply specRawUnits_bounded; lia.
Qed.

Lemma calculateBuyQuote_in_range_witness :
  exists q1 q2,
    calculateBuyQuote 50000000 pumpCurve one64 = Some q1 /\
    calculateBuyQuote 1000000000 pumpCurve one64 = Some q2 /\
    q1 <= q2 /\ q2 <= VirtualTokenReserves pumpCurve.
Proof.
  apply (calculateBuyQuote_bounded_monotone_in_range 50000000 1000000000 pumpCurve);
    simpl; lia.
Defined.

Lemma bitLen_le_mono (x y : Z) : 0 <= x <= y -> bitLen x <= bitLen y.
Proof.
  intros Hxy. unfold bitLen.
  destruct (Z.eqb_spec x 0) as [->|Hx].
  - destruct (Z.eqb_spec y 0); [lia|].
    pose proof (Z.log2_nonneg (Z.abs y)). lia.
  - destruct (Z.eqb_spec y 0); [lia|].
    rewrite !Z.abs_eq by lia.
    pose proof (Z.log2_le_mono x y). lia.
Qed.

(** Rounding a non-negative product to [p] bits and truncating it to an
    integer gives the floor or the floor plus one, as long as the
    rounding does not reach the integer bits. *)
Lemma round_then_truncate (p P k : Z) :
  0 < p -> 0 <= P -> 0 <= k -> bitLen P <= p + k ->
  exists q' e' r,
    BigFloat.roundToNearestEven p P (- k) = (q', e') /\
    BigFloat.Int (BigFloat.Finite p q' e') = Some r /\
    P / 2 ^ k <= r <= P / 2 ^ k + 1.
Proof.
  intros Hp HP Hk Hlen. unfold BigFloat.roundToNearestEven.
  rewrite (Z.abs_eq P) by assumption.
  assert (H2k : 0 < 2 ^ k) by (apply Z.pow_pos_nonneg; lia).
  destruct (Z.leb_spec (bitLen P) p) as [Hfit|Hbig].
  - unfold BigFloat.Int.
    eexists _, _, _. split; [reflexivity|]. split; [reflexivity|].
    destruct (Z.leb_spec 0 (- k)) as [H0|H0].
    + replace k with 0 by lia. change (- 0) with 0. change (2 ^ 0) with 1.
      rewrite Z.mul_1_r, Z.div_1_r. lia.
    + rewrite Z.opp_involutive.
      rewrite Z.quot_div_nonneg by lia. lia.
  - set (s := bitLen P - p).
    assert (Hs : 0 < s <= k) by (unfold s; lia).
    assert (HPpos : 0 < P).
    { destruct (Z.eq_dec P 0) as [->|]; [|lia].
      change (bitLen 0) with 0 in Hbig. lia. }
    set (q := Z.shiftr P s).
    assert (Hq : q = P / 2 ^ s) by (unfold q; apply Z.shiftr_div_pow2; lia).
    assert (H2s : 0 < 2 ^ s) by (apply Z.pow_pos_nonneg; lia).
    assert (Hq0 : 0 <= q) by (rewrite Hq; apply Z.div_pos; lia).
    set (up := (Z.shiftl 1 (s - 1) <? Z.land P (Z.ones s))
               || (Z.land P (Z.ones s) =? Z.shiftl 1 (s - 1)) && Z.odd q).
    set (q' := if up then q + 1 else q).
    assert (Hq' : q <= q' <= q + 1) by (unfold q'; destruct up; lia).
    rewrite (Z.sgn_pos P) by assumption. rewrite Z.mul_1_l.
    unfold BigFloat.Int.
    assert (Hdiv : P / 2 ^ k = q / 2 ^ (k - s)).
    { rewrite Hq, Z.div_div by lia.
      rewrite <- Z.pow_add_r by lia. do 2 f_equal. lia. }
    eexists _, _, _. split; [reflexivity|]. split; [reflexivity|].
    destruct (Z.leb_spec 0 (- k + s)) as [H0|H0].
    + replace (- k + s) with 0 by lia. change (2 ^ 0) with 1.
      rewrite Hdiv. replace (k - s) with 0 by lia. change (2 ^ 0) with 1.
      rewrite Z.div_1_r. lia.
    + replace (- (- k + s)) with (k - s) by lia.
      assert (Hd : 0 < 2 ^ (k - s)) by (apply Z.pow_pos_nonneg; lia).
      rewrite Z.quot_div_nonneg by lia. rewrite Hdiv.
      split.
      * apply Z.div_le_mono; lia.
      * assert (q' / 2 ^ (k - s) <= (q + 1 * 2 ^ (k - s)) / 2 ^ (k - s)).
        { apply Z.div_le_mono; lia. }
        rewrite Z.div_add in H by lia. lia.
Qed.

(** Inside the int64 range of the purchase amount and for a multiplier
    [m * 2^e] between 0 and 1, the code returns the floor of the raw
    units times the multiplier, or one more. *)
Lemma calculateBuyQuote_in_range (a : Z) (bc : BondingCurveData)
    (m : positive) (e : Z) :
  0 <= a < 2 ^ 63 ->
  0 < VirtualSolReserves bc -> 0 <= VirtualTokenReserves bc ->
  e <= 0 -> Z.pos m <= 2 ^ (- e) ->
  exists q,
    calculateBuyQuote a bc (S754_finite false m e) = Some q /\
    specBuyQuote a bc (Z.pos m) e <= q <= specBuyQuote a bc (Z.pos m) e + 1.
Proof.
  intros Ha HS HT He Hm.
  unfold calculateBuyQuote, specBuyQuote.
  rewrite int64_small by assumption.
  destruct (Z.eqb_spec (VirtualSolReserves bc + a) 0) as [E|_]; [lia|].
  rewrite bigDiv_pos by lia.
  fold (specRawUnits a (VirtualSolReserves bc) (VirtualTokenReserves bc)).
  set (t := specRawUnits a (VirtualSolReserves bc) (VirtualTokenReserves bc)).
  assert (Ht : 0 <= t).
  { unfold t, specRawUnits.
    assert (VirtualSolReserves bc * VirtualTokenReserves bc
            / (VirtualSolReserves bc + a) <= VirtualTokenReserves bc); [|lia].
    apply Z.div_le_upper_bound; nia. }
  set (k := - e). assert (Hk : 0 <= k) by (unfold k; lia).
  assert (H2k : 0 < 2 ^ k) by (apply Z.pow_pos_nonneg; lia).
  assert (Hfloor : floorScaled t (Z.pos m) e = t * Z.pos m / 2 ^ k).
  { unfold floorScaled. destruct (Z.leb_spec 0 e).
    - replace e with 0 by lia. unfold k. replace (- e) with 0 by lia.
      change (2 ^ 0) with 1. rewrite Z.div_1_r. lia.
    - reflexivity. }
  rewrite Hfloor. simpl BigFloat.NewFloat. cbv iota beta.
  unfold BigFloat.SetInt, BigFloat.Mul.
  set (p := Z.max (Z.max (bitLen t) 64) 53).
  replace (0 + e) with (- k) by (unfold k; lia).
  destruct (round_then_truncate p (t * Z.pos m) k) as (q' & e' & r & -> & Hint & Hr).
  - unfold p. lia.
  - nia.
  - assumption.
  - destruct (Z.eq_dec t 0) as [E0|Hne].
    + rewrite E0. change (bitLen (0 * Z.pos m)) with 0. unfold p. lia.
    + transitivity (bitLen (Z.abs (t * 2 ^ k))).
      * rewrite Z.abs_eq by nia. apply bitLen_le_mono. fold k in Hm. nia.
      * rewrite bitLen_shift by assumption. unfold p. lia.
  - exists r. split; assumption.
Qed.

Lemma calculateBuyQuote_in_range_example :
  exists q,
    calculateBuyQuote 50000000 pumpCurve (Float64.lit 98 100) = Some q /\
    specBuyQuote 50000000 pumpCurve 8827055269646172 (-53) <= q
    <= specBuyQuote 50000000 pumpCurve 8827055269646172 (-53) + 1.
Proof.
  apply (calculateBuyQuote_in_range 50000000 pumpCurve 8827055269646172 (-53));
    simpl; lia.
Defined.

(** C1. For every snapshot and every unsigned 64-bit purchase amount the
    quote should be the floor of the constant-product raw units times
    the multiplier, no intermediate value overflowing.  The purchase
    amount goes through [int64] before it becomes a big integer: at the
    amount 2^63, on the initial pump.fun curve and multiplier 1, the
    addend is -2^63, the new sol reserves are negative, and the code
    answers 1073000003490046 where the formula gives
    1072999996509954. *)
Theorem calculateBuyQuote_int64_conversion_wraps :
  is_uint64 (2 ^ 63) /\
  int64 (2 ^ 63) = - 2 ^ 63 /\
  calculateBuyQuote (2 ^ 63) pumpCurve one64 = Some 1073000003490046 /\
  specBuyQuote (2 ^ 63) pumpCurve 1 0 = 1072999996509954.
Proof.
  repeat split; try (vm_compute; congruence).
Qed.

(** At an amount the conversion keeps, the product with the multiplier
    is still rounded to nearest at 64 bits before it is truncated: with
    token reserves 1125899906842649 all bought (sol reserves 1, amount
    2^62) and the multiplier 0.98, the code is one unit above the
    floor. *)
Lemma calculateBuyQuote_product_rounded_to_nearest :
  let bc := {| RealTokenReserves := 0;
               VirtualTokenReserves := 1125899906842649;
               VirtualSolReserves := 1 |} in
  Float64.lit 98 100 = S754_finite false 8827055269646172 (-53) /\
  calculateBuyQuote (2 ^ 62) bc (Float64.lit 98 100) = Some 1103381908705796 /\
  specBuyQuote (2 ^ 62) bc 8827055269646172 (-53) = 1103381908705795.
Proof.
  repeat split; vm_compute; reflexivity.
Qed.

(** C2. At multiplier 1 the quote should never exceed the token reserves
    and never decrease when the purchase amount grows, for reserves
    above zero and every purchase amount.  Amounts from 2^63 on are
    wrapped by the [int64] conversion: on the initial pump.fun curve the
    amount 2^63 is quoted above the token reserves, and the larger
    amount 2^64-1 is quoted lower, even below zero. *)
Theorem calculateBuyQuote_bound_and_monotonicity_break :
  0 < VirtualSolReserves pumpCurve /\ 0 < VirtualTokenReserves pumpCurve /\
  is_uint64 (2 ^ 63) /\ is_uint64 (2 ^ 64 - 1) /\ 2 ^ 63 <= 2 ^ 64 - 1 /\
  calculateBuyQuote (2 ^ 63) pumpCurve one64 = Some 1073000003490046 /\
  VirtualTokenReserves pumpCurve < 1073000003490046 /\
  calculateBuyQuote (2 ^ 64 - 1) pumpCurve one64 = Some (-35766) /\
  -35766 < 1073000003490046.
Proof.
  repeat split; try (vm_compute; congruence).
Qed.

(** ** The late-entry guard *)

(** C3, as stated, fails: with a creator purchase of 1.0 SOL and
    reserves of 31.05 SOL the drift is 0.05 SOL, which does not exceed
    0.1, and [lateToBuy] answers false where the claim expects true. *)
Lemma lateToBuy_not_late_at_31_05 :
  lateToBuy (coinWithPurchase one64) (curveWithSol 31050000000) <> true.
Proof. vm_compute. discriminate. Qed.

(** C3, amended.  For a creator purchase of 1.0 SOL, [lateToBuy] is
    false at reserves of 31.05 SOL (drift 0.05) and at exactly 31.0 SOL
    (no drift), and true at 31.15 SOL (drift 0.15, above 0.1). *)
Theorem lateToBuy_drift_threshold (c : Coin) (bcd : BondingCurveData) :
  creatorPurchaseSol c = one64 ->
  (VirtualSolReserves bcd = 31050000000 -> lateToBuy c bcd = false) /\
  (VirtualSolReserves bcd = 31000000000 -> lateToBuy c bcd = false) /\
  (VirtualSolReserves bcd = 31150000000 -> lateToBuy c bcd = true).
Proof.
  intros Hc. unfold lateToBuy. rewrite Hc.
  repeat split; intros ->; vm_compute; reflexivity.
Qed.

Lemma lateToBuy_drift_threshold_witness :
  lateToBuy (coinWithPurchase one64) (curveWithSol 31050000000) = false /\
  lateToBuy (coinWithPurchase one64) (curveWithSol 31000000000) = false /\
  lateToBuy (coinWithPurchase one64) (curveWithSol 31150000000) = true.
Proof.
  pose proof (lateToBuy_drift_threshold (coinWithPurchase one64)
                (curveWithSol 31050000000) eq_refl) as (H1 & _ & _).
  pose proof (lateToBuy_drift_threshold (coinWithPurchase one64)
                (curveWithSol 31000000000) eq_refl) as (_ & H2 & _).
  pose proof (lateToBuy_drift_threshold (coinWithPurchase one64)
                (curveWithSol 31150000000) eq_refl) as (_ & _ & H3).
  split; [apply H1; reflexivity | split; [apply H2 | apply H3]; reflexivity].
Defined.

(** ** Holding tokens *)

Lemma bigInt64_in_range (x : Z) :
  - 2 ^ 63 <= x < 2 ^ 63 -> bigInt64 x = x.
Proof.
  intros Hx. unfold bigInt64.
  destruct (Z.ltb_spec x 0) as [Hneg|Hpos].
  - rewrite Z.abs_neq by lia. rewrite Z.mod_small by lia.
    destruct (Z.eq_dec x (- 2 ^ 63)) as [->|Hne].
    + vm_compute. reflexivity.
    + rewrite (int64_small (- x)) by lia.
      rewrite Z.opp_involutive. unfold int64.
      rewrite Z.mod_small; lia.
  - rewrite Z.abs_eq by lia. rewrite Z.mod_small by lia.
    apply int64_small. lia.
Qed.

(** Within the int64 range the answer is the comparison with 100. *)
Lemma botHoldsTokens_in_range (c : Coin) (held : Z) :
  tokensHeld c = Some held -> - 2 ^ 63 <= held < 2 ^ 63 ->
  botHoldsTokens c = (100 <? held).
Proof.
  intros Hc Hr. unfold botHoldsTokens. rewrite Hc.
  cbv zeta. rewrite bigInt64_in_range by assumption. reflexivity.
Qed.

Lemma botHoldsTokens_nil (c : Coin) :
  tokensHeld c = None -> botHoldsTokens c = false.
Proof. intros Hc. unfold botHoldsTokens. rewrite Hc. reflexivity. Qed.

(** C9.  [botHoldsTokens] should be true exactly when [tokensHeld] is
    not nil and its integer value exceeds 100.  The value is read
    through [Int64]: a coin holding 2^63 token units, far above 100, is
    read as -2^63 and reported as not held, so both scans of
    [fetchCoinsToSell] treat it as a coin without tokens. *)
Theorem botHoldsTokens_int64_overflow :
  tokensHeld (heldCoin (2 ^ 63)) = Some (2 ^ 63) /\
  100 < 2 ^ 63 /\
  bigInt64 (2 ^ 63) = - 2 ^ 63 /\
  botHoldsTokens (heldCoin (2 ^ 63)) = false /\
  fst (fetchCoinsToSell {[ "MintAddress"%string := Some (heldCoin (2 ^ 63)) ]}) = [] /\
  snd (fetchCoinsToSell {[ "MintAddress"%string := Some (heldCoin (2 ^ 63)) ]}) = ∅.
Proof.
  repeat split; try (vm_compute; congruence).
Qed.

(** Such a holding can come out of a purchase: on a curve whose token
    reserves fill the 64 bits, the quote of 0.05 SOL at 98% is above
    2^63, and the coin that holds it is reported as not held. *)
Lemma botHoldsTokens_overflow_from_quote :
  let bc := {| RealTokenReserves := 0;
               VirtualTokenReserves := 2 ^ 64 - 1;
               VirtualSolReserves := 1 |} in
  calculateBuyQuote 50000000 bc (Float64.lit 98 100)
  = Some 18077808830679183642 /\
  2 ^ 63 <= 18077808830679183642 /\
  botHoldsTokens (heldCoin 18077808830679183642) = false.
Proof.
  repeat split; try (vm_compute; congruence).
Qed.

(** ** The disposal scan *)

Lemma scanCoin_selection (acc : list Coin * gmap string (option Coin))
    (entry : string * option Coin) (x : Coin) :
  x ∈ fst (scanCoin acc entry) <->
  x ∈ fst acc \/ (snd entry = Some x /\ selectedForSale x = true).
Proof.
  destruct acc as [sell pending], entry as [mint [coin|]]; simpl.
  - fold (selectedForSale coin).
    destruct (selectedForSale coin) eqn:Hsel; simpl.
    + rewrite elem_of_app, list_elem_of_singleton. split.
      * intros [H| ->]; [left; assumption | right; split; [reflexivity | assumption]].
      * intros [H|[H _]]; [left; assumption | right; congruence].
    + split; [intros H; left; assumption|].
      intros [H|[H Hx]]; [assumption|].
      injection H as ->. congruence.
  - split; [intros H; left; assumption|].
    intros [H|[H _]]; [assumption | discriminate].
Qed.

Lemma foldl_scanCoin_selection (entries : list (string * option Coin)) :
  forall (acc : list Coin * gmap string (option Coin)) (x : Coin),
    x ∈ fst (foldl scanCoin acc entries) <->
    x ∈ fst acc \/
    (exists mint, (mint, Some x) ∈ entries /\ selectedForSale x = true).
Proof.
  induction entries as [|entry entries IH]; intros acc x; simpl.
  - split; [intros H; left; assumption|].
    intros [H|(mint & H & _)]; [assumption|].
    apply elem_of_nil in H. contradiction.
  - rewrite IH, scanCoin_selection. split.
    + intros [[H|[He Hsel]]|(mint & Hin & Hsel)].
      * left; assumption.
      * right. exists (fst entry). split; [|assumption].
        destruct entry as [mint ptr]; simpl in *; subst.
        apply elem_of_cons; left; reflexivity.
      * right. exists mint. split; [|assumption].
        apply elem_of_cons; right; assumption.
    + intros [H|(mint & Hin & Hsel)].
      * left; left; assumption.
      * apply elem_of_cons in Hin as [<-|Hin].
        -- left; right. split; [reflexivity | assumption].
        -- right. exists mint. split; assumption.
Qed.

(** The coins [fetchCoinsToSell] returns are the registered coins that
    hold tokens, whose creator sold, and that are not being sold. *)
Lemma fetchCoinsToSell_selection (pendingCoins : gmap string (option Coin))
    (x : Coin) :
  x ∈ fst (fetchCoinsToSell pendingCoins) <->
  exists mint, pendingCoins !! mint = Some (Some x) /\
    botHoldsTokens x = true /\ creatorSold x = true /\ isSellingCoin x = false.
Proof.
  unfold fetchCoinsToSell. rewrite foldl_scanCoin_selection. simpl.
  unfold selectedForSale. split.
  - intros [H|(mint & Hin & Hsel)]; [apply elem_of_nil in H; contradiction|].
    exists mint. apply elem_of_map_to_list in Hin.
    apply andb_true_iff in Hsel as [Hsel Hnot].
    apply andb_true_iff in Hsel as [Hheld Hsold].
    apply negb_true_iff in Hnot. auto.
  - intros (mint & Hin & Hheld & Hsold & Hnot). right. exists mint.
    split; [apply elem_of_map_to_list; assumption|].
    rewrite Hheld, Hsold, Hnot. reflexivity.
Qed.

Lemma scanCoin_registry (acc : list Coin * gmap string (option Coin))
    (entry : string * option Coin) (k : string) :
  snd (scanCoin acc entry) !! k =
  match entry with
  | (mint, Some coin) =>
      if deletedByScan coin && bool_decide (mint = k) then None
      else snd acc !! k
  | _ => snd acc !! k
  end.
Proof.
  destruct acc as [sell pending], entry as [mint [coin|]]; simpl;
    [|reflexivity].
  unfold deletedByScan.
  destruct (exitedBuyCoin coin && negb (botHoldsTokens coin)),
           (exitedSellCoin coin && exitedCreatorListener coin); simpl;
    try (case_bool_decide as Hk;
         [subst; rewrite ?lookup_delete_eq; reflexivity
         |rewrite ?lookup_delete_ne by assumption; reflexivity]).
  reflexivity.
Qed.

Lemma foldl_scanCoin_registry (entries : list (string * option Coin)) :
  forall (acc : list Coin * gmap string (option Coin)) (k : string),
    snd (foldl scanCoin acc entries) !! k =
    if existsb (fun entry =>
                  match entry with
                  | (mint, Some coin) => deletedByScan coin && bool_decide (mint = k)
                  | _ => false
                  end) entries
    then None else snd acc !! k.
Proof.
  induction entries as [|entry entries IH]; intros acc k; simpl;
    [reflexivity|].
  rewrite IH, scanCoin_registry.
  destruct entry as [mint [coin|]]; simpl; [|reflexivity].
  destruct (deletedByScan coin && bool_decide (mint = k)); simpl;
    [|reflexivity].
  destruct (existsb _ entries); reflexivity.
Qed.

(** The registry [fetchCoinsToSell] leaves: an entry goes when its coin
    has left [BuyCoin] without holding tokens, or has left both the
    sale and the creator listener; every other entry stays. *)
Lemma fetchCoinsToSell_registry (pendingCoins : gmap string (option Coin))
    (k : string) :
  snd (fetchCoinsToSell pendingCoins) !! k =
  match pendingCoins !! k with
  | Some (Some coin) => if deletedByScan coin then None else Some (Some coin)
  | other => other
  end.
Proof.
  unfold fetchCoinsToSell. rewrite foldl_scanCoin_registry. simpl.
  destruct (existsb _ (map_to_list pendingCoins)) eqn:Hex.
  - apply existsb_exists in Hex as ([mint [coin|]] & Hin & Htest);
      [|discriminate].
    apply andb_true_iff in Htest as [Hdel Hk].
    apply bool_decide_eq_true in Hk as ->.
    apply list_elem_of_In, elem_of_map_to_list in Hin.
    rewrite Hin, Hdel. reflexivity.
  - destruct (pendingCoins !! k) as [[coin|]|] eqn:Hk; try reflexivity.
    destruct (deletedByScan coin) eqn:Hdel; [|reflexivity].
    exfalso.
    assert (Hnone : existsb
              (fun entry : string * option Coin =>
                 match entry with
                 | (mint, Some coin) => deletedByScan coin && bool_decide (mint = k)
                 | _ => false
                 end) (map_to_list pendingCoins) = true); [|congruence].
    apply existsb_exists. exists (k, Some coin). split.
    + apply list_elem_of_In, elem_of_map_to_list. assumption.
    + rewrite Hdel. simpl. apply bool_decide_eq_true. reflexivity.
Qed.

(** A coin with no tokens, or with at most 100 units (within the int64
    range), is not held for either scan: it is not selected for sale,
    and once [BuyCoin] has exited it leaves the registry. *)
Lemma fetchCoinsToSell_small_holding (pendingCoins : gmap string (option Coin))
    (k : string) (coin : Coin) :
  pendingCoins !! k = Some (Some coin) ->
  (tokensHeld coin = None \/
   exists held, tokensHeld coin = Some held /\ - 2 ^ 63 <= held <= 100) ->
  ~ coin ∈ fst (fetchCoinsToSell pendingCoins) /\
  (exitedBuyCoin coin = true -> snd (fetchCoinsToSell pendingCoins) !! k = None).
Proof.
  intros Hk Hsmall.
  assert (Hnot : botHoldsTokens coin = false).
  { destruct Hsmall as [Hnil|(held & Hheld & Hr)].
    - apply botHoldsTokens_nil. assumption.
    - rewrite (botHoldsTokens_in_range coin held) by (assumption || lia).
      apply Z.ltb_ge. lia. }
  split.
  - intros Hin. apply fetchCoinsToSell_selection in Hin as (_ & _ & Hheld & _).
    congruence.
  - intros Hexit. rewrite fetchCoinsToSell_registry, Hk.
    unfold deletedByScan. rewrite Hexit, Hnot. reflexivity.
Qed.

Lemma fetchCoinsToSell_small_holding_example :
  ~ BuyCoinWrites (coinWithPurchase one64) (Some 50000000) (Some 100)
    ∈ fst (fetchCoinsToSell
             {[ "MintAddress"%string :=
                  Some (BuyCoinWrites (coinWithPurchase one64)
                          (Some 50000000) (Some 100)) ]}) /\
  snd (fetchCoinsToSell
         {[ "MintAddress"%string :=
              Some (BuyCoinWrites (coinWithPurchase one64)
                      (Some 50000000) (Some 100)) ]})
    !! "MintAddress"%string = None.
Proof.
  destruct (fetchCoinsToSell_small_holding
              {[ "MintAddress"%string :=
                   Some (BuyCoinWrites (coinWithPurchase one64)
                           (Some 50000000) (Some 100)) ]}
              "MintAddress"%string
              (BuyCoinWrites (coinWithPurchase one64) (Some 50000000) (Some 100)))
    as [Hsel Hdel].
  - apply lookup_singleton_eq.
  - right. exists 100. split; [reflexivity | lia].
  - split; [exact Hsel | apply Hdel; reflexivity].
Defined.

(** No write of any component clears [isSellingCoin]. *)
Lemma coinStep_keeps_isSellingCoin (c c' : Coin) :
  coinStep c c' -> isSellingCoin c = true -> isSellingCoin c' = true.
Proof.
  intros Hstep Hsell. destruct Hstep; simpl; try assumption.
  - destruct price, purchase; simpl; assumption.
  - destruct resultArrives; reflexivity.
Qed.

Lemma rtc_coinStep_keeps_isSellingCoin (c c' : Coin) :
  rtc coinStep c c' -> isSellingCoin c = true -> isSellingCoin c' = true.
Proof.
  induction 1 as [|c c1 c2 Hstep _ IH]; intros Hsell; [assumption|].
  apply IH. eapply coinStep_keeps_isSellingCoin; eassumption.
Qed.

(** C5, as stated, fails: a coin holding 1000 units whose creator sold
    goes through a disposal race in which nothing is confirmed before
    the deadline (the race stays blocked, or a late confirmation ends
    it); the coin is still held and flagged, and the next scan does not
    select it. *)
Lemma fetchCoinsToSell_no_second_selection :
  let blocked := SellCoinFast (heldCoin 1000) false in
  let ended := SellCoinFast (heldCoin 1000) true in
  (botHoldsTokens blocked = true /\ creatorSold blocked = true /\
   ~ blocked ∈ fst (fetchCoinsToSell {[ "MintAddress"%string := Some blocked ]})) /\
  (botHoldsTokens ended = true /\ creatorSold ended = true /\
   ~ ended ∈ fst (fetchCoinsToSell {[ "MintAddress"%string := Some ended ]})).
Proof.
  repeat split; try (vm_compute; congruence);
    intros Hin; vm_compute in Hin; inversion Hin.
Qed.

(** C5, amended.  Once a disposal race has started on a coin, whether
    or not a sale is ever confirmed, no later scan selects that coin
    again, whatever the components write to it in between and whatever
    the registry holds: [SellCoinFast] sets [isSellingCoin], nothing
    clears it, and the scan selects only coins not being sold. *)
Theorem fetchCoinsToSell_never_reselects (c c' : Coin) (resultArrives : bool)
    (pendingCoins : gmap string (option Coin)) :
  rtc coinStep (SellCoinFast c resultArrives) c' ->
  ~ c' ∈ fst (fetchCoinsToSell pendingCoins).
Proof.
  intros Hreach Hin.
  apply fetchCoinsToSell_selection in Hin as (mint & _ & _ & _ & Hnot).
  assert (Hsell : isSellingCoin c' = true).
  { eapply rtc_coinStep_keeps_isSellingCoin; [eassumption|].
    destruct resultArrives; reflexivity. }
  congruence.
Qed.

Lemma fetchCoinsToSell_never_reselects_witness :
  ~ setExitedCreatorListenerTrue (SellCoinFast (heldCoin 1000) false)
    ∈ fst (fetchCoinsToSell
             {[ "MintAddress"%string :=
                  Some (setExitedCreatorListenerTrue
                          (SellCoinFast (heldCoin 1000) false)) ]}).
Proof.
  apply (fetchCoinsToSell_never_reselects (heldCoin 1000) _ false).
  apply rtc_once. apply step_listenerExit.
Defined.

(** ** Routing to the Jito leader *)

(** C8, as stated, fails in its second half: the vote-account read has
    no presence test, a leader without vote account is looked up under
    the empty identity, and when the set holds that identity the answer
    is true although the leader resolves to no voting identity. *)
Lemma isJitoLeader_unresolved_leader :
  ~ (forall j : JitoManager,
       isJitoLeader j = true ->
       exists validator vote,
         slotLeader j !! slotIndex j = Some validator /\
         voteAccounts j !! validator = Some vote /\
         jitoValidators j !! vote = Some true).
Proof.
  intros H.
  destruct (H managerWithUnnamedValidator) as (validator & vote & Hl & Hv & _).
  - vm_compute. reflexivity.
  - vm_compute in Hl. injection Hl as <-.
    vm_compute in Hv. discriminate.
Qed.

(** C8, amended.  [isJitoLeader] is false whenever the current slot has
    no entry in the slot-to-leader map, whatever the other maps hold;
    it is true only when the slot has a leader and the Jito set marks
    the vote identity read for that leader, the empty identity standing
    for a leader without vote account; so, when the set does not mark
    the empty identity, true means that the whole chain resolves. *)
Theorem isJitoLeader_chain (j : JitoManager) :
  (slotLeader j !! slotIndex j = None -> isJitoLeader j = false) /\
  (isJitoLeader j = true ->
     exists validator,
       slotLeader j !! slotIndex j = Some validator /\
       jitoValidators j !! goLookupString (voteAccounts j) validator = Some true) /\
  (isJitoLeader j = true ->
     jitoValidators j !! EmptyString <> Some true ->
     exists validator vote,
       slotLeader j !! slotIndex j = Some validator /\
       voteAccounts j !! validator = Some vote /\
       jitoValidators j !! vote = Some true).
Proof.
  assert (Hchain : isJitoLeader j = true ->
            exists validator,
              slotLeader j !! slotIndex j = Some validator /\
              jitoValidators j !! goLookupString (voteAccounts j) validator
              = Some true).
  { unfold isJitoLeader, goLookupBool.
    destruct (slotLeader j !! slotIndex j) as [validator|]; [|discriminate].
    intros H. exists validator. split; [reflexivity|].
    destruct (jitoValidators j !! goLookupString (voteAccounts j) validator)
      as [[|]|]; simpl in H; congruence. }
  repeat split.
  - intros Hnone. unfold isJitoLeader. rewrite Hnone. reflexivity.
  - exact Hchain.
  - intros Htrue Hempty.
    destruct (Hchain Htrue) as (validator & Hl & Hj).
    unfold goLookupString in Hj.
    destruct (voteAccounts j !! validator) as [vote|] eqn:Hv; simpl in Hj.
    + exists validator, vote. auto.
    + contradiction.
Qed.

Lemma isJitoLeader_chain_witness :
  isJitoLeader managerWithoutLeader = false /\
  exists validator vote,
    slotLeader managerWithJitoLeader !! slotIndex managerWithJitoLeader
    = Some validator /\
    voteAccounts managerWithJitoLeader !! validator = Some vote /\
    jitoValidators managerWithJitoLeader !! vote = Some true.
Proof.
  split.
  - apply (isJitoLeader_chain managerWithoutLeader). vm_compute. reflexivity.
  - apply (isJitoLeader_chain managerWithJitoLeader).
    + vm_compute. reflexivity.
    + vm_compute. discriminate.
Defined.

(** ** Rounding to float64 *)

(** The operations of [SpecFloat] at precision 53 round to nearest,
    ties to even.  The lemmas below state this in integers, for the
    positive normal numbers the bot computes with: the result
    [m * 2^e] has a mantissa of 53 bits and lies within half a unit of
    its last place of the exact result. *)

(** The number of binary digits of a positive number. *)
Lemma digits2_pos_bounds (p : positive) :
  2 ^ (Z.pos (digits2_pos p) - 1) <= Z.pos p < 2 ^ Z.pos (digits2_pos p).
Proof.
  induction p as [p IH|p IH|]; simpl digits2_pos.
  - rewrite Pos2Z.inj_succ. change (Z.pos p~1) with (2 * Z.pos p + 1).
    replace (Z.succ (Z.pos (digits2_pos p)) - 1) with (Z.succ (Z.pos (digits2_pos p) - 1)) by lia.
    rewrite !Z.pow_succ_r by lia.
    generalize dependent (2 ^ (Z.pos (digits2_pos p) - 1)).
    generalize (2 ^ Z.pos (digits2_pos p)). intros; lia.
  - rewrite Pos2Z.inj_succ. change (Z.pos p~0) with (2 * Z.pos p).
    replace (Z.succ (Z.pos (digits2_pos p)) - 1) with (Z.succ (Z.pos (digits2_pos p) - 1)) by lia.
    rewrite !Z.pow_succ_r by lia.
    generalize dependent (2 ^ (Z.pos (digits2_pos p) - 1)).
    generalize (2 ^ Z.pos (digits2_pos p)). intros; lia.
  - simpl. lia.
Qed.

Lemma Zdigits2_bounds (m : Z) :
  0 < m -> 2 ^ (Zdigits2 m - 1) <= m < 2 ^ Zdigits2 m.
Proof.
  destruct m as [|p|p]; try lia. intros _. apply digits2_pos_bounds.
Qed.

Lemma Zdigits2_unique (m d : Z) :
  2 ^ (d - 1) <= m < 2 ^ d -> 0 < m -> Zdigits2 m = d.
Proof.
  intros Hd Hm. pose proof (Zdigits2_bounds m Hm) as Hb.
  assert (Hpos : 0 < Zdigits2 m) by (destruct m; simpl; lia).
  assert (Hdpos : 0 < d).
  { destruct (Z_lt_le_dec 0 d) as [|Hle]; [assumption|].
    exfalso. assert (2 ^ d <= 1); [|lia].
    destruct (Z.eq_dec d 0) as [->|]; [simpl; lia|].
    rewrite Z.pow_neg_r by lia. lia. }
  destruct (Z.lt_trichotomy (Zdigits2 m) d) as [Hlt|[Heq|Hgt]]; [|assumption|].
  - exfalso. assert (2 ^ Zdigits2 m <= 2 ^ (d - 1)) by (apply Z.pow_le_mono_r; lia). lia.
  - exfalso. assert (2 ^ d <= 2 ^ (Zdigits2 m - 1)) by (apply Z.pow_le_mono_r; lia). lia.
Qed.

Ltac shr_simpl :=
  cbn [shr_m shr_r shr_s Z.b2z negb orb shr_1 loc_of_shr_record
       shr_record_of_loc round_nearest_even] in *.

(** A record that locates [p / q] holds the integer part of [p / q]. *)
Lemma locates_floor (mrs : shr_record) (p q : Z) :
  locates mrs p q -> shr_m mrs * q <= p < (shr_m mrs + 1) * q.
Proof.
  destruct mrs as [m r s]. intros (t & H1 & H2 & _). shr_simpl.
  destruct r; shr_simpl; nia.
Qed.

(** One shift to the right halves the unit: the record then locates
    [p / (2 q)]. *)
Lemma shr_1_locates (mrs : shr_record) (p q : Z) :
  0 <= shr_m mrs -> 0 < q -> locates mrs p q ->
  locates (shr_1 mrs) p (2 * q) /\ 0 <= shr_m (shr_1 mrs).
Proof.
  destruct mrs as [m r s]. intros Hm Hq (t & H1 & H2 & H3). shr_simpl.
  assert (Hs : orb r s = negb (Z.b2z r * q + t =? 0)).
  { subst s. destruct r; shr_simpl.
    - destruct (Z.eqb_spec (1 * q + t) 0); [lia|reflexivity].
    - reflexivity. }
  assert (Ht : 0 <= Z.b2z r * q + t < 2 * q) by (destruct r; shr_simpl; lia).
  destruct m as [|[pp|pp|]|pp]; try lia; shr_simpl; (split; [|lia]);
    exists (Z.b2z r * q + t); shr_simpl;
    (split; [|split; [exact Ht | exact Hs]]).
  - lia.
  - change (Z.pos pp~1) with (2 * Z.pos pp + 1) in H1. lia.
  - change (Z.pos pp~0) with (2 * Z.pos pp) in H1. lia.
  - lia.
Qed.

Lemma iter_pos_shr_1_locates (p : Z) (n : positive) :
  forall mrs q,
    0 <= shr_m mrs -> 0 < q -> locates mrs p q ->
    locates (SpecFloat.iter_pos shr_1 n mrs) p (q * 2 ^ Z.pos n) /\
    0 <= shr_m (SpecFloat.iter_pos shr_1 n mrs).
Proof.
  induction n as [n IH|n IH|]; intros mrs q Hm Hq Hl; cbn [SpecFloat.iter_pos].
  - destruct (shr_1_locates mrs p q Hm Hq Hl) as [H1 H1'].
    destruct (IH _ (2 * q) H1' ltac:(lia) H1) as [H2 H2'].
    assert (Hq2 : 0 < 2 * q * 2 ^ Z.pos n) by (apply Z.mul_pos_pos; [lia|apply Z.pow_pos_nonneg; lia]).
    destruct (IH _ _ H2' Hq2 H2) as [H3 H3'].
    split; [|assumption].
    replace (q * 2 ^ Z.pos n~1) with (2 * q * 2 ^ Z.pos n * 2 ^ Z.pos n); [assumption|].
    rewrite (Pos2Z.inj_xI n).
    replace (2 * Z.pos n + 1) with (Z.pos n + Z.pos n + 1) by lia.
    rewrite !Z.pow_add_r by lia. change (2 ^ 1) with 2. ring.
  - destruct (IH _ q Hm Hq Hl) as [H2 H2'].
    assert (Hq2 : 0 < q * 2 ^ Z.pos n) by (apply Z.mul_pos_pos; [lia|apply Z.pow_pos_nonneg; lia]).
    destruct (IH _ _ H2' Hq2 H2) as [H3 H3'].
    split; [|assumption].
    replace (q * 2 ^ Z.pos n~0) with (q * 2 ^ Z.pos n * 2 ^ Z.pos n); [assumption|].
    rewrite (Pos2Z.inj_xO n).
    replace (2 * Z.pos n) with (Z.pos n + Z.pos n) by lia.
    rewrite !Z.pow_add_r by lia. ring.
  - destruct (shr_1_locates mrs p q Hm Hq Hl) as [H1 H1'].
    split; [|assumption]. change (2 ^ 1) with 2.
    replace (q * 2) with (2 * q) by ring. assumption.
Qed.

(** Rounding the located number gives an integer within one half of
    it. *)
Lemma round_nearest_even_locates (mrs : shr_record) (p q : Z) :
  locates mrs p q ->
  shr_m mrs <= round_nearest_even (shr_m mrs) (loc_of_shr_record mrs)
            <= shr_m mrs + 1 /\
  2 * Z.abs (round_nearest_even (shr_m mrs) (loc_of_shr_record mrs) * q - p) <= q.
Proof.
  destruct mrs as [m r s]. intros (t & H1 & H2 & H3). shr_simpl.
  destruct r, s; shr_simpl.
  - destruct (Z.eqb_spec t 0); [discriminate|]. split; nia.
  - destruct (Z.eqb_spec t 0); [|discriminate].
    destruct (Z.even m); split; nia.
  - destruct (Z.eqb_spec t 0); [discriminate|]. split; nia.
  - destruct (Z.eqb_spec t 0); [|discriminate]. split; nia.
Qed.

Lemma shr_record_of_loc_m (m : Z) (l : location) :
  shr_m (shr_record_of_loc m l) = m.
Proof. destruct l as [|[| |]]; reflexivity. Qed.

Lemma locates_exact (m : Z) :
  locates (shr_record_of_loc m loc_Exact) m 1.
Proof. exists 0. shr_simpl. repeat split; lia. Qed.

(** The first shift of [binary_round_aux] brings a mantissa of at least
    53 bits down to 53 bits and keeps track of what it drops. *)
Lemma shr_fexp_spec (m e : Z) (l : location) (p q : Z) :
  0 < m -> 0 < q ->
  locates (shr_record_of_loc m l) p q ->
  53 <= Zdigits2 m -> -1074 <= Zdigits2 m + e - 53 ->
  exists mrs,
    shr_fexp 53 1024 m e l = (mrs, e + (Zdigits2 m - 53)) /\
    locates mrs p (q * 2 ^ (Zdigits2 m - 53)) /\
    2 ^ 52 <= shr_m mrs < 2 ^ 53.
Proof.
  intros Hm Hq Hl Hd He.
  pose proof (Zdigits2_bounds m Hm) as Hb.
  pose proof (locates_floor _ _ _ Hl) as Hfl.
  rewrite shr_record_of_loc_m in Hfl.
  unfold shr_fexp, fexp, emin.
  replace (Z.max (Zdigits2 m + e - 53) (3 - 1024 - 53) - e)
    with (Zdigits2 m - 53) by lia.
  set (d := Zdigits2 m) in *.
  assert (Hpow : 2 ^ d = 2 ^ 53 * 2 ^ (d - 53)).
  { rewrite <- Z.pow_add_r by lia. f_equal. lia. }
  assert (Hpow' : 2 ^ (d - 1) = 2 ^ 52 * 2 ^ (d - 53)).
  { rewrite <- Z.pow_add_r by lia. f_equal. lia. }
  assert (Hn : 0 < 2 ^ (d - 53)) by (apply Z.pow_pos_nonneg; lia).
  assert (Hbounds : forall mrs,
            locates mrs p (q * 2 ^ (d - 53)) -> 2 ^ 52 <= shr_m mrs < 2 ^ 53).
  { intros mrs Hl'. apply locates_floor in Hl'.
    set (m1 := shr_m mrs) in *. set (P := 2 ^ (d - 53)) in *.
    rewrite Hpow in Hb. rewrite Hpow' in Hb.
    set (A := 2 ^ 52) in *. set (B := 2 ^ 53) in *.
    assert (HAB : B = 2 * A) by reflexivity.
    assert (H1 : m1 * P < m + 1) by nia.
    assert (H2 : m < (m1 + 1) * P) by nia.
    split; nia. }
  destruct (d - 53) as [|n|n] eqn:Hdn; try lia.
  - exists (shr_record_of_loc m l). cbn [shr].
    split; [f_equal; lia|].
    assert (Hl1 : locates (shr_record_of_loc m l) p (q * 2 ^ 0))
      by (change (2 ^ 0) with 1; rewrite Z.mul_1_r; exact Hl).
    split; [exact Hl1 | apply Hbounds; exact Hl1].
  - cbn [shr].
    destruct (iter_pos_shr_1_locates p n (shr_record_of_loc m l) q) as [Hl1 _];
      [rewrite shr_record_of_loc_m; lia | assumption | assumption |].
    exists (SpecFloat.iter_pos shr_1 n (shr_record_of_loc m l)).
    split; [reflexivity|]. split; [exact Hl1 | apply Hbounds; exact Hl1].
Qed.

(** [binary_round_aux] on a mantissa [m] of at least 53 bits that
    stands, with its location, for [p / q]: the result is a normal
    number [m' * 2^e'] within half a unit of the last place of
    [(p / q) * 2^e]. *)
Lemma binary_round_aux_spec (s : bool) (m e : Z) (l : location) (p q : Z) :
  0 < m -> 0 < q ->
  locates (shr_record_of_loc m l) p q ->
  53 <= Zdigits2 m -> -1074 <= Zdigits2 m + e - 53 -> Zdigits2 m + e <= 1023 ->
  exists (m' : positive) (e' : Z),
    binary_round_aux 53 1024 s m e l = S754_finite s m' e' /\
    2 ^ 52 <= Z.pos m' < 2 ^ 53 /\
    (e' = e + (Zdigits2 m - 53) \/ e' = e + (Zdigits2 m - 53) + 1) /\
    2 * Z.abs (Z.pos m' * 2 ^ (e' - e) * q - p) <= q * 2 ^ (Zdigits2 m - 53).
Proof.
  intros Hm Hq Hl Hd He Hmax.
  destruct (shr_fexp_spec m e l p q Hm Hq Hl Hd He) as (mrs & Hshr & Hl1 & Hm1).
  unfold binary_round_aux. rewrite Hshr.
  set (n := Zdigits2 m - 53) in *.
  assert (Hn : 0 < 2 ^ n) by (apply Z.pow_pos_nonneg; lia).
  destruct (round_nearest_even_locates _ _ _ Hl1) as [Hr Hnear].
  set (m2 := round_nearest_even (shr_m mrs) (loc_of_shr_record mrs)) in *.
  assert (Hm2 : 0 < m2) by lia.
  destruct (Z_lt_le_dec m2 (2 ^ 53)) as [Hlt|Hge].
  - assert (Hd2 : Zdigits2 m2 = 53) by (apply Zdigits2_unique; [simpl; lia|lia]).
    destruct (shr_fexp_spec m2 (e + n) loc_Exact m2 1 Hm2 ltac:(lia)
                (locates_exact m2) ltac:(lia) ltac:(lia))
      as (mrs2 & Hshr2 & Hl2 & _).
    rewrite Hshr2. rewrite Hd2 in *.
    change (53 - 53) with 0 in *. change (1 * 2 ^ 0) with 1 in Hl2.
    apply locates_floor in Hl2.
    assert (Hm3 : shr_m mrs2 = m2) by lia. rewrite Hm3.
    destruct m2 as [|m3|m3] eqn:Hm2e; try lia.
    replace (e + n + 0 <=? 1024 - 53) with true
      by (symmetry; apply Z.leb_le; lia).
    exists m3, (e + n). split; [f_equal; lia|].
    split; [lia|]. split; [left; reflexivity|].
    replace (e + n - e) with n by lia.
    replace (Z.pos m3 * 2 ^ n * q) with (Z.pos m3 * (q * 2 ^ n)) by ring.
    exact Hnear.
  - assert (Hm2e : m2 = 2 ^ 53) by lia.
    assert (Hd2 : Zdigits2 m2 = 54) by (rewrite Hm2e; reflexivity).
    destruct (shr_fexp_spec m2 (e + n) loc_Exact m2 1 Hm2 ltac:(lia)
                (locates_exact m2) ltac:(lia) ltac:(lia))
      as (mrs2 & Hshr2 & Hl2 & _).
    rewrite Hshr2. rewrite Hd2 in *.
    change (54 - 53) with 1 in *. change (1 * 2 ^ 1) with 2 in Hl2.
    apply locates_floor in Hl2.
    assert (Hm3 : shr_m mrs2 = 2 ^ 52).
    { rewrite Hm2e in Hl2. change (2 ^ 53) with (2 ^ 52 * 2) in Hl2. lia. }
    rewrite Hm3. change (2 ^ 52) with (Z.pos (2 ^ 52)).
    replace (e + n + 1 <=? 1024 - 53) with true
      by (symmetry; apply Z.leb_le; lia).
    exists (2 ^ 52)%positive, (e + n + 1). split; [reflexivity|].
    split; [simpl; lia|]. split; [right; reflexivity|].
    replace (e + n + 1 - e) with (n + 1) by lia.
    rewrite Z.pow_add_r by lia. change (2 ^ 1) with 2.
    replace (Z.pos (2 ^ 52) * (2 ^ n * 2) * q) with (m2 * (q * 2 ^ n));
      [exact Hnear|].
    rewrite Hm2e. change (2 ^ 53) with (Z.pos (2 ^ 52) * 2). ring.
Qed.

Lemma Pos_iter_xO (m k : positive) :
  Z.pos (Pos.iter xO m k) = Z.pos m * 2 ^ Z.pos k.
Proof.
  induction k as [|k IH] using Pos.peano_ind.
  - change (Pos.iter xO m 1) with (m~0)%positive. change (2 ^ 1) with 2. lia.
  - rewrite Pos.iter_succ. rewrite Pos2Z.inj_succ, Z.pow_succ_r by lia.
    change (Z.pos (Pos.iter xO m k)~0) with (2 * Z.pos (Pos.iter xO m k)).
    rewrite IH. ring.
Qed.

(** [float64(n)] for a positive integer: exact below [2^53], within
    half a unit of the last place above. *)
Lemma of_Z_spec (n : Z) :
  0 < n -> Zdigits2 n <= 1023 ->
  exists (m : positive) (e : Z),
    Float64.of_Z n = S754_finite false m e /\
    2 ^ 52 <= Z.pos m < 2 ^ 53 /\
    (Zdigits2 n <= 53 ->
     e = Zdigits2 n - 53 /\ Z.pos m = n * 2 ^ (53 - Zdigits2 n)) /\
    (53 < Zdigits2 n ->
     (e = Zdigits2 n - 53 \/ e = Zdigits2 n - 52) /\
     2 * Z.abs (Z.pos m * 2 ^ e - n) <= 2 ^ (Zdigits2 n - 53)).
Proof.
  intros Hn Hmax. destruct n as [|mx|mx]; try lia.
  pose proof (Zdigits2_bounds (Z.pos mx) Hn) as Hb.
  unfold Float64.of_Z, binary_normalize, binary_round, shl_align, fexp, emin.
  change (Z.pos (digits2_pos mx)) with (Zdigits2 (Z.pos mx)).
  set (d := Zdigits2 (Z.pos mx)) in *.
  assert (Hd : 0 < d) by (unfold d; simpl; lia).
  replace (Z.max (d + 0 - Float64.prec) (3 - Float64.emax - Float64.prec) - 0)
    with (d - 53) by (unfold Float64.prec, Float64.emax; lia).
  destruct (d - 53) as [|k|k] eqn:Hk.
  - (* exactly 53 digits *)
    assert (Hd53 : d = 53) by lia.
    destruct (binary_round_aux_spec false (Z.pos mx) 0 loc_Exact (Z.pos mx) 1)
      as (m & e & Heq & Hm & He & Hnear);
      [lia | lia | apply locates_exact | fold d; lia | fold d; lia | fold d; lia |].
    fold d in He, Hnear. rewrite Hd53 in He, Hnear.
    change (53 - 53) with 0 in *. change (2 ^ 0) with 1 in Hnear.
    rewrite Hd53 in Hb. change (53 - 1) with 52 in Hb.
    assert (He0 : e = 0).
    { destruct He as [He|He]; [lia|]. exfalso. subst e.
      change (2 ^ (0 + 0 + 1 - 0)) with 2 in Hnear. lia. }
    subst e. change (2 ^ (0 - 0)) with 1 in Hnear.
    exists m, 0. unfold Float64.prec, Float64.emax. rewrite Heq.
    split; [reflexivity|]. split; [assumption|]. split; [|lia].
    intros _. split; [lia|]. replace (53 - d) with 0 by lia.
    change (2 ^ 0) with 1. lia.
  - (* more than 53 digits: the conversion rounds *)
    destruct (binary_round_aux_spec false (Z.pos mx) 0 loc_Exact (Z.pos mx) 1)
      as (m & e & Heq & Hm & He & Hnear);
      [lia | lia | apply locates_exact | fold d; lia | fold d; lia | fold d; lia |].
    fold d in He, Hnear.
    exists m, e. unfold Float64.prec, Float64.emax. rewrite Heq.
    split; [reflexivity|]. split; [assumption|]. split; [lia|].
    intros _. split; [lia|].
    rewrite <- Hk. replace (e - 0) with e in Hnear by lia. lia.
  - (* fewer than 53 digits: the mantissa is shifted up, exactly *)
    assert (Hdk : d = 53 - Z.pos k) by lia.
    assert (Hmz : Z.pos (Pos.iter xO mx k) = Z.pos mx * 2 ^ Z.pos k)
      by apply Pos_iter_xO.
    assert (Hp52 : 2 ^ 52 = 2 ^ (d - 1) * 2 ^ Z.pos k).
    { rewrite <- Z.pow_add_r by lia. f_equal. lia. }
    assert (Hp53 : 2 ^ 53 = 2 ^ d * 2 ^ Z.pos k).
    { rewrite <- Z.pow_add_r by lia. f_equal. lia. }
    assert (Hk0 : 0 < 2 ^ Z.pos k) by (apply Z.pow_pos_nonneg; lia).
    assert (Hmzb : 2 ^ 52 <= Z.pos (Pos.iter xO mx k) < 2 ^ 53).
    { rewrite Hmz, Hp52, Hp53. split; nia. }
    assert (Hdz : Zdigits2 (Z.pos (Pos.iter xO mx k)) = 53)
      by (apply Zdigits2_unique; [exact Hmzb | lia]).
    destruct (binary_round_aux_spec false (Z.pos (Pos.iter xO mx k))
                (Z.max (d + 0 - 53) (3 - 1024 - 53)) loc_Exact
                (Z.pos (Pos.iter xO mx k)) 1)
      as (m & e & Heq & Hm & He & Hnear);
      [lia | lia | apply locates_exact | rewrite Hdz; lia | rewrite Hdz; lia
       | rewrite Hdz; lia |].
    rewrite Hdz in He, Hnear. change (53 - 53) with 0 in *.
    change (2 ^ 0) with 1 in Hnear.
    set (e0 := Z.max (d + 0 - 53) (3 - 1024 - 53)) in *.
    assert (He0 : e = e0).
    { destruct He as [He|He]; [lia|]. exfalso. subst e.
      replace (e0 + 0 + 1 - e0) with 1 in Hnear by lia.
      change (2 ^ 1) with 2 in Hnear. lia. }
    subst e. replace (e0 - e0) with 0 in Hnear by lia.
    change (2 ^ 0) with 1 in Hnear.
    exists m, e0. unfold Float64.prec, Float64.emax. fold e0. rewrite Heq.
    split; [reflexivity|]. split; [assumption|]. split; [|lia].
    intros _. split; [unfold e0; lia|].
    replace (53 - d) with (Z.pos k) by lia. lia.
Qed.


(** The location [SFdiv] computes from the remainder of the division
    of the mantissas. *)
Lemma new_location_locates (m2 q0 r0 m' : Z) :
  0 < m2 -> 0 <= r0 < m2 -> m' = m2 * q0 + r0 ->
  locates (shr_record_of_loc q0 (new_location m2 r0)) m' m2.
Proof.
  intros Hm Hr ->.
  unfold new_location, new_location_even, new_location_odd.
  destruct (Z.even m2) eqn:Heven.
  - destruct (Z.eqb_spec r0 0) as [->|Hne].
    + exists 0. shr_simpl. repeat split; lia.
    + destruct (Z.compare_spec (2 * r0) m2) as [Heq|Hlt|Hgt]; shr_simpl.
      * exists 0. shr_simpl. repeat split; lia.
      * exists (2 * r0). shr_simpl.
        split; [lia|]. split; [lia|].
        destruct (Z.eqb_spec (2 * r0) 0); [lia|reflexivity].
      * exists (2 * r0 - m2). shr_simpl.
        split; [lia|]. split; [lia|].
        destruct (Z.eqb_spec (2 * r0 - m2) 0); [lia|reflexivity].
  - assert (Hodd : m2 mod 2 = 1).
    { rewrite Zmod_even, Heven. reflexivity. }
    destruct (Z.eqb_spec r0 0) as [->|Hne].
    + exists 0. shr_simpl. repeat split; lia.
    + destruct (Z.compare_spec (2 * r0 + 1) m2) as [Heq|Hlt|Hgt]; shr_simpl.
      * exists (2 * r0). shr_simpl.
        split; [lia|]. split; [lia|].
        destruct (Z.eqb_spec (2 * r0) 0); [lia|reflexivity].
      * exists (2 * r0). shr_simpl.
        split; [lia|]. split; [lia|].
        destruct (Z.eqb_spec (2 * r0) 0); [lia|reflexivity].
      * assert (2 * r0 <> m2) by (intros E; rewrite <- E in Hodd;
          rewrite Z.mul_comm, Z.mod_mul in Hodd; lia).
        exists (2 * r0 - m2). shr_simpl.
        split; [lia|]. split; [lia|].
        destruct (Z.eqb_spec (2 * r0 - m2) 0); [lia|reflexivity].
Qed.

(** The quotient of two positive normal numbers. *)
Lemma div_spec (mx my : positive) (ex ey : Z) :
  2 ^ 52 <= Z.pos mx < 2 ^ 53 -> 2 ^ 52 <= Z.pos my < 2 ^ 53 ->
  -1021 <= ex - ey <= 1021 ->
  exists (m : positive) (e i : Z),
    Float64.div (S754_finite false mx ex) (S754_finite false my ey)
    = S754_finite false m e /\
    2 ^ 52 <= Z.pos m < 2 ^ 53 /\
    (i = 0 \/ i = 1) /\
    (e = ex - ey - 53 + i \/ e = ex - ey - 52 + i) /\
    2 ^ (52 + i) * Z.pos my <= Z.pos mx * 2 ^ 53 /\
    2 * Z.abs (Z.pos m * 2 ^ (e - (ex - ey - 53)) * Z.pos my - Z.pos mx * 2 ^ 53)
    <= Z.pos my * 2 ^ i.
Proof.
  intros Hx Hy He.
  unfold Float64.div, SFdiv, SFdiv_core_binary, fexp, emin. cbn [xorb].
  rewrite (Zdigits2_unique (Z.pos mx) 53) by (change (53 - 1) with 52; lia).
  rewrite (Zdigits2_unique (Z.pos my) 53) by (change (53 - 1) with 52; lia).
  replace (Z.min (Z.max (53 + ex - (53 + ey) - Float64.prec)
                    (3 - Float64.emax - Float64.prec)) (ex - ey))
    with (ex - ey - 53) by (unfold Float64.prec, Float64.emax; lia).
  replace (ex - ey - (ex - ey - 53)) with 53 by lia.
  rewrite Z.shiftl_mul_pow2 by lia.
  pose proof (Z_div_mod (Z.pos mx * 2 ^ 53) (Z.pos my) ltac:(lia)) as Hdm.
  destruct (Z.div_eucl (Z.pos mx * 2 ^ 53) (Z.pos my)) as [q0 r0].
  destruct Hdm as [Hdm Hr].
  assert (Hq0 : 2 ^ 52 <= q0 < 2 ^ 54).
  { change (2 ^ 54) with (2 * 2 ^ 53).
    set (A := 2 ^ 52) in *. set (B := 2 ^ 53) in *.
    assert (HAB : B = 2 * A) by reflexivity. split; nia. }
  assert (Hd : Zdigits2 q0 = 53 \/ Zdigits2 q0 = 54).
  { destruct (Z_lt_le_dec q0 (2 ^ 53)).
    - left. apply Zdigits2_unique; [change (53 - 1) with 52|]; lia.
    - right. apply Zdigits2_unique; [change (54 - 1) with 53|]; lia. }
  pose proof (Zdigits2_bounds q0 ltac:(lia)) as Hb.
  destruct (binary_round_aux_spec false q0 (ex - ey - 53) (new_location (Z.pos my) r0)
              (Z.pos mx * 2 ^ 53) (Z.pos my))
    as (m & e & Heq & Hm & He' & Hnear);
    [lia | lia | apply new_location_locates; lia | lia | lia | lia |].
  exists m, e, (Zdigits2 q0 - 53).
  unfold Float64.prec, Float64.emax. rewrite Heq.
  set (d := Zdigits2 q0) in *.
  split; [reflexivity|]. split; [assumption|]. split; [lia|]. split; [lia|].
  split; [|exact Hnear].
  replace (52 + (d - 53)) with (d - 1) by lia. nia.
Qed.

(** The comparison of two positive finite numbers. *)
Lemma ltb_finite (m1 m2 : positive) (e1 e2 : Z) :
  Float64.ltb (S754_finite false m1 e1) (S754_finite false m2 e2)
  = (e1 <? e2) || ((e1 =? e2) && (Z.pos m1 <? Z.pos m2)).
Proof.
  unfold Float64.ltb, SFltb, SFcompare.
  destruct (Z.compare_spec e1 e2) as [->|Hlt|Hgt].
  - rewrite Z.ltb_irrefl, Z.eqb_refl. cbn [orb andb].
    change (Pos.compare_cont Eq m1 m2) with (Z.pos m1 ?= Z.pos m2).
    unfold Z.ltb. destruct (Z.pos m1 ?= Z.pos m2); reflexivity.
  - apply Z.ltb_lt in Hlt. rewrite Hlt. reflexivity.
  - replace (e1 <? e2) with false by (symmetry; apply Z.ltb_ge; lia).
    replace (e1 =? e2) with false by (symmetry; apply Z.eqb_neq; lia).
    reflexivity.
Qed.

Lemma of_Z_LAMPORTS_PER_SOL :
  Float64.of_Z LAMPORTS_PER_SOL = S754_finite false 8388608000000000 (-23).
Proof. vm_compute. reflexivity. Qed.

Lemma lit_5_100 :
  Float64.lit 5 100 = S754_finite false 7205759403792794 (-57).
Proof. vm_compute. reflexivity. Qed.

(** The test [solAmount > 0.05] on a positive amount of 64 bits: the
    quotient [float64(lamports) / 1e9] is above the float64 nearest to
    0.05 exactly when [lamports] is above 50,000,000. *)
Lemma exceedsFunderMinimum_uint64 (l : Z) :
  0 < l < 2 ^ 64 -> exceedsFunderMinimum l = (50000000 <? l).
Proof.
  intros Hl. unfold exceedsFunderMinimum.
  rewrite of_Z_LAMPORTS_PER_SOL, lit_5_100.
  pose proof (Zdigits2_bounds l ltac:(lia)) as Hb.
  assert (Hd64 : 0 < Zdigits2 l <= 64).
  { split; [destruct l; simpl; lia|].
    destruct (Z_le_gt_dec (Zdigits2 l) 64) as [|Hgt]; [assumption|].
    exfalso. assert (2 ^ 64 <= 2 ^ (Zdigits2 l - 1)) by (apply Z.pow_le_mono_r; lia).
    lia. }
  destruct (of_Z_spec l ltac:(lia) ltac:(lia)) as (m1 & e1 & Hof & Hm1 & Hsmall & Hbig).
  rewrite Hof.
  remember (Zdigits2 l) as d eqn:Hd.
  assert (He1 : d - 53 <= e1 <= d - 52) by lia.
  destruct (div_spec m1 8388608000000000 e1 (-23) Hm1 ltac:(lia) ltac:(lia))
    as (m3 & e3 & i & Hdiv & Hm3 & Hi & He3 & Hlow & Hnear).
  rewrite Hdiv, ltb_finite.
  destruct (Z_le_gt_dec 29 d) as [Hhigh|Hnothigh].
  { (* at least 2^28 lamports *)
    assert (2 ^ 28 <= 2 ^ (d - 1)) by (apply Z.pow_le_mono_r; lia).
    replace (-57 <? e3) with true by (symmetry; apply Z.ltb_lt; lia).
    symmetry. apply Z.ltb_lt. lia. }
  destruct (Z_le_gt_dec d 23) as [Hlow23|Hmid].
  { (* fewer than 2^23 lamports *)
    assert (2 ^ d <= 2 ^ 23) by (apply Z.pow_le_mono_r; lia).
    replace (-57 <? e3) with false by (symmetry; apply Z.ltb_ge; lia).
    replace (-57 =? e3) with false by (symmetry; apply Z.eqb_neq; lia).
    symmetry. apply Z.ltb_ge. lia. }
  destruct (Hsmall ltac:(lia)) as [He1' Hm1'].
  assert (Hcases : d = 24 \/ d = 25 \/ d = 26 \/ d = 27 \/ d = 28) by lia.
  clear Hsmall Hbig Hof Hdiv Hd.
  destruct (Z.ltb_spec 50000000 l) as [Hgt|Hle];
    destruct (Z.ltb_spec (-57) e3) as [He|He];
    destruct (Z.eqb_spec (-57) e3) as [Heq|Hne];
    destruct (Z.ltb_spec (Z.pos 7205759403792794) (Z.pos m3)) as [Hm|Hm];
    cbn [orb andb]; try reflexivity; exfalso;
    destruct Hcases as [->|[->|[->|[->| ->]]]];
    destruct Hi as [-> | ->];
    destruct He3 as [-> | ->];
    subst e1; try lia;
    cbn in Hnear, Hlow, Hm1', Hb; lia.
Qed.







(** Negative amounts: the sign goes through the conversion and the
    division, and nothing negative is above 0.05. *)
Lemma binary_round_aux_negative (m e : Z) (l : location) :
  negativeOrNaN (binary_round_aux 53 1024 true m e l).
Proof.
  unfold binary_round_aux.
  destruct (shr_fexp 53 1024 m e l) as [mrs' e'].
  destruct (shr_fexp 53 1024 _ e' loc_Exact) as [mrs'' e''].
  destruct (shr_m mrs''); [reflexivity| |exact I].
  destruct (e'' <=? 1024 - 53); reflexivity.
Qed.

Lemma div_negative (x : spec_float) (my : positive) (ey : Z) :
  negativeOrNaN x ->
  negativeOrNaN (Float64.div x (S754_finite false my ey)).
Proof.
  destruct x as [s|s| |s mx ex]; cbn [negativeOrNaN]; intros H; subst;
    try exact I; try reflexivity.
  unfold Float64.div, SFdiv.
  destruct (SFdiv_core_binary _ _ _ _ _ _) as [[mz ez] lz].
  apply binary_round_aux_negative.
Qed.

Lemma ltb_negative (m : positive) (e : Z) (x : spec_float) :
  negativeOrNaN x -> Float64.ltb (S754_finite false m e) x = false.
Proof.
  destruct x as [s|s| |s mx ex]; cbn [negativeOrNaN]; intros H; subst;
    reflexivity.
Qed.

Lemma exceedsFunderMinimum_nonpositive (l : Z) :
  l <= 0 -> exceedsFunderMinimum l = false.
Proof.
  intros Hl. destruct l as [|p|p]; [vm_compute; reflexivity | lia |].
  unfold exceedsFunderMinimum.
  rewrite of_Z_LAMPORTS_PER_SOL, lit_5_100.
  apply ltb_negative, div_negative.
  unfold Float64.of_Z, binary_normalize, binary_round.
  destruct (shl_align _ _ _) as [mz ez].
  apply binary_round_aux_negative.
Qed.

Lemma exceedsFunderMinimum_sound (l : Z) :
  exceedsFunderMinimum l = true -> 50000000 < l.
Proof.
  intros H.
  destruct (Z_le_gt_dec l 0) as [Hle|Hpos].
  { rewrite exceedsFunderMinimum_nonpositive in H by assumption. discriminate. }
  destruct (Z_lt_le_dec l (2 ^ 64)) as [Hlt|Hge]; [|lia].
  rewrite exceedsFunderMinimum_uint64 in H by lia.
  apply Z.ltb_lt. assumption.
Qed.

(** ** Funder discovery *)

(** The float64 test of the source is, for every amount a [uint64] can
    hold, the test that the amount is above 50,000,000 lamports. *)
Lemma exceedsFunderMinimum_threshold (lamports : Z) :
  is_uint64 lamports ->
  exceedsFunderMinimum lamports = (50000000 <? lamports).
Proof.
  intros [Hlo Hhi]. destruct (Z.eq_dec lamports 0) as [->|Hnz].
  - vm_compute. reflexivity.
  - apply exceedsFunderMinimum_uint64. lia.
Qed.

(** The minimum test at its boundary: 0.05 SOL is not enough, one
    lamport more is. *)
Lemma exceedsFunderMinimum_boundary :
  exceedsFunderMinimum 50000000 = false /\
  exceedsFunderMinimum 50000001 = true.
Proof. split; vm_compute; reflexivity. Qed.

Lemma transfersWellFormed_tail (i : Instruction) (rest : Transaction) :
  transfersWellFormed (i :: rest) -> transfersWellFormed rest.
Proof.
  intros H j lamports funder Hj. apply H, elem_of_cons. right. assumption.
Qed.

Lemma checkHasFunder_sound (tx : Transaction) (creatorAddr funder : string) :
  checkHasFunder tx creatorAddr = Some funder -> funder <> EmptyString ->
  qualifyingSender tx creatorAddr funder.
Proof.
  induction tx as [|i rest IH]; cbn [checkHasFunder].
  { intros H. injection H as <-. congruence. }
  assert (Hrest : checkHasFunder rest creatorAddr = Some funder ->
                  funder <> EmptyString ->
                  qualifyingSender (i :: rest) creatorAddr funder).
  { intros H Hne. destruct (IH H Hne) as (i' & l & Hin & Hrest).
    exists i', l. split; [apply elem_of_cons; right; assumption | assumption]. }
  destruct (resolved i) eqn:Hres; cbn [negb]; [|assumption].
  destruct (asSystem i) as [[[lamports|] [funderAddr|]|]|] eqn:Hsys;
    try assumption; [|discriminate].
  destruct (String.eqb_spec funderAddr creatorAddr) as [Heq|Hne];
    cbn [negb andb]; [assumption|].
  destruct (exceedsFunderMinimum lamports) eqn:Hmin; [|assumption].
  intros H _. injection H as <-. exists i, lamports.
  split; [apply elem_of_cons; left; reflexivity|].
  split; [assumption|]. split; [assumption|]. split; [assumption|].
  apply exceedsFunderMinimum_sound. assumption.
Qed.

Lemma checkHasFunder_panics (tx : Transaction) (creatorAddr : string) :
  checkHasFunder tx creatorAddr = None ->
  exists i lamports,
    i ∈ tx /\ resolved i = true /\
    asSystem i = Some (SystemTransfer (Some lamports) None).
Proof.
  induction tx as [|i rest IH]; cbn [checkHasFunder]; [discriminate|].
  assert (Hrest : checkHasFunder rest creatorAddr = None ->
                  exists j lamports,
                    j ∈ i :: rest /\ resolved j = true /\
                    asSystem j = Some (SystemTransfer (Some lamports) None)).
  { intros H. destruct (IH H) as (j & l & Hin & Hrest).
    exists j, l. split; [apply elem_of_cons; right; assumption | assumption]. }
  destruct (resolved i) eqn:Hres; cbn [negb]; [|assumption].
  destruct (asSystem i) as [[[lamports|] [funderAddr|]|]|] eqn:Hsys;
    try assumption.
  - destruct (negb (funderAddr =? creatorAddr)%string
              && exceedsFunderMinimum lamports); [discriminate | assumption].
  - intros _. exists i, lamports.
    split; [apply elem_of_cons; left; reflexivity | auto].
Qed.

Lemma checkHasFunder_first (tx : Transaction) (creatorAddr : string) :
  transfersWellFormed tx ->
  checkHasFunder tx creatorAddr
  = Some (default EmptyString (head (omap (qualifyingTransfer creatorAddr) tx))).
Proof.
  induction tx as [|i rest IH]; intros Hwf; [reflexivity|].
  specialize (IH (transfersWellFormed_tail _ _ Hwf)).
  cbn [checkHasFunder omap list_omap]. unfold qualifyingTransfer at 1.
  destruct (resolved i) eqn:Hres; cbn [negb]; [|exact IH].
  destruct (asSystem i) as [[[lamports|] funder|]|] eqn:Hsys; try exact IH.
  destruct (Hwf i lamports funder) as [Hfunder Hrange];
    [apply elem_of_cons; left; reflexivity | assumption | assumption |].
  destruct funder as [funderAddr|]; [|congruence].
  rewrite (exceedsFunderMinimum_threshold lamports Hrange).
  destruct (negb (funderAddr =? creatorAddr)%string && (50000000 <? lamports));
    [reflexivity | exact IH].
Qed.

Section FundersLoop.

Variable creatorAddress : string.
Variable fundersLimit : Z.

Lemma findFundersLoop_length (responses : list RPCResponse) :
  forall funders result,
    findFundersLoop responses creatorAddress fundersLimit funders = Some result ->
    Z.of_nat (length funders) < fundersLimit ->
    Z.of_nat (length result) <= fundersLimit.
Proof.
  induction responses as [|response rest IH]; intros funders result;
    cbn [findFundersLoop].
  { intros H. injection H as <-. lia. }
  destruct response as [| | |tx]; try apply IH.
  destruct (checkHasFunder tx creatorAddress) as [funder|]; [|discriminate].
  set (funders' := if negb (funder =? "")%string
                   then funders ++ [funder] else funders).
  intros H Hlt.
  assert (Hlen : Z.of_nat (length funders') <= fundersLimit).
  { unfold funders'. destruct (negb _); [|lia].
    rewrite length_app. simpl. lia. }
  destruct (Z.eqb_spec (Z.of_nat (length funders')) fundersLimit) as [Heq|Hne].
  - injection H as <-. lia.
  - apply (IH funders'); [assumption | lia].
Qed.

Lemma findFundersLoop_members (responses : list RPCResponse) :
  forall funders result f,
    findFundersLoop responses creatorAddress fundersLimit funders = Some result ->
    f ∈ result ->
    f ∈ funders \/ (f <> EmptyString /\ foundIn creatorAddress responses f).
Proof.
  induction responses as [|response rest IH]; intros funders result f;
    cbn [findFundersLoop].
  { intros H. injection H as <-. auto. }
  assert (Hweaken : forall g,
            g ∈ funders \/ (g <> EmptyString /\ foundIn creatorAddress rest g) ->
            g ∈ funders \/
            (g <> EmptyString /\ foundIn creatorAddress (response :: rest) g)).
  { intros g [H|(Hne & tx & Hin & Hq)]; [left; assumption|].
    right. split; [assumption|]. exists tx.
    split; [apply elem_of_cons; right|]; assumption. }
  destruct response as [| | |tx];
    try (intros H Hin; apply Hweaken, (IH _ _ _ H Hin)).
  destruct (checkHasFunder tx creatorAddress) as [funder|] eqn:Hcheck;
    [|discriminate].
  assert (Hnew : forall g,
            g ∈ (if negb (funder =? "")%string
                 then funders ++ [funder] else funders) ->
            g ∈ funders \/
            (g <> EmptyString /\
             foundIn creatorAddress (ResponseTransaction tx :: rest) g)).
  { intros g. destruct (String.eqb_spec funder "") as [He|Hne]; cbn [negb];
      [auto|].
    rewrite elem_of_app, list_elem_of_singleton.
    intros [H| ->]; [left; assumption|].
    right. split; [assumption|]. exists tx.
    split; [apply elem_of_cons; left; reflexivity|].
    apply checkHasFunder_sound; assumption. }
  match goal with
  | |- context [Z.eqb ?a ?b] => destruct (Z.eqb a b)
  end.
  - intros H Hin. injection H as <-. apply Hnew. assumption.
  - intros H Hin. destruct (IH _ _ _ H Hin) as [Hf|(Hne & tx' & Hin' & Hq)].
    + apply Hnew. assumption.
    + right. split; [assumption|]. exists tx'.
      split; [apply elem_of_cons; right|]; assumption.
Qed.

Lemma findFundersLoop_stops (pre post : list RPCResponse) :
  forall funders result,
    Z.of_nat (length funders) < fundersLimit ->
    findFundersLoop pre creatorAddress fundersLimit funders = Some result ->
    Z.of_nat (length result) = fundersLimit ->
    findFundersLoop (pre ++ post) creatorAddress fundersLimit funders
    = Some result.
Proof.
  induction pre as [|response rest IH]; intros funders result Hlt;
    cbn [findFundersLoop app].
  { intros H. injection H as <-. lia. }
  destruct response as [| | |tx]; try (apply IH; assumption).
  destruct (checkHasFunder tx creatorAddress) as [funder|]; [|discriminate].
  set (funders' := if negb (funder =? "")%string
                   then funders ++ [funder] else funders).
  assert (Hlen : Z.of_nat (length funders') <= fundersLimit).
  { unfold funders'. destruct (negb _); [|lia].
    rewrite length_app. simpl. lia. }
  destruct (Z.eqb_spec (Z.of_nat (length funders')) fundersLimit);
    [intros H _; exact H|].
  apply IH. lia.
Qed.

End FundersLoop.

Lemma findFundersLoop_take (creatorAddress : string) (n : nat)
    (responses : list RPCResponse) :
  (forall tx, ResponseTransaction tx ∈ responses -> transfersWellFormed tx) ->
  forall funders,
    (length funders < n)%nat ->
    findFundersLoop responses creatorAddress (Z.of_nat n) funders
    = Some (funders ++ take (n - length funders)
                         (omap (responseFunder creatorAddress) responses)).
Proof.
  induction responses as [|response rest IH]; intros Hwf funders Hlt.
  - cbn. rewrite take_nil, app_nil_r. reflexivity.
  - assert (Hwf' : forall tx, ResponseTransaction tx ∈ rest ->
                              transfersWellFormed tx).
    { intros tx Htx. apply Hwf, elem_of_cons. right. assumption. }
    specialize (IH Hwf').
    cbn [findFundersLoop omap list_omap].
    destruct response as [| | |tx]; cbn [responseFunder];
      try (apply IH; assumption).
    rewrite checkHasFunder_first
      by (apply Hwf, elem_of_cons; left; reflexivity).
    destruct (head (omap (qualifyingTransfer creatorAddress) tx)) as [funder|];
      cbn [default from_option id].
    + destruct (String.eqb_spec funder "") as [He|Hne]; cbn [negb].
      * destruct (Z.eqb_spec (Z.of_nat (length funders)) (Z.of_nat n)); [lia|].
        apply IH. assumption.
      * destruct (Z.eqb_spec (Z.of_nat (length (funders ++ [funder])))
                    (Z.of_nat n)) as [Heq|Hneq].
        -- rewrite length_app in Heq. simpl in Heq.
           replace (n - length funders)%nat with 1%nat by lia.
           cbn. rewrite take_0. reflexivity.
        -- rewrite length_app in Hneq. simpl in Hneq.
           rewrite IH by (rewrite length_app; simpl; lia).
           rewrite length_app. simpl.
           replace (n - length funders)%nat
             with (S (n - (length funders + 1)))%nat by lia.
           cbn. rewrite <- app_assoc. reflexivity.
    + cbn [String.eqb negb].
      destruct (Z.eqb_spec (Z.of_nat (length funders)) (Z.of_nat n)); [lia|].
      apply IH. assumption.
Qed.

(** C7.  Every returned address should be the sender of a native
    transfer.  [checkHasFunder] decodes every instruction under the
    layout of the system program and never looks at the program the
    instruction addresses (the sibling [detectTransfer] compares the
    program key before it decodes): for a transaction whose only
    instruction is one of the memo program, with data that reads as a
    transfer of one SOL, the first account of that instruction is
    returned as a funder although the transaction holds no instruction
    of the system program.  And on a decoded transfer that carries no
    account the discovery panics instead of returning. *)
Theorem findFundersFromResps_takes_foreign_instruction :
  findFundersFromResps [ResponseTransaction [memoInstruction]] "CreatorWallet" 3
  = Some ["MemoSigner"%string] /\
  programID memoInstruction <> systemProgramID /\
  ~ nativeTransferSender [memoInstruction] "MemoSigner" /\
  findFundersFromResps [ResponseTransaction [transferWithoutAccounts]]
    "CreatorWallet" 3
  = None.
Proof.
  split; [vm_compute; reflexivity|].
  split; [discriminate|].
  split; [|vm_compute; reflexivity].
  intros (i & lamports & Hin & Hprog & _).
  apply list_elem_of_singleton in Hin. subst i. discriminate.
Qed.

(** X16.  On responses whose decoded transfers all carry their funding
    account and a 64-bit amount, funder discovery with a cap of at
    least one returns, and what it returns are the first funders in the
    order of the responses, one per transaction at most: the funder of
    a transaction is the funding address of its first instruction that
    decodes as a transfer of more than 50,000,000 lamports from another
    address than the creator, and the result is the list of the funders
    of all responses cut after the cap. *)
Theorem findFundersFromResps_first_funders (responses : list RPCResponse)
    (creatorAddress : string) (n : nat) :
  (0 < n)%nat ->
  (forall tx, ResponseTransaction tx ∈ responses -> transfersWellFormed tx) ->
  findFundersFromResps responses creatorAddress (Z.of_nat n)
  = Some (take n (omap (responseFunder creatorAddress) responses)).
Proof.
  intros Hn Hwf. unfold findFundersFromResps.
  rewrite findFundersLoop_take by (simpl; assumption || lia).
  simpl. rewrite Nat.sub_0_r. reflexivity.
Qed.

Lemma findFundersFromResps_first_funders_witness :
  findFundersFromResps
    [ResponseNoObject;
     ResponseTransaction [transferInstruction 1000000000 "FirstFunder"];
     ResponseTransaction [transferInstruction 50000000 "TooSmall";
                          memoInstruction;
                          transferInstruction 70000000 "ThirdFunder"];
     ResponseTransaction [transferInstruction 50000001 "CreatorWallet";
                          transferInstruction 50000001 "SecondFunder"]]
    "CreatorWallet" (Z.of_nat 2)
  = Some ["FirstFunder"%string; "MemoSigner"%string].
Proof.
  rewrite (findFundersFromResps_first_funders _ "CreatorWallet" 2); [reflexivity|lia|].
  intros tx Htx i lamports funder Hi Hres Hsys.
  repeat (apply elem_of_cons in Htx as [Htx|Htx]; [try discriminate|]);
    try (apply elem_of_nil in Htx; contradiction);
    injection Htx as ->;
    repeat (apply elem_of_cons in Hi as [->|Hi];
            [injection Hsys as <- <-; split; [discriminate|unfold is_uint64; lia]|]);
    apply elem_of_nil in Hi; contradiction.
Defined.

(** X21.  Whenever funder discovery returns, for any cap of at least
    one: it returns at most the cap of addresses; every returned
    address is not the creator, is not the empty string, and is the
    funding address of a resolved instruction of one of the responses
    that decodes under the system layout as a transfer of more than
    50,000,000 lamports; and once the cap is reached nothing after it
    is looked at, so that responses added behind, even ones on which
    the discovery would panic, do not change the result. *)
Theorem findFundersFromResps_returned_funders (responses : list RPCResponse)
    (creatorAddress : string) (n : nat) (funders : list string) :
  (0 < n)%nat ->
  findFundersFromResps responses creatorAddress (Z.of_nat n) = Some funders ->
  (length funders <= n)%nat /\
  (forall funder,
     funder ∈ funders ->
     funder <> creatorAddress /\ funder <> EmptyString /\
     exists tx i lamports,
       ResponseTransaction tx ∈ responses /\ i ∈ tx /\ resolved i = true /\
       asSystem i = Some (SystemTransfer (Some lamports) (Some funder)) /\
       50000000 < lamports) /\
  (length funders = n ->
   forall post,
     findFundersFromResps (responses ++ post) creatorAddress (Z.of_nat n)
     = Some funders).
Proof.
  unfold findFundersFromResps. intros Hn H. split; [|split].
  - pose proof (findFundersLoop_length creatorAddress (Z.of_nat n) responses
                  [] funders H ltac:(simpl; lia)).
    lia.
  - intros funder Hin.
    destruct (findFundersLoop_members creatorAddress (Z.of_nat n) responses
                [] funders funder H Hin)
      as [Hnil|(Hne & tx & Htx & i & lamports & Hi & Hres & Hsys & Hcr & Hmin)].
    { apply elem_of_nil in Hnil. contradiction. }
    split; [assumption|]. split; [assumption|].
    exists tx, i, lamports. auto.
  - intros Hlen post.
    apply findFundersLoop_stops; [simpl; lia | assumption | lia].
Qed.

Lemma findFundersFromResps_returned_funders_witness :
  findFundersFromResps
    ([ResponseTransaction [transferInstruction 1000000000 "FirstFunder"]]
     ++ [ResponseTransaction [transferWithoutAccounts]])
    "CreatorWallet" (Z.of_nat 1)
  = Some ["FirstFunder"%string].
Proof.
  assert (H : findFundersFromResps
                [ResponseTransaction [transferInstruction 1000000000 "FirstFunder"]]
                "CreatorWallet" (Z.of_nat 1)
              = Some ["FirstFunder"%string]) by (vm_compute; reflexivity).
  pose proof (findFundersFromResps_returned_funders _ _ 1 _ ltac:(lia) H)
    as (_ & _ & Hstop).
  apply Hstop. reflexivity.
Defined.

(** ** Vetting *)

(** The three outcomes of the funder check. *)
Lemma isSafeFunder_cases (b : Bot) (funder : string) :
  (isExchangeAddress funder = true -> isSafeFunder b funder = Some true) /\
  (isExchangeAddress funder = false -> addressCreatedCoin b funder = true ->
   isSafeFunder b funder = Some false) /\
  (isExchangeAddress funder = false -> addressCreatedCoin b funder = false ->
   isSafeFunder b funder = None).
Proof.
  unfold isSafeFunder.
  repeat split; intros H; try intros H'; rewrite H; try rewrite H'; reflexivity.
Qed.

Lemma omap_length_le {A B : Type} (g : A -> option B) (l : list A) :
  (length (omap g l) <= length l)%nat.
Proof.
  induction l as [|a l IH]; cbn; [lia|].
  destruct (g a); cbn; lia.
Qed.

Lemma safe_count_full (g : string -> option bool) (l : list string) :
  length (filter (fun safe => safe = true) (omap g l)) = length l <->
  Forall (fun f => g f = Some true) l.
Proof.
  induction l as [|a l IH]; cbn.
  - split; [constructor | reflexivity].
  - pose proof (omap_length_le g l) as Hle.
    pose proof (length_filter (fun safe => safe = true) (omap g l)) as Hfl.
    destruct (g a) as [[|]|] eqn:Hg.
    + rewrite filter_cons_True by reflexivity. cbn. split.
      * intros H. constructor; [exact Hg|]. apply IH. lia.
      * intros H. inversion H; subst. f_equal. apply IH. assumption.
    + rewrite filter_cons_False by discriminate. split.
      * intros H. lia.
      * intros H. inversion H; subst. congruence.
    + split.
      * intros H. lia.
      * intros H. inversion H; subst. congruence.
Qed.

(** The candidate is admitted exactly when the price band, the creator
    history and the lookup let the vetting reach the funders, the
    discovery returns at least one funder, and every funder sends the
    verdict safe. *)
Lemma shouldBuyCoin_true_iff (b : Bot) (coin : Coin) :
  shouldBuyCoin b coin = Returns true <->
  Float64.ltb (creatorPurchaseSol coin) (Float64.lit 5 10) = false /\
  Float64.ltb (Float64.lit 25 10) (creatorPurchaseSol coin) = false /\
  addressCreatedCoin b (creator coin) = false /\
  exists funderTrans funders,
    fetchNLastTrans b 30 (creator coin) = Some funderTrans /\
    findFundersFromResps funderTrans (creator coin) 3 = Some funders /\
    funders <> [] /\
    Forall (fun funder => isSafeFunder b funder = Some true) funders.
Proof.
  unfold shouldBuyCoin.
  destruct (Float64.ltb (creatorPurchaseSol coin) (Float64.lit 5 10));
    [simpl; split; [discriminate | intros (H & _); discriminate]|].
  destruct (Float64.ltb (Float64.lit 25 10) (creatorPurchaseSol coin));
    [simpl; split; [discriminate | intros (_ & H & _); discriminate]|].
  destruct (addressCreatedCoin b (creator coin));
    [simpl; split; [discriminate | intros (_ & _ & H & _); discriminate]|].
  simpl.
  destruct (fetchNLastTrans b 30 (creator coin)) as [funderTrans|];
    [|split; [discriminate | intros (_ & _ & _ & ? & ? & H & _); discriminate]].
  destruct (findFundersFromResps funderTrans (creator coin) 3) as [funders|]
    eqn:Hfind;
    [|split; [discriminate
             | intros (_ & _ & _ & ? & ? & H & H' & _); congruence]].
  pose proof (omap_length_le (isSafeFunder b) funders) as Hle.
  pose proof (length_filter (fun safe => safe = true)
                (omap (isSafeFunder b) funders)) as Hfl.
  pose proof (safe_count_full (isSafeFunder b) funders) as Hfull.
  destruct (Nat.eqb_spec (length funders) 0) as [Hz|Hnz].
  { split; [discriminate|].
    intros (_ & _ & _ & ft & fs & Hft & Hfs & Hne & _).
    injection Hft as <-. rewrite Hfind in Hfs. injection Hfs as <-. exfalso. apply Hne. apply nil_length_inv. exact Hz. }
  destruct (Nat.ltb_spec (length (omap (isSafeFunder b) funders)) (length funders))
    as [Hlt|Hge].
  { split; [discriminate|].
    intros (_ & _ & _ & ft & fs & Hft & Hfs & _ & Hall).
    injection Hft as <-. rewrite Hfind in Hfs. injection Hfs as <-.
    apply Hfull in Hall. lia. }
  destruct (Nat.eqb_spec
              (length (filter (fun safe => safe = true)
                         (omap (isSafeFunder b) funders)))
              (length funders)) as [Heq|Hneq].
  - split; [|reflexivity]. intros _. repeat split.
    exists funderTrans, funders. split; [reflexivity|]. split; [assumption|].
    split.
    + intros E. rewrite E in Hnz. contradiction.
    + apply Hfull. assumption.
  - split; [intros H; injection H as H; discriminate|].
    intros (_ & _ & _ & ft & fs & Hft & Hfs & _ & Hall).
    injection Hft as <-. rewrite Hfind in Hfs. injection Hfs as <-.
    apply Hfull in Hall. contradiction.
Qed.

(** C4.  Every funder should get a verdict (safe for an exchange
    address, unsafe for an address with creation history, safe
    otherwise) and the candidate should be admitted exactly when all
    verdicts are safe.  For a funder that is neither an exchange address
    nor a former creator [isSafeFunder] returns without sending any
    verdict, and [shouldBuyCoin], waiting for one value per funder,
    never returns: the candidate is not admitted. *)
Theorem shouldBuyCoin_waits_for_missing_verdict :
  let b := botWithFunder "UnknownFunderWallet" in
  let coin := coinWithPurchase one64 in
  findFundersFromResps
    [ResponseTransaction [transferInstruction 1000000000 "UnknownFunderWallet"]]
    (creator coin) 3 = Some ["UnknownFunderWallet"%string] /\
  isExchangeAddress "UnknownFunderWallet" = false /\
  addressCreatedCoin b "UnknownFunderWallet" = false /\
  isSafeFunder b "UnknownFunderWallet" = None /\
  shouldBuyCoin b coin = BlocksForever.
Proof.
  repeat split; vm_compute; reflexivity.
Qed.






(** ** The creator purchase *)

Lemma fetchCreatorBuy_skip (c : Coin) (i : Instruction) (rest : Transaction) :
  isPumpBuy i = false ->
  fetchCreatorBuy c (i :: rest) = fetchCreatorBuy c rest.
Proof.
  unfold isPumpBuy. simpl. intros H.
  destruct (resolved i); simpl in *; [|reflexivity].
  destruct (asPump i) as [[| | | | |]|]; try reflexivity; discriminate.
Qed.


Lemma fetchCreatorBuy_ok_inv (c c' : Coin) (decodedTx : Transaction) :
  fetchCreatorBuy c decodedTx = MintOk c' ->
  exists pre i rest args ata maxSolCost,
    decodedTx = pre ++ i :: rest /\
    (forall p, p ∈ pre -> isPumpBuy p = false) /\
    resolved i = true /\
    asPump i = Some (PumpBuy (Some args) (Some ata)) /\
    MaxSolCost args = Some maxSolCost /\
    c' = setCreatorBuy c (creatorPurchaseOf maxSolCost) ata.
Proof.
  induction decodedTx as [|i rest IH]; [discriminate|].
  destruct (isPumpBuy i) eqn:Hbuy.
  - intros H. exists [], i, rest.
    unfold isPumpBuy in Hbuy. simpl in H.
    destruct (resolved i); [|discriminate]. simpl in *.
    destruct (asPump i) as [[|[args|] user| | | |]|]; try discriminate.
    destruct (MaxSolCost args) as [maxSolCost|] eqn:Hmax; [|discriminate].
    destruct user as [ata|]; [|discriminate].
    exists args, ata, maxSolCost. injection H as <-.
    repeat split; try reflexivity; try assumption.
    intros p Hp. apply elem_of_nil in Hp. contradiction.
  - rewrite fetchCreatorBuy_skip by assumption. intros H.
    destruct (IH H) as (pre & j & rest' & args & ata & m & -> & Hpre & Hrest).
    exists (i :: pre), j, rest', args, ata, m.
    split; [reflexivity|]. split; [|exact Hrest].
    intros p Hp. apply elem_of_cons in Hp as [->|Hp]; [assumption|].
    apply Hpre. assumption.
Qed.






(** The recorded purchase for a declared maximum of one SOL, and a
    complete creation transaction going through [fetchMintDetails]. *)
Lemma creatorPurchaseOf_one_sol :
  creatorPurchaseOf 1000000000 = Float64.lit 99 100 /\
  exists c,
    fetchMintDetails
      [createInstruction; buyInstruction 35000000000000 1000000000 "CreatorTokenAccount"]
    = MintOk c /\
    creator c = "CreatorWallet"%string /\
    creatorPurchaseSol c = Float64.lit 99 100.
Proof.
  split; [vm_compute; reflexivity|].
  eexists. split; [vm_compute; reflexivity|]. split; reflexivity.
Qed.

(** ** The decoded bonding curve *)

Lemma byteZ_range (b : Byte.byte) : 0 <= byteZ b < 256.
Proof.
  unfold byteZ. pose proof (Byte.to_N_bounded b). lia.
Qed.

Lemma byteZ_byteOfZ (z : Z) : byteZ (byteOfZ z) = z mod 256.
Proof.
  unfold byteZ, byteOfZ.
  pose proof (Z.mod_pos_bound z 256 ltac:(lia)) as Hm.
  destruct (Byte.of_N (Z.to_N (z mod 256))) as [b|] eqn:Hb; simpl.
  - apply Byte.to_of_N in Hb. rewrite Hb. lia.
  - apply Byte.of_N_None_iff in Hb. lia.
Qed.

Lemma littleEndian_range (bs : list Byte.byte) :
  0 <= littleEndian bs < 256 ^ Z.of_nat (length bs).
Proof.
  induction bs as [|b bs IH]; [simpl; lia|].
  cbn [littleEndian length]. pose proof (byteZ_range b).
  rewrite Nat2Z.inj_succ, Z.pow_succ_r by lia. lia.
Qed.

Lemma LittleEndianUint64_range (data : list Byte.byte) (lo : nat) :
  is_uint64 (LittleEndianUint64 data lo).
Proof.
  unfold is_uint64, LittleEndianUint64.
  pose proof (littleEndian_range (take 8 (drop lo data))) as H.
  assert (Hlen : (length (take 8 (drop lo data)) <= 8)%nat)
    by (rewrite length_take; lia).
  assert (256 ^ Z.of_nat (length (take 8 (drop lo data))) <= 256 ^ 8)
    by (apply Z.pow_le_mono_r; lia).
  change (2 ^ 64) with (256 ^ 8). lia.
Qed.

Lemma littleEndianBytes_length (n : nat) (z : Z) :
  length (littleEndianBytes n z) = n.
Proof.
  revert z. induction n as [|n IH]; intros z; simpl; [reflexivity|].
  rewrite IH. reflexivity.
Qed.

Lemma littleEndian_littleEndianBytes (n : nat) (z : Z) :
  0 <= z < 256 ^ Z.of_nat n -> littleEndian (littleEndianBytes n z) = z.
Proof.
  revert z. induction n as [|n IH]; intros z Hz.
  - simpl in *. lia.
  - cbn [littleEndianBytes littleEndian]. rewrite byteZ_byteOfZ.
    rewrite Nat2Z.inj_succ, Z.pow_succ_r in Hz by lia.
    rewrite IH.
    + pose proof (Z.div_mod z 256 ltac:(lia)). lia.
    + split; [apply Z.div_pos; lia|].
      apply Z.div_lt_upper_bound; lia.
Qed.

Lemma fetchBondingCurve_fields (accountInfo : option (list Byte.byte))
    (bcd : BondingCurveData) :
  fetchBondingCurve accountInfo = CurveOk bcd ->
  is_uint64 (RealTokenReserves bcd) /\
  is_uint64 (VirtualTokenReserves bcd) /\
  is_uint64 (VirtualSolReserves bcd).
Proof.
  intros H. destruct accountInfo as [data|]; [|discriminate].
  unfold fetchBondingCurve in H.
  destruct (length data <? 24)%nat; [discriminate|].
  injection H as <-. simpl.
  repeat split; apply LittleEndianUint64_range.
Qed.

(** X1.  [fetchBondingCurve] yields a snapshot exactly when the account
    is there and has at least 24 bytes, it fails with the
    insufficient-length error for any shorter data, and every reserve
    of a snapshot it yields is an unsigned 64-bit number. *)
Theorem fetchBondingCurve_outcomes (accountInfo : option (list Byte.byte)) :
  (accountInfo = None -> fetchBondingCurve accountInfo = CurveErr errAccountInfo) /\
  (forall data, accountInfo = Some data -> (length data < 24)%nat ->
     fetchBondingCurve accountInfo = CurveErr errInsufficientData) /\
  (forall data, accountInfo = Some data -> (24 <= length data)%nat ->
     exists bcd, fetchBondingCurve accountInfo = CurveOk bcd) /\
  (forall bcd, fetchBondingCurve accountInfo = CurveOk bcd ->
     is_uint64 (RealTokenReserves bcd) /\
     is_uint64 (VirtualTokenReserves bcd) /\
     is_uint64 (VirtualSolReserves bcd)).
Proof.
  split; [|split; [|split]].
  - intros ->. reflexivity.
  - intros data -> Hlen. unfold fetchBondingCurve.
    destruct (Nat.ltb_spec (length data) 24); [reflexivity | lia].
  - intros data -> Hlen. unfold fetchBondingCurve.
    destruct (Nat.ltb_spec (length data) 24); [lia|].
    eexists. reflexivity.
  - apply fetchBondingCurve_fields.
Qed.

(** X2.  Round trip of the account layout: three unsigned 64-bit
    reserves written little-endian at offsets 0, 8 and 16, followed by
    any further bytes, are decoded to the same three numbers. *)
Theorem fetchBondingCurve_round_trip (bcd : BondingCurveData)
    (rest : list Byte.byte) :
  is_uint64 (RealTokenReserves bcd) ->
  is_uint64 (VirtualTokenReserves bcd) ->
  is_uint64 (VirtualSolReserves bcd) ->
  fetchBondingCurve (Some (curveAccountData bcd ++ rest)) = CurveOk bcd.
Proof.
  unfold is_uint64. change (2 ^ 64) with (256 ^ Z.of_nat 8).
  intros Hr Ht Hs. unfold fetchBondingCurve, curveAccountData.
  set (r := littleEndianBytes 8 (RealTokenReserves bcd)).
  set (t := littleEndianBytes 8 (VirtualTokenReserves bcd)).
  set (s := littleEndianBytes 8 (VirtualSolReserves bcd)).
  assert (Hlr : length r = 8%nat) by apply littleEndianBytes_length.
  assert (Hlt : length t = 8%nat) by apply littleEndianBytes_length.
  assert (Hls : length s = 8%nat) by apply littleEndianBytes_length.
  destruct (Nat.ltb_spec (length ((r ++ t ++ s) ++ rest)) 24) as [Hshort|_].
  { rewrite !length_app in Hshort. lia. }
  unfold LittleEndianUint64.
  assert (H0 : take 8 (drop 0 ((r ++ t ++ s) ++ rest)) = r).
  { rewrite drop_0, <- !app_assoc. rewrite take_app_length'; auto. }
  assert (H8 : take 8 (drop 8 ((r ++ t ++ s) ++ rest)) = t).
  { rewrite <- !app_assoc. rewrite drop_app_length' by assumption.
    rewrite take_app_length'; auto. }
  assert (H16 : take 8 (drop 16 ((r ++ t ++ s) ++ rest)) = s).
  { rewrite <- !app_assoc.
    rewrite (app_assoc r t). rewrite drop_app_length'
      by (rewrite length_app; lia).
    rewrite take_app_length'; auto. }
  rewrite H0, H8, H16. unfold r, t, s.
  rewrite !littleEndian_littleEndianBytes by assumption.
  destruct bcd; reflexivity.
Qed.

Lemma fetchBondingCurve_round_trip_witness :
  fetchBondingCurve (Some (curveAccountData pumpCurve ++ [Byte.x01; Byte.xff]))
  = CurveOk pumpCurve.
Proof.
  apply (fetchBondingCurve_round_trip pumpCurve [Byte.x01; Byte.xff]);
    unfold is_uint64; simpl; lia.
Defined.

(** ** The purchase *)

Lemma lit_98_100 :
  Float64.lit 98 100 = S754_finite false 8827055269646172 (-53).
Proof. vm_compute. reflexivity. Qed.

(** With a purchase amount inside the int64 range the 98% quote exists,
    is not negative and does not exceed the raw units of the curve. *)
Lemma calculateBuyQuote_98_bounds (a : Z) (bc : BondingCurveData) :
  0 < a < 2 ^ 63 ->
  0 <= VirtualSolReserves bc -> 0 <= VirtualTokenReserves bc ->
  exists q,
    calculateBuyQuote a bc (Float64.lit 98 100) = Some q /\
    0 <= q <= VirtualTokenReserves bc.
Proof.
  intros Ha HS HT. rewrite lit_98_100. unfold calculateBuyQuote.
  rewrite int64_small by lia.
  destruct (Z.eqb_spec (VirtualSolReserves bc + a) 0) as [E|_]; [lia|].
  rewrite bigDiv_pos by lia.
  set (t := VirtualTokenReserves bc
            - VirtualSolReserves bc * VirtualTokenReserves bc
              / (VirtualSolReserves bc + a)).
  assert (Ht : 0 <= t <= VirtualTokenReserves bc).
  { unfold t. split.
    - assert (VirtualSolReserves bc * VirtualTokenReserves bc
              / (VirtualSolReserves bc + a) <= VirtualTokenReserves bc); [|lia].
      apply Z.div_le_upper_bound; nia.
    - assert (0 <= VirtualSolReserves bc * VirtualTokenReserves bc
                   / (VirtualSolReserves bc + a)); [|lia].
      apply Z.div_pos; nia. }
  simpl BigFloat.NewFloat. cbv iota beta.
  unfold BigFloat.SetInt, BigFloat.Mul.
  set (p := Z.max (Z.max (bitLen t) 64) 53).
  destruct (Z.eq_dec t 0) as [E0|Hne].
  { exists 0. rewrite E0. unfold BigFloat.roundToNearestEven.
    change (bitLen (Z.abs (0 * 8827055269646172))) with 0.
    destruct (Z.leb_spec 0 p) as [_|Hp]; [|unfold p in Hp; lia].
    split; [reflexivity | lia]. }
  change (0 + -53) with (Z.opp 53).
  destruct (round_then_truncate p (t * 8827055269646172) 53)
    as (q' & e' & r & -> & Hint & Hr).
  - unfold p. lia.
  - lia.
  - lia.
  - transitivity (bitLen (Z.abs (t * 2 ^ 53))).
    + rewrite Z.abs_eq by lia. apply bitLen_le_mono. lia.
    + rewrite bitLen_shift by lia. unfold p. lia.
  - exists r. split; [assumption|].
    assert (Hlow : 0 <= t * 8827055269646172 / 2 ^ 53)
      by (apply Z.div_pos; lia).
    assert (Hq : t * 8827055269646172 / 2 ^ 53 < t); [|lia].
    apply Z.div_lt_upper_bound; lia.
Qed.

Lemma bigUint64_small (x : Z) : 0 <= x < 2 ^ 64 -> bigUint64 x = x.
Proof.
  intros Hx. unfold bigUint64. rewrite Z.abs_eq by lia.
  apply Z.mod_small. assumption.
Qed.

(** Case analysis along the branches of a run of [BuyCoin]. *)
Ltac buy_paths :=
  repeat match goal with
    | |- context [match ?x with _ => _ end] =>
        let E := fresh "E" in destruct x eqn:E
    end.

(** X3.  Every return of [BuyCoin] has set [exitedBuyCoin] and is one
    of the writes [coinStep] allows; a return with an error leaves
    [botPurchased] and [tokensHeld] as they were, and the late-entry
    error leaves the price too and signs nothing. *)
Theorem BuyCoin_return_writes (b : Bot) (env : BuyEnv) (coin c' : Coin)
    (err : option buyError) (signed : option (list TxInstruction * bool)) :
  BuyCoin b env coin = BuyReturned err c' signed ->
  exitedBuyCoin c' = true /\
  coinStep coin c' /\
  (forall e, err = Some e ->
     botPurchased c' = botPurchased coin /\ tokensHeld c' = tokensHeld coin) /\
  (err = Some errLateToCoin -> buyPrice c' = buyPrice coin /\ signed = None).
Proof.
  unfold BuyCoin. buy_paths; intros H; inversion H; subst; clear H;
    (split; [reflexivity|]);
    (split;
     [ first
         [ apply (step_BuyCoin coin None None)
         | apply (step_BuyCoin coin (Some (buyAmountLamport b)) None)
         | apply (step_BuyCoin coin (Some (buyAmountLamport b)) (Some _)) ]
     |]);
    (split; [intros er Her; try discriminate; split; reflexivity|]);
    intros Hlate; try discriminate; split; reflexivity.
Qed.

Lemma BuyCoin_return_writes_witness :
  exitedBuyCoin (setExitedBuyCoinTrue (coinWithPurchase one64)) = true /\
  coinStep (coinWithPurchase one64)
           (setExitedBuyCoinTrue (coinWithPurchase one64)).
Proof.
  pose proof (BuyCoin_return_writes botWithoutFunder
                {| feeMicroLamport := 200000; skipATALookup := true;
                   ataAddress := Some "BotTokenAccount"%string;
                   ataExists := false;
                   curveAccount := Some (curveAccountData (curveWithSol 31150000000));
                   createATAInstruction :=
                     Some (CreateAssociatedTokenAccount "MintAddress");
                   jitoManager := managerWithoutLeader;
                   tipInstruction := Some (JitoTip 2000000);
                   transactionCreated := true;
                   sendResult := SendConfirmed |}
                (coinWithPurchase one64)
                (setExitedBuyCoinTrue (coinWithPurchase one64))
                (Some errLateToCoin) None) as H.
  destruct H as (H1 & H2 & _); [vm_compute; reflexivity|].
  split; assumption.
Defined.

(** X4.  With a purchase amount between 1 and 2^63-1 lamports the quote
    of [BuyCoin] never panics, whatever the account holds; and a return
    without error comes from a readable curve that is not late, records
    the 98% quote as the holding, a quote between 0 and the virtual
    token reserves, and has signed a buy instruction for exactly that
    many tokens at the configured maximum cost. *)
Theorem BuyCoin_purchase (b : Bot) (env : BuyEnv) (coin : Coin) :
  0 < buyAmountLamport b < 2 ^ 63 ->
  BuyCoin b env coin <> BuyPanicked /\
  (forall c' signed,
     BuyCoin b env coin = BuyReturned None c' signed ->
     exists bcd q instructions enableJito,
       fetchBondingCurve (curveAccount env) = CurveOk bcd /\
       lateToBuy coin bcd = false /\
       calculateBuyQuote (buyAmountLamport b) bcd (Float64.lit 98 100) = Some q /\
       0 <= q <= VirtualTokenReserves bcd /\
       botPurchased c' = true /\ tokensHeld c' = Some q /\
       buyPrice c' = buyAmountLamport b /\
       signed = Some (instructions, enableJito) /\
       BuyInstruction q (buyAmountLamport b) (mintAddr coin) ∈ instructions).
Proof.
  intros Hamount.
  assert (Hquote : forall bcd,
            fetchBondingCurve (curveAccount env) = CurveOk bcd ->
            exists q,
              calculateBuyQuote (buyAmountLamport b) bcd (Float64.lit 98 100)
              = Some q /\ 0 <= q <= VirtualTokenReserves bcd /\ bigUint64 q = q).
  { intros bcd Hbcd.
    destruct (fetchBondingCurve_fields (curveAccount env) bcd Hbcd)
      as (_ & Ht & Hs). unfold is_uint64 in *.
    destruct (calculateBuyQuote_98_bounds (buyAmountLamport b) bcd)
      as (q & Hq & Hb); try lia.
    exists q. repeat split; try assumption; try lia.
    apply bigUint64_small. lia. }
  split.
  - unfold BuyCoin.
    destruct (ataAddress env); [|discriminate].
    destruct (fetchBondingCurve (curveAccount env)) as [bcd|] eqn:Hbcd;
      [|discriminate].
    destruct (lateToBuy coin bcd); [discriminate|].
    destruct (Hquote bcd eq_refl) as (q & -> & _).
    buy_paths; discriminate.
  - intros c' signed. unfold BuyCoin.
    destruct (ataAddress env); [|discriminate].
    destruct (fetchBondingCurve (curveAccount env)) as [bcd|] eqn:Hbcd;
      [|discriminate].
    destruct (lateToBuy coin bcd) eqn:Hlate; [discriminate|].
    destruct (Hquote bcd eq_refl) as (q & Hq & Hb & Hu). rewrite Hq, Hu.
    destruct (skipATALookup env), (ataExists env),
      (createATAInstruction env) as [createAta|],
      (isJitoLeader (jitoManager env)), (tipInstruction env) as [tipInst|],
      (transactionCreated env), (sendResult env);
      simpl; intros H; inversion H; subst; clear H;
      eexists bcd, q, _, _;
      (repeat split; try reflexivity; try assumption; try lia);
      apply list_elem_of_In; simpl; auto 10.
Qed.

Lemma BuyCoin_purchase_witness :
  BuyCoin (botWithFunder "AC5RDfQFmDS1deWZos921JfqscXdByf8BKHs5ACWjtW2")
    {| feeMicroLamport := 200000; skipATALookup := true;
       ataAddress := Some "BotTokenAccount"%string;
       ataExists := false;
       curveAccount := Some (curveAccountData (curveWithSol 31000000000));
       createATAInstruction := Some (CreateAssociatedTokenAccount "MintAddress");
       jitoManager := managerWithJitoLeader;
       tipInstruction := Some (JitoTip 2000000);
       transactionCreated := true;
       sendResult := SendConfirmed |}
    (coinWithPurchase one64) <> BuyPanicked.
Proof.
  apply (BuyCoin_purchase (botWithFunder "AC5RDfQFmDS1deWZos921JfqscXdByf8BKHs5ACWjtW2")).
  simpl. lia.
Defined.

(** X5.  The transaction [BuyCoin] signs: it goes the Jito way exactly
    when the current leader runs Jito; without Jito it starts with the
    compute-unit price and limit and carries no tip; with Jito the
    price instruction is dropped and the tip comes last; the
    token-account creation is in it exactly when the lookup is skipped
    or finds no account; the buy instruction is always the last one
    before the tip. *)
Theorem BuyCoin_signed_instructions (b : Bot) (env : BuyEnv) (coin c' : Coin)
    (err : option buyError) (instructions : list TxInstruction)
    (enableJito : bool) :
  BuyCoin b env coin = BuyReturned err c' (Some (instructions, enableJito)) ->
  enableJito = isJitoLeader (jitoManager env) /\
  exists q,
    let buy := BuyInstruction (bigUint64 q) (buyAmountLamport b) (mintAddr coin) in
    let price := SetComputeUnitPrice (feeMicroLamport env) in
    let limit := SetComputeUnitLimit computeUnitLimits in
    let creation :=
      if skipATALookup env || negb (ataExists env)
      then option_list (createATAInstruction env) else [] in
    if enableJito
    then exists tipInst,
           tipInstruction env = Some tipInst /\
           instructions = [limit] ++ creation ++ [buy; tipInst]
    else instructions = [price; limit] ++ creation ++ [buy].
Proof.
  unfold BuyCoin.
  destruct (ataAddress env); [|discriminate].
  destruct (fetchBondingCurve (curveAccount env)) as [bcd|]; [|discriminate].
  destruct (lateToBuy coin bcd); [discriminate|].
  destruct (calculateBuyQuote _ bcd _) as [q|]; [|discriminate].
  destruct (skipATALookup env), (ataExists env),
    (createATAInstruction env) as [createAta|],
    (isJitoLeader (jitoManager env)), (tipInstruction env) as [tipInst|],
    (transactionCreated env), (sendResult env);
    simpl; intros H; inversion H; subst; clear H;
    (split; [reflexivity|]); exists q; simpl;
    try reflexivity; eexists; split; reflexivity.
Qed.

Lemma BuyCoin_signed_instructions_witness :
  exists q tipInst,
    [SetComputeUnitLimit 70000; CreateAssociatedTokenAccount "MintAddress";
     BuyInstruction 1693301127214 50000000 "MintAddress"; JitoTip 2000000]
    = [SetComputeUnitLimit computeUnitLimits]
      ++ [CreateAssociatedTokenAccount "MintAddress"]
      ++ [BuyInstruction (bigUint64 q) 50000000 "MintAddress"; tipInst].
Proof.
  pose proof (BuyCoin_signed_instructions
                (botWithFunder "AC5RDfQFmDS1deWZos921JfqscXdByf8BKHs5ACWjtW2")
                {| feeMicroLamport := 200000; skipATALookup := true;
                   ataAddress := Some "BotTokenAccount"%string;
                   ataExists := false;
                   curveAccount := Some (curveAccountData (curveWithSol 31000000000));
                   createATAInstruction :=
                     Some (CreateAssociatedTokenAccount "MintAddress");
                   jitoManager := managerWithJitoLeader;
                   tipInstruction := Some (JitoTip 2000000);
                   transactionCreated := true;
                   sendResult := SendConfirmed |}
                (coinWithPurchase one64)
                (setExitedBuyCoinTrue
                   (setPurchased (setBuyPrice (coinWithPurchase one64) 50000000)
                                 1693301127214))
                None
                [SetComputeUnitLimit 70000;
                 CreateAssociatedTokenAccount "MintAddress";
                 BuyInstruction 1693301127214 50000000 "MintAddress";
                 JitoTip 2000000]
                true) as H.
  destruct H as (_ & q & tipInst & _ & Heq); [vm_compute; reflexivity|].
  exists q, tipInst. exact Heq.
Defined.

(** ** The sale *)

Lemma sellTicks_lookup (n : nat) :
  forall (sendVanilla : bool) (k : nat),
    (k < n)%nat ->
    sellTicks n sendVanilla !! k = Some (xorb sendVanilla (Nat.even k)).
Proof.
  induction n as [|n IH]; intros sendVanilla k Hk; [lia|].
  destruct k as [|k].
  - destruct sendVanilla; reflexivity.
  - change (sellTicks (S n) sendVanilla !! S k)
      with (sellTicks n (negb sendVanilla) !! k).
    rewrite IH by lia. rewrite Nat.even_succ, <- Nat.negb_even.
    destruct sendVanilla, (Nat.even k); reflexivity.
Qed.

Lemma sellTicks_length (n : nat) (sendVanilla : bool) :
  length (sellTicks n sendVanilla) = n.
Proof.
  revert sendVanilla. induction n as [|n IH]; intros sendVanilla; simpl;
    [reflexivity|].
  rewrite IH. reflexivity.
Qed.

(** X6.  The attempts of a disposal race alternate: there are as many
    as ticks, the first one may go the Jito way, every second one is
    forced onto the standard way, and an attempt is sent as a Jito
    bundle exactly when its index is even and the current leader runs
    Jito. *)
Theorem SellCoinFast_attempts_alternate (n k : nat) (feeMicroLamport : Z)
    (j : JitoManager) (tipInst : TxInstruction) (coin : Coin) :
  (k < n)%nat ->
  length (sellAttempts n) = n /\
  sellAttempts n !! k = Some (Nat.odd k) /\
  forall instructions enableJito,
    sellCoin feeMicroLamport j tipInst coin (Nat.odd k)
    = Some (instructions, enableJito) ->
    enableJito = isJitoLeader j && Nat.even k.
Proof.
  intros Hk. split; [apply sellTicks_length|]. split.
  - unfold sellAttempts. rewrite sellTicks_lookup by assumption.
    rewrite <- Nat.negb_even. reflexivity.
  - intros instructions enableJito. unfold sellCoin.
    destruct (createSellInstruction coin); [|discriminate].
    intros H. injection H as _ <-.
    rewrite <- Nat.negb_even, negb_involutive. reflexivity.
Qed.

Lemma SellCoinFast_attempts_alternate_witness :
  length (sellAttempts 15) = 15%nat /\
  sellAttempts 15 !! 4%nat = Some (Nat.odd 4).
Proof.
  pose proof (SellCoinFast_attempts_alternate 15 4 200000 managerWithJitoLeader
                (JitoTip 2000000) (heldCoin 1000) ltac:(lia)) as (H1 & H2 & _).
  split; assumption.
Defined.

Lemma bigUint64_eq_bigInt64 (held : Z) :
  0 <= held -> 100 < bigInt64 held ->
  bigUint64 held = bigInt64 held /\ bigUint64 held < 2 ^ 63.
Proof.
  intros Hpos Hgt. unfold bigUint64, bigInt64 in *.
  destruct (Z.ltb_spec held 0) as [Hneg|_]; [lia|].
  pose proof (Z.mod_pos_bound (Z.abs held) (2 ^ 64) ltac:(lia)) as Hm.
  set (u := Z.abs held mod 2 ^ 64) in *.
  destruct (Z.lt_ge_cases u (2 ^ 63)) as [Hlow|Hhigh].
  - rewrite int64_small in * by lia. lia.
  - rewrite int64_high in Hgt by lia. lia.
Qed.

(** X7.  A coin the scan selects can always be sold: its holding is
    not nil, so building the sell instruction does not fail, and every
    transaction [sellCoin] builds for it carries one sell instruction
    for the low 64 bits of the holding with a minimum of one lamport;
    for a holding that is not negative this amount is what
    [botHoldsTokens] compared, more than 100 and below 2^63, and it is
    the whole holding when the holding is below 2^63. *)
Theorem selected_coin_is_sellable (pendingCoins : gmap string (option Coin))
    (coin : Coin) :
  coin ∈ fst (fetchCoinsToSell pendingCoins) ->
  exists held,
    tokensHeld coin = Some held /\
    (forall feeMicroLamport j tipInst sendVanilla,
       exists instructions enableJito,
         sellCoin feeMicroLamport j tipInst coin sendVanilla
         = Some (instructions, enableJito) /\
         SellInstruction (bigUint64 held) 1 (mintAddr coin) ∈ instructions) /\
    (0 <= held -> 100 < bigUint64 held < 2 ^ 63) /\
    (0 <= held < 2 ^ 63 -> bigUint64 held = held).
Proof.
  intros Hin.
  apply fetchCoinsToSell_selection in Hin as (_ & _ & Hheld & _).
  unfold botHoldsTokens in Hheld.
  destruct (tokensHeld coin) as [held|] eqn:Htok; [|discriminate].
  apply Z.ltb_lt in Hheld.
  exists held. split; [reflexivity|]. split; [|split].
  - intros feeMicroLamport j tipInst sendVanilla.
    unfold sellCoin, createSellInstruction. rewrite Htok.
    eexists _, _. split; [reflexivity|].
    apply list_elem_of_In.
    destruct (isJitoLeader j && negb sendVanilla); simpl; auto.
  - intros Hpos.
    destruct (bigUint64_eq_bigInt64 held Hpos Hheld) as [Heq Hlt]. lia.
  - intros Hr. apply bigUint64_small. lia.
Qed.

Lemma selected_coin_is_sellable_witness :
  exists held,
    tokensHeld (heldCoin 1000) = Some held /\
    (forall feeMicroLamport j tipInst sendVanilla,
       exists instructions enableJito,
         sellCoin feeMicroLamport j tipInst (heldCoin 1000) sendVanilla
         = Some (instructions, enableJito) /\
         SellInstruction (bigUint64 held) 1 (mintAddr (heldCoin 1000))
           ∈ instructions) /\
    (0 <= held -> 100 < bigUint64 held < 2 ^ 63) /\
    (0 <= held < 2 ^ 63 -> bigUint64 held = held).
Proof.
  apply (selected_coin_is_sellable
           {[ "MintAddress"%string := Some (heldCoin 1000) ]}).
  apply fetchCoinsToSell_selection. exists "MintAddress"%string.
  split; [apply lookup_singleton_eq|].
  repeat split; reflexivity.
Defined.

(** ** The registry *)

(** X8.  What one scan does: it returns exactly the registered coins
    that hold tokens, whose creator sold and that are not being sold;
    it removes exactly the entries whose coin has left the purchase
    without tokens or has left both the sale and the creator listener;
    every other entry, a nil entry included, stays as it is and no key
    is added. *)
Theorem fetchCoinsToSell_specification
    (pendingCoins : gmap string (option Coin)) :
  (forall coin,
     coin ∈ fst (fetchCoinsToSell pendingCoins) <->
     exists mint, pendingCoins !! mint = Some (Some coin) /\
                  botHoldsTokens coin = true /\ creatorSold coin = true /\
                  isSellingCoin coin = false) /\
  (forall mint,
     snd (fetchCoinsToSell pendingCoins) !! mint =
     match pendingCoins !! mint with
     | Some (Some coin) =>
         if (exitedBuyCoin coin && negb (botHoldsTokens coin))
            || (exitedSellCoin coin && exitedCreatorListener coin)
         then None else Some (Some coin)
     | other => other
     end).
Proof.
  split.
  - intros coin. apply fetchCoinsToSell_selection.
  - intros mint. rewrite fetchCoinsToSell_registry. reflexivity.
Qed.

(** X9.  Scanning again changes nothing: the registry a scan leaves is
    a part of the one it found, and a second scan of it removes no
    further entry and selects the same coins that are still
    registered. *)
Theorem fetchCoinsToSell_idempotent (pendingCoins : gmap string (option Coin)) :
  snd (fetchCoinsToSell pendingCoins) ⊆ pendingCoins /\
  snd (fetchCoinsToSell (snd (fetchCoinsToSell pendingCoins)))
  = snd (fetchCoinsToSell pendingCoins) /\
  (forall coin,
     coin ∈ fst (fetchCoinsToSell (snd (fetchCoinsToSell pendingCoins))) ->
     coin ∈ fst (fetchCoinsToSell pendingCoins)).
Proof.
  split; [|split].
  - apply map_subseteq_spec. intros mint ptr.
    rewrite fetchCoinsToSell_registry.
    destruct (pendingCoins !! mint) as [[coin|]|]; try (intros H; exact H).
    destruct (deletedByScan coin); [discriminate | intros H; exact H].
  - apply map_eq. intros mint. rewrite !fetchCoinsToSell_registry.
    destruct (pendingCoins !! mint) as [[coin|]|]; try reflexivity.
    destruct (deletedByScan coin) eqn:Hdel; [reflexivity|].
    rewrite Hdel. reflexivity.
  - intros coin Hin.
    apply fetchCoinsToSell_selection in Hin as (mint & Hm & Hrest).
    apply fetchCoinsToSell_selection. exists mint. split; [|exact Hrest].
    rewrite fetchCoinsToSell_registry in Hm.
    destruct (pendingCoins !! mint) as [[c|]|]; try discriminate.
    destruct (deletedByScan c); [discriminate | exact Hm].
Qed.

Lemma setCreatorSoldTrue_sold (c : Coin) :
  creatorSold c = true -> setCreatorSoldTrue c = c.
Proof. destruct c. cbn. intros ->. reflexivity. Qed.

(** X10.  Marking the creator of a registered coin as sold changes what
    the next scan sells by that coin and by nothing else: the marked
    coin is selected exactly when the bot holds its tokens and no sale
    of it is running; every other coin is selected after the mark
    exactly when it was before; and the scan removes the same entries
    as without the mark, the entry of the marked coin staying, with
    the mark, unless the scan removes it. *)
Theorem setCreatorSold_triggers_sale (pendingCoins : gmap string (option Coin))
    (coin registered : Coin) :
  pendingCoins !! mintAddr coin = Some (Some registered) ->
  exists pendingCoins',
    setCreatorSold pendingCoins coin = Some pendingCoins' /\
    (setCreatorSoldTrue registered ∈ fst (fetchCoinsToSell pendingCoins') <->
     botHoldsTokens registered = true /\ isSellingCoin registered = false) /\
    (forall other,
       other <> setCreatorSoldTrue registered ->
       (other ∈ fst (fetchCoinsToSell pendingCoins') <->
        other ∈ fst (fetchCoinsToSell pendingCoins))) /\
    (forall mint,
       snd (fetchCoinsToSell pendingCoins') !! mint
       = if decide (mint = mintAddr coin)
         then if deletedByScan registered then None
              else Some (Some (setCreatorSoldTrue registered))
         else snd (fetchCoinsToSell pendingCoins) !! mint).
Proof.
  intros Hreg. unfold setCreatorSold. rewrite Hreg.
  eexists. split; [reflexivity|].
  set (sold := setCreatorSoldTrue registered).
  set (m := mintAddr coin) in *.
  split; [|split].
  - rewrite fetchCoinsToSell_selection. split.
    + intros (mint & _ & Hh & _ & Hs). auto.
    + intros [Hh Hs]. exists m. rewrite lookup_insert_eq. auto.
  - intros other Hother. rewrite !fetchCoinsToSell_selection. split.
    + intros (mint & Hm & Hrest). exists mint. split; [|exact Hrest].
      destruct (decide (mint = m)) as [->|Hne].
      * rewrite lookup_insert_eq in Hm. congruence.
      * rewrite lookup_insert_ne in Hm by congruence. exact Hm.
    + intros (mint & Hm & Hh & Hsold & Hs). exists mint.
      split; [|auto].
      destruct (decide (mint = m)) as [->|Hne].
      * exfalso. apply Hother. rewrite Hreg in Hm. injection Hm as <-.
        symmetry. apply setCreatorSoldTrue_sold. assumption.
      * rewrite lookup_insert_ne by congruence. exact Hm.
  - intros mint. rewrite !fetchCoinsToSell_registry.
    destruct (decide (mint = m)) as [->|Hne].
    + rewrite lookup_insert_eq. reflexivity.
    + rewrite lookup_insert_ne by congruence. reflexivity.
Qed.

Lemma setCreatorSold_triggers_sale_witness :
  exists pendingCoins',
    setCreatorSold {[ "MintAddress"%string := Some (boughtCoin 1000) ]}
                   (boughtCoin 1000)
    = Some pendingCoins' /\
    heldCoin 1000 ∈ fst (fetchCoinsToSell pendingCoins') /\
    ~ boughtCoin 1000
      ∈ fst (fetchCoinsToSell {[ "MintAddress"%string := Some (boughtCoin 1000) ]}).
Proof.
  destruct (setCreatorSold_triggers_sale
              {[ "MintAddress"%string := Some (boughtCoin 1000) ]}
              (boughtCoin 1000) (boughtCoin 1000))
    as (pendingCoins' & Hset & Hsel & _ & _).
  { apply lookup_singleton_eq. }
  exists pendingCoins'. split; [exact Hset|]. split.
  - apply Hsel. split; reflexivity.
  - intros Hin. apply fetchCoinsToSell_selection in Hin as (_ & _ & _ & Hs & _).
    discriminate.
Defined.

(** ** Refreshing the routing state *)

Lemma foldl_jito_lookup (validators : list jitoValidator) :
  forall (m : gmap string bool) (k : string),
    foldl (fun m v => if RunningJito v then <[VoteAccount v := true]> m else m)
          m validators !! k
    = if existsb (fun v => RunningJito v && String.eqb (VoteAccount v) k) validators
      then Some true else m !! k.
Proof.
  induction validators as [|v validators IH]; intros m k; simpl;
    [reflexivity|].
  rewrite IH.
  destruct (existsb _ validators); [rewrite orb_true_r; reflexivity|].
  rewrite orb_false_r.
  destruct (RunningJito v); simpl; [|reflexivity].
  destruct (String.eqb_spec (VoteAccount v) k) as [->|Hne].
  - apply lookup_insert_eq.
  - apply lookup_insert_ne. assumption.
Qed.

Lemma buildJitoValidators_marks (j : JitoManager)
    (validators : list jitoValidator) (k : string) :
  jitoValidators (buildJitoValidators j validators) !! k = Some true <->
  exists v, v ∈ validators /\ RunningJito v = true /\ VoteAccount v = k.
Proof.
  unfold buildJitoValidators. simpl. rewrite foldl_jito_lookup, lookup_empty.
  split.
  - destruct (existsb _ validators) eqn:Hex; [|discriminate].
    intros _. apply existsb_exists in Hex as (v & Hin & Hv).
    apply andb_true_iff in Hv as [Hrun Hacc].
    apply String.eqb_eq in Hacc.
    exists v. split; [apply list_elem_of_In; assumption | auto].
  - intros (v & Hin & Hrun & Hacc).
    assert (Hex : existsb (fun v => RunningJito v
                                    && String.eqb (VoteAccount v) k) validators
                  = true).
    { apply existsb_exists. exists v.
      split; [apply list_elem_of_In; assumption|].
      rewrite Hrun, Hacc, String.eqb_refl. reflexivity. }
    rewrite Hex. reflexivity.
Qed.

(** X11.  After [buildJitoValidators] the Jito set holds exactly the
    vote accounts of the listed validators that run Jito, each marked
    true; what the set held before is gone, a validator that does not
    run Jito is never entered, and the other fields of the manager are
    untouched. *)
Theorem buildJitoValidators_set (j : JitoManager)
    (validators : list jitoValidator) (k : string) :
  (jitoValidators (buildJitoValidators j validators) !! k = Some true <->
   exists v, v ∈ validators /\ RunningJito v = true /\ VoteAccount v = k) /\
  jitoValidators (buildJitoValidators j validators) !! k <> Some false /\
  slotLeader (buildJitoValidators j validators) = slotLeader j /\
  voteAccounts (buildJitoValidators j validators) = voteAccounts j /\
  slotIndex (buildJitoValidators j validators) = slotIndex j.
Proof.
  split; [apply buildJitoValidators_marks|].
  split; [|repeat split].
  unfold buildJitoValidators. simpl. rewrite foldl_jito_lookup, lookup_empty.
  destruct (existsb _ validators); discriminate.
Qed.

(** X12.  Routing after a refresh of the Jito set: [isJitoLeader] is
    true exactly when the current slot has a leader and one of the
    listed validators runs Jito under the vote account read for that
    leader (the empty one for a leader without vote account). *)
Theorem isJitoLeader_after_buildJitoValidators (j : JitoManager)
    (validators : list jitoValidator) :
  isJitoLeader (buildJitoValidators j validators) = true <->
  exists leader v,
    slotLeader j !! slotIndex j = Some leader /\
    v ∈ validators /\ RunningJito v = true /\
    VoteAccount v = goLookupString (voteAccounts j) leader.
Proof.
  unfold isJitoLeader.
  change (slotLeader (buildJitoValidators j validators)) with (slotLeader j).
  change (slotIndex (buildJitoValidators j validators)) with (slotIndex j).
  change (voteAccounts (buildJitoValidators j validators)) with (voteAccounts j).
  destruct (slotLeader j !! slotIndex j) as [leader|].
  - pose proof (buildJitoValidators_marks j validators
                  (goLookupString (voteAccounts j) leader)) as Hset.
    unfold goLookupBool. split.
    + intros H.
      destruct (jitoValidators (buildJitoValidators j validators)
                  !! goLookupString (voteAccounts j) leader) as [[|]|] eqn:Hl;
        simpl in H; try discriminate.
      destruct (proj1 Hset eq_refl) as (v & Hv). exists leader, v. auto.
    + intros (leader' & v & Hl & Hv). injection Hl as <-.
      rewrite (proj2 Hset (ex_intro _ v Hv)). reflexivity.
  - split; [discriminate|]. intros (leader & v & Hl & _). discriminate.
Qed.

Lemma foldl_vote_lookup_other (accounts : list VoteAccountsResult) :
  forall (m : gmap string string) (k : string),
    (forall a, a ∈ accounts -> NodePubkey a <> k) ->
    foldl (fun m account => <[NodePubkey account := VotePubkey account]> m)
          m accounts !! k = m !! k.
Proof.
  induction accounts as [|a accounts IH]; intros m k Hno; simpl;
    [reflexivity|].
  rewrite IH by (intros b Hb; apply Hno, elem_of_cons; right; assumption).
  apply lookup_insert_ne. apply Hno, elem_of_cons. left. reflexivity.
Qed.

Lemma foldl_vote_is_Some (accounts : list VoteAccountsResult) :
  forall (m : gmap string string) (k : string),
    is_Some (m !! k) ->
    is_Some (foldl (fun m account =>
                      <[NodePubkey account := VotePubkey account]> m)
                   m accounts !! k).
Proof.
  induction accounts as [|a accounts IH]; intros m k Hsome; simpl;
    [assumption|].
  apply IH. destruct (decide (NodePubkey a = k)) as [->|Hne].
  - rewrite lookup_insert_eq. eexists. reflexivity.
  - rewrite lookup_insert_ne by assumption. assumption.
Qed.

(** X13.  [buildVoteAccounts] only adds: a node that is not among the
    reported accounts keeps the vote account it had, a node reported
    several times gets the vote account of its last report, no node
    loses its entry, and the other fields of the manager are
    untouched. *)
Theorem buildVoteAccounts_merge (j : JitoManager)
    (accounts : list VoteAccountsResult) (node : string) :
  ((forall a, a ∈ accounts -> NodePubkey a <> node) ->
   voteAccounts (buildVoteAccounts j accounts) !! node = voteAccounts j !! node) /\
  (forall before a after,
     accounts = before ++ a :: after -> NodePubkey a = node ->
     (forall a', a' ∈ after -> NodePubkey a' <> node) ->
     voteAccounts (buildVoteAccounts j accounts) !! node = Some (VotePubkey a)) /\
  (is_Some (voteAccounts j !! node) ->
   is_Some (voteAccounts (buildVoteAccounts j accounts) !! node)) /\
  jitoValidators (buildVoteAccounts j accounts) = jitoValidators j /\
  slotLeader (buildVoteAccounts j accounts) = slotLeader j.
Proof.
  assert (Hlast : forall before a after,
            accounts = before ++ a :: after -> NodePubkey a = node ->
            (forall a', a' ∈ after -> NodePubkey a' <> node) ->
            voteAccounts (buildVoteAccounts j accounts) !! node
            = Some (VotePubkey a)).
  { intros before a after -> Hnode Hafter. unfold buildVoteAccounts. simpl.
    rewrite foldl_app. simpl.
    rewrite foldl_vote_lookup_other by assumption.
    rewrite <- Hnode. apply lookup_insert_eq. }
  split; [|split; [exact Hlast | split; [|split; reflexivity]]].
  - intros Hno. unfold buildVoteAccounts. simpl.
    apply foldl_vote_lookup_other. assumption.
  - intros Hsome. unfold buildVoteAccounts. simpl.
    apply foldl_vote_is_Some. assumption.
Qed.

Lemma buildVoteAccounts_merge_witness :
  voteAccounts
    (buildVoteAccounts managerWithJitoLeader
       [ {| NodePubkey := "LeaderNode"; VotePubkey := "FirstVote" |};
         {| NodePubkey := "LeaderNode"; VotePubkey := "SecondVote" |} ])
    !! "LeaderNode"%string = Some "SecondVote"%string.
Proof.
  pose proof (buildVoteAccounts_merge managerWithJitoLeader
                [ {| NodePubkey := "LeaderNode"; VotePubkey := "FirstVote" |};
                  {| NodePubkey := "LeaderNode"; VotePubkey := "SecondVote" |} ]
                "LeaderNode"%string) as (_ & Hlast & _).
  apply (Hlast [ {| NodePubkey := "LeaderNode"; VotePubkey := "FirstVote" |} ]
               {| NodePubkey := "LeaderNode"; VotePubkey := "SecondVote" |} []).
  - reflexivity.
  - reflexivity.
  - intros a' Ha'. apply elem_of_nil in Ha'. contradiction.
Defined.

Lemma foldl_slots_lookup (validator : string) (slots : list Z) :
  forall (m : gmap Z string) (slot : Z),
    foldl (fun m s => <[s := validator]> m) m slots !! slot
    = if decide (slot ∈ slots) then Some validator else m !! slot.
Proof.
  induction slots as [|s slots IH]; intros m slot; simpl.
  - destruct (decide (slot ∈ [])) as [H|_]; [|reflexivity].
    apply elem_of_nil in H. contradiction.
  - rewrite IH.
    destruct (decide (slot ∈ slots)) as [Hin|Hnin].
    + destruct (decide (slot ∈ s :: slots)) as [_|Hn]; [reflexivity|].
      exfalso. apply Hn, elem_of_cons. right. assumption.
    + destruct (decide (slot = s)) as [->|Hne].
      * rewrite lookup_insert_eq.
        destruct (decide (s ∈ s :: slots)) as [_|Hn]; [reflexivity|].
        exfalso. apply Hn, elem_of_cons. left. reflexivity.
      * rewrite lookup_insert_ne by congruence.
        destruct (decide (slot ∈ s :: slots)) as [Hin|_]; [|reflexivity].
        apply elem_of_cons in Hin as [?|?]; contradiction.
Qed.

Lemma foldl_schedule_sound (entries : list (string * list Z)) :
  forall (m : gmap Z string) (slot : Z) (validator : string),
    foldl (fun m entry =>
             foldl (fun m s => <[s := fst entry]> m) m (snd entry))
          m entries !! slot = Some validator ->
    m !! slot = Some validator \/
    exists slots, (validator, slots) ∈ entries /\ slot ∈ slots.
Proof.
  induction entries as [|[v slots] entries IH]; intros m slot validator;
    simpl; [auto|].
  intros H. apply IH in H as [H|(slots' & Hin & Hslot)].
  - rewrite foldl_slots_lookup in H.
    destruct (decide (slot ∈ slots)) as [Hin|_]; [|left; assumption].
    injection H as <-. right. exists slots.
    split; [apply elem_of_cons; left; reflexivity | assumption].
  - right. exists slots'.
    split; [apply elem_of_cons; right; assumption | assumption].
Qed.

Lemma foldl_schedule_keeps (entries : list (string * list Z)) :
  forall (m : gmap Z string) (slot : Z),
    is_Some (m !! slot) ->
    is_Some (foldl (fun m entry =>
                      foldl (fun m s => <[s := fst entry]> m) m (snd entry))
                   m entries !! slot).
Proof.
  induction entries as [|[v slots] entries IH]; intros m slot Hsome; simpl;
    [assumption|].
  apply IH. rewrite foldl_slots_lookup.
  destruct (decide (slot ∈ slots)); [eexists; reflexivity | assumption].
Qed.

Lemma foldl_schedule_complete (entries : list (string * list Z)) :
  forall (m : gmap Z string) (slot : Z) (validator : string) (slots : list Z),
    (validator, slots) ∈ entries -> slot ∈ slots ->
    is_Some (foldl (fun m entry =>
                      foldl (fun m s => <[s := fst entry]> m) m (snd entry))
                   m entries !! slot).
Proof.
  induction entries as [|[v slots'] entries IH];
    intros m slot validator slots Hin Hslot; simpl.
  - apply elem_of_nil in Hin. contradiction.
  - apply elem_of_cons in Hin as [Heq|Hin].
    + injection Heq as <- <-. apply foldl_schedule_keeps.
      rewrite foldl_slots_lookup.
      destruct (decide (slot ∈ slots)); [eexists; reflexivity | contradiction].
    + eapply IH; eassumption.
Qed.

(** X14.  After [buildLeaderSchedule] the slot map is the schedule and
    nothing else: a slot maps to a validator only if the schedule lists
    the slot for that validator; every listed slot has a leader; a slot
    listed for one validator only maps to it; and a slot the schedule
    does not list has no leader, whatever the map held before, so the
    routing answers false for it. *)
Theorem buildLeaderSchedule_entries (j : JitoManager)
    (scheduleResult : gmap string (list Z)) (slot : Z) :
  (forall validator,
     slotLeader (buildLeaderSchedule j scheduleResult) !! slot = Some validator ->
     exists slots, scheduleResult !! validator = Some slots /\ slot ∈ slots) /\
  (forall validator slots,
     scheduleResult !! validator = Some slots -> slot ∈ slots ->
     is_Some (slotLeader (buildLeaderSchedule j scheduleResult) !! slot)) /\
  (forall validator slots,
     scheduleResult !! validator = Some slots -> slot ∈ slots ->
     (forall other slots', scheduleResult !! other = Some slots' ->
                           slot ∈ slots' -> other = validator) ->
     slotLeader (buildLeaderSchedule j scheduleResult) !! slot = Some validator) /\
  ((forall validator slots,
      scheduleResult !! validator = Some slots -> ~ slot ∈ slots) ->
   slotLeader (buildLeaderSchedule j scheduleResult) !! slot = None /\
   (slotIndex j = slot ->
    isJitoLeader (buildLeaderSchedule j scheduleResult) = false)).
Proof.
  assert (Hsound : forall validator,
            slotLeader (buildLeaderSchedule j scheduleResult) !! slot
            = Some validator ->
            exists slots, scheduleResult !! validator = Some slots /\ slot ∈ slots).
  { intros validator H. unfold buildLeaderSchedule in H. simpl in H.
    apply foldl_schedule_sound in H as [H|(slots & Hin & Hslot)].
    - rewrite lookup_empty in H. discriminate.
    - exists slots. split; [apply elem_of_map_to_list; assumption | assumption]. }
  assert (Hcomplete : forall validator slots,
            scheduleResult !! validator = Some slots -> slot ∈ slots ->
            is_Some (slotLeader (buildLeaderSchedule j scheduleResult) !! slot)).
  { intros validator slots Hl Hslot. unfold buildLeaderSchedule. simpl.
    eapply foldl_schedule_complete; [|exact Hslot].
    apply elem_of_map_to_list. exact Hl. }
  split; [exact Hsound|]. split; [exact Hcomplete|]. split.
  - intros validator slots Hl Hslot Hunique.
    destruct (Hcomplete validator slots Hl Hslot) as [other Hother].
    destruct (Hsound other Hother) as (slots' & Hl' & Hslot').
    rewrite Hother. f_equal. eapply Hunique; eassumption.
  - intros Hnone.
    assert (Hno : slotLeader (buildLeaderSchedule j scheduleResult) !! slot = None).
    { destruct (slotLeader (buildLeaderSchedule j scheduleResult) !! slot)
        as [validator|] eqn:Hv; [|reflexivity].
      destruct (Hsound validator eq_refl) as (slots & Hl & Hslot).
      exfalso. eapply Hnone; eassumption. }
    split; [exact Hno|].
    intros Hidx. unfold isJitoLeader.
    change (slotIndex (buildLeaderSchedule j scheduleResult)) with (slotIndex j).
    rewrite Hidx, Hno. reflexivity.
Qed.

(** X15.  [fetchEpochInfo] moves the epoch only together with the
    schedule: when the provider's epoch lookup fails nothing changes;
    otherwise the slot index is the reported one even if the function
    fails; the epoch changes only if the schedule was fetched and the
    slot map rebuilt from it; a failed schedule fetch leaves epoch and
    slot map as they were, so the next poll tries again; and a poll
    within the same epoch leaves the slot map alone.  The Jito set and
    the vote accounts are never touched. *)
Theorem fetchEpochInfo_epoch_follows_schedule (j : JitoManager)
    (epochInfo : option (Z * Z))
    (scheduleResult : option (gmap string (list Z))) :
  let j' := fst (fetchEpochInfo j epochInfo scheduleResult) in
  let failed := snd (fetchEpochInfo j epochInfo scheduleResult) in
  (epochInfo = None -> j' = j /\ failed = true) /\
  (forall slot e, epochInfo = Some (slot, e) ->
     slotIndex j' = slot /\
     (failed = false -> epoch j' = e) /\
     (failed = true ->
      scheduleResult = None /\ epoch j <> e /\
      epoch j' = epoch j /\ slotLeader j' = slotLeader j) /\
     (epoch j = e -> failed = false /\ slotLeader j' = slotLeader j) /\
     (epoch j' <> epoch j ->
      exists schedule,
        scheduleResult = Some schedule /\
        slotLeader j' = slotLeader (buildLeaderSchedule j schedule))) /\
  jitoValidators j' = jitoValidators j /\
  voteAccounts j' = voteAccounts j.
Proof.
  unfold fetchEpochInfo.
  destruct epochInfo as [[slot e]|]; simpl.
  - destruct (Z.eqb_spec (epoch j) e) as [Heq|Hne]; simpl.
    + split; [discriminate|]. split; [|split; reflexivity].
      intros slot' e' H. injection H as <- <-.
      repeat split; intros; try reflexivity; try assumption;
        try discriminate; try contradiction.
    + destruct scheduleResult as [schedule|]; simpl.
      * split; [discriminate|]. split; [|split; reflexivity].
        intros slot' e' H. injection H as <- <-.
        split; [reflexivity|]. split; [reflexivity|].
        split; [discriminate|]. split; [contradiction|].
        intros _. exists schedule. split; reflexivity.
      * split; [discriminate|]. split; [|split; reflexivity].
        intros slot' e' H. injection H as <- <-.
        repeat split; intros; try reflexivity; try assumption;
          try discriminate; try contradiction.
  - split; [intros _; split; reflexivity|].
    split; [|split; reflexivity]. intros slot e H. discriminate.
Qed.

(** ** The vetting decision *)

Lemma omap_length_lt_iff {A B : Type} (g : A -> option B) (l : list A) :
  (length (omap g l) < length l)%nat <-> exists a, a ∈ l /\ g a = None.
Proof.
  induction l as [|a l IH]; cbn.
  - split; [lia|]. intros (a & Ha & _). apply elem_of_nil in Ha. contradiction.
  - pose proof (omap_length_le g l) as Hle.
    destruct (g a) as [b|] eqn:Hg; cbn.
    + split.
      * intros H. destruct (proj1 IH ltac:(lia)) as (x & Hx & Hn).
        exists x. split; [apply elem_of_cons; right; assumption | assumption].
      * intros (x & Hx & Hn). apply elem_of_cons in Hx as [->|Hx]; [congruence|].
        assert ((length (omap g l) < length l)%nat); [|lia].
        apply IH. exists x. auto.
    + split; [|lia]. intros _. exists a.
      split; [apply elem_of_cons; left; reflexivity | assumption].
Qed.

Lemma unsafe_verdict_exists (g : string -> option bool) (l : list string) :
  ~ Forall (fun f => g f = Some true) l ->
  exists f, f ∈ l /\ g f <> Some true.
Proof.
  induction l as [|a l IH]; intros Hnot.
  - exfalso. apply Hnot. constructor.
  - destruct (g a) as [[|]|] eqn:Hg.
    + destruct IH as (f & Hf & Hv).
      { intros Hall. apply Hnot. constructor; assumption. }
      exists f. split; [apply elem_of_cons; right; assumption | assumption].
    + exists a. split; [apply elem_of_cons; left; reflexivity | congruence].
    + exists a. split; [apply elem_of_cons; left; reflexivity | congruence].
Qed.

Lemma findFundersLoop_panics (creatorAddress : string) (fundersLimit : Z)
    (responses : list RPCResponse) :
  forall funders,
    findFundersLoop responses creatorAddress fundersLimit funders = None ->
    exists tx i lamports,
      ResponseTransaction tx ∈ responses /\ i ∈ tx /\ resolved i = true /\
      asSystem i = Some (SystemTransfer (Some lamports) None).
Proof.
  induction responses as [|response rest IH]; intros funders;
    cbn [findFundersLoop]; [discriminate|].
  assert (Hrest : forall fs,
            findFundersLoop rest creatorAddress fundersLimit fs = None ->
            exists tx i lamports,
              ResponseTransaction tx ∈ response :: rest /\ i ∈ tx /\
              resolved i = true /\
              asSystem i = Some (SystemTransfer (Some lamports) None)).
  { intros fs H. destruct (IH fs H) as (tx & i & l & Htx & Hrest).
    exists tx, i, l. split; [apply elem_of_cons; right; assumption | assumption]. }
  destruct response as [| | |tx]; try apply Hrest.
  destruct (checkHasFunder tx creatorAddress) as [funder|] eqn:Hcheck.
  - match goal with
    | |- context [Z.eqb ?a ?b] => destruct (Z.eqb a b)
    end; [discriminate | apply Hrest].
  - intros _. apply checkHasFunder_panics in Hcheck as (i & l & Hi & Hrest').
    exists tx, i, l. split; [apply elem_of_cons; left; reflexivity|].
    split; assumption.
Qed.

(** X17.  What each outcome of [shouldBuyCoin] tells.  If it returns
    true, the purchase is inside the band, the creator has no history,
    the lookup answered, the discovery returned at least one funder and
    every funder is an exchange address.  If it never returns, the
    vetting reached the funders and one of them is neither an exchange
    address nor a former creator.  If it panics, the vetting reached
    the discovery and one of the transactions looked up holds a decoded
    transfer without accounts.  If it returns false, the purchase is
    outside the band, or the creator has history, or the lookup failed,
    or the discovery returned no funder, or one of the funders is a
    former creator and no exchange address. *)
Theorem shouldBuyCoin_outcomes (b : Bot) (coin : Coin) :
  let inBand :=
    Float64.ltb (creatorPurchaseSol coin) (Float64.lit 5 10) = false /\
    Float64.ltb (Float64.lit 25 10) (creatorPurchaseSol coin) = false in
  let reached funders :=
    inBand /\ addressCreatedCoin b (creator coin) = false /\
    exists funderTrans,
      fetchNLastTrans b 30 (creator coin) = Some funderTrans /\
      findFundersFromResps funderTrans (creator coin) 3 = Some funders in
  (shouldBuyCoin b coin = Returns true ->
   exists funders,
     reached funders /\ funders <> [] /\
     forall funder, funder ∈ funders -> isExchangeAddress funder = true) /\
  (shouldBuyCoin b coin = BlocksForever ->
   exists funders funder,
     reached funders /\ funder ∈ funders /\
     isExchangeAddress funder = false /\
     addressCreatedCoin b funder = false) /\
  (shouldBuyCoin b coin = Panics ->
   inBand /\ addressCreatedCoin b (creator coin) = false /\
   exists funderTrans tx i lamports,
     fetchNLastTrans b 30 (creator coin) = Some funderTrans /\
     ResponseTransaction tx ∈ funderTrans /\ i ∈ tx /\ resolved i = true /\
     asSystem i = Some (SystemTransfer (Some lamports) None)) /\
  (shouldBuyCoin b coin = Returns false ->
   ~ inBand \/
   addressCreatedCoin b (creator coin) = true \/
   fetchNLastTrans b 30 (creator coin) = None \/
   exists funders,
     reached funders /\
     (funders = [] \/
      exists funder,
        funder ∈ funders /\ isExchangeAddress funder = false /\
        addressCreatedCoin b funder = true)).
Proof.
  cbv zeta.
  assert (Hsafe : forall f, isSafeFunder b f = Some true -> isExchangeAddress f = true).
  { intros f. unfold isSafeFunder.
    destruct (isExchangeAddress f); [reflexivity|].
    destruct (addressCreatedCoin b f); discriminate. }
  assert (Hverdict : forall f,
            match isSafeFunder b f with
            | Some true => isExchangeAddress f = true
            | Some false => isExchangeAddress f = false /\
                            addressCreatedCoin b f = true
            | None => isExchangeAddress f = false /\
                      addressCreatedCoin b f = false
            end).
  { intros f. unfold isSafeFunder.
    destruct (isExchangeAddress f); [reflexivity|].
    destruct (addressCreatedCoin b f); split; reflexivity. }
  split; [|split; [|split]].
  - intros H. apply shouldBuyCoin_true_iff in H
      as (H1 & H2 & H3 & ft & funders & Hft & Hfs & Hne & Hall).
    exists funders. split; [repeat split; try assumption; exists ft; auto|].
    split; [assumption|]. intros f Hf. apply Hsafe.
    rewrite Forall_forall in Hall. apply Hall. assumption.
  - unfold shouldBuyCoin.
    destruct (Float64.ltb (creatorPurchaseSol coin) (Float64.lit 5 10)) eqn:Hlo;
      [discriminate|].
    destruct (Float64.ltb (Float64.lit 25 10) (creatorPurchaseSol coin)) eqn:Hhi;
      [discriminate|].
    destruct (addressCreatedCoin b (creator coin)) eqn:Hcr; [discriminate|].
    cbn [orb].
    destruct (fetchNLastTrans b 30 (creator coin)) as [ft|] eqn:Hft;
      [|discriminate].
    destruct (findFundersFromResps ft (creator coin) 3) as [funders|] eqn:Hfs;
      [|discriminate].
    destruct (length funders =? 0)%nat; [discriminate|].
    destruct (Nat.ltb_spec (length (omap (isSafeFunder b) funders))
                (length funders)) as [Hshort|Hfull]; [|discriminate].
    intros _. apply omap_length_lt_iff in Hshort as (f & Hin & Hf).
    exists funders, f. split; [repeat split; exists ft; auto|].
    split; [assumption|].
    pose proof (Hverdict f) as Hv. rewrite Hf in Hv. exact Hv.
  - unfold shouldBuyCoin.
    destruct (Float64.ltb (creatorPurchaseSol coin) (Float64.lit 5 10)) eqn:Hlo;
      [discriminate|].
    destruct (Float64.ltb (Float64.lit 25 10) (creatorPurchaseSol coin)) eqn:Hhi;
      [discriminate|].
    destruct (addressCreatedCoin b (creator coin)) eqn:Hcr; [discriminate|].
    cbn [orb].
    destruct (fetchNLastTrans b 30 (creator coin)) as [ft|] eqn:Hft;
      [|discriminate].
    destruct (findFundersFromResps ft (creator coin) 3) as [funders|] eqn:Hfs.
    { destruct (length funders =? 0)%nat; [discriminate|].
      destruct (length (omap (isSafeFunder b) funders) <? length funders)%nat;
        discriminate. }
    intros _. split; [split; reflexivity|]. split; [reflexivity|].
    apply findFundersLoop_panics in Hfs as (tx & i & l & Htx & Hrest).
    exists ft, tx, i, l. auto.
  - unfold shouldBuyCoin.
    destruct (Float64.ltb (creatorPurchaseSol coin) (Float64.lit 5 10)) eqn:Hlo;
      [intros _; left; intros [H _]; discriminate|].
    destruct (Float64.ltb (Float64.lit 25 10) (creatorPurchaseSol coin)) eqn:Hhi;
      [intros _; left; intros [_ H]; discriminate|].
    destruct (addressCreatedCoin b (creator coin)) eqn:Hcr; [auto|].
    cbn [orb].
    destruct (fetchNLastTrans b 30 (creator coin)) as [ft|] eqn:Hft; [|auto].
    destruct (findFundersFromResps ft (creator coin) 3) as [funders|] eqn:Hfs;
      [|discriminate].
    intros H. right. right. right. exists funders.
    split; [repeat split; exists ft; auto|].
    destruct (Nat.eqb_spec (length funders) 0) as [Hz|Hnz];
      [left; apply nil_length_inv; assumption|].
    destruct (Nat.ltb_spec (length (omap (isSafeFunder b) funders))
                (length funders)) as [Hshort|Hfull]; [discriminate|].
    right. injection H as H. apply Nat.eqb_neq in H.
    destruct (unsafe_verdict_exists (isSafeFunder b) funders) as (f & Hin & Hf).
    { intros Hall. apply H. apply safe_count_full. assumption. }
    exists f. split; [assumption|].
    pose proof (Hverdict f) as Hv.
    destruct (isSafeFunder b f) as [[|]|] eqn:Hsf; [congruence | exact Hv |].
    exfalso.
    assert ((length (omap (isSafeFunder b) funders) < length funders)%nat);
      [|lia].
    apply omap_length_lt_iff. exists f. auto.
Qed.

Lemma shouldBuyCoin_outcomes_witness :
  (exists funders,
     findFundersFromResps
       [ResponseTransaction
          [transferInstruction 1000000000
             "AC5RDfQFmDS1deWZos921JfqscXdByf8BKHs5ACWjtW2"]]
       "CreatorWallet" 3 = Some funders /\
     funders <> [] /\
     forall funder, funder ∈ funders -> isExchangeAddress funder = true) /\
  (exists funders funder,
     findFundersFromResps
       [ResponseTransaction [transferInstruction 1000000000 "UnknownFunderWallet"]]
       "CreatorWallet" 3 = Some funders /\
     funder ∈ funders /\ isExchangeAddress funder = false /\
     addressCreatedCoin (botWithFunder "UnknownFunderWallet") funder = false) /\
  (exists i lamports,
     i ∈ [transferWithoutAccounts] /\ resolved i = true /\
     asSystem i = Some (SystemTransfer (Some lamports) None)).
Proof.
  pose proof (shouldBuyCoin_outcomes
                (botWithFunder "AC5RDfQFmDS1deWZos921JfqscXdByf8BKHs5ACWjtW2")
                (coinWithPurchase one64)) as (Htrue & _).
  pose proof (shouldBuyCoin_outcomes (botWithFunder "UnknownFunderWallet")
                (coinWithPurchase one64)) as (_ & Hblocks & _).
  pose proof (shouldBuyCoin_outcomes botWithBrokenTransfer
                (coinWithPurchase one64)) as (_ & _ & Hpanics & _).
  split; [|split].
  - destruct (Htrue ltac:(vm_compute; reflexivity))
      as (funders & (_ & _ & ft & Hft & Hfs) & Hne & Hall).
    injection Hft as <-.
    exists funders. split; [exact Hfs|]. split; assumption.
  - destruct (Hblocks ltac:(vm_compute; reflexivity))
      as (funders & funder & (_ & _ & ft & Hft & Hfs) & Hin & Hex & Hcr).
    injection Hft as <-.
    exists funders, funder. auto.
  - destruct (Hpanics ltac:(vm_compute; reflexivity))
      as (_ & _ & ft & tx & i & lamports & Hft & Htx & Hi & Hres & Hsys).
    injection Hft as <-. apply list_elem_of_singleton in Htx.
    injection Htx as ->.
    exists i, lamports. auto.
Defined.

(** ** From the creation transaction to the registry *)

Lemma fetchNewCoin_fresh (decodedTx : Transaction) (c : Coin) :
  fetchNewCoin decodedTx = MintOk c ->
  creatorSold c = false /\ botPurchased c = false /\
  exitedBuyCoin c = false /\ exitedSellCoin c = false /\
  exitedCreatorListener c = false /\ isSellingCoin c = false /\
  tokensHeld c = None.
Proof.
  induction decodedTx as [|i rest IH]; [discriminate|]. simpl.
  destruct (resolved i); simpl; [|exact IH].
  destruct (asPump i) as [[[accounts|]| | | | |]|]; try exact IH;
    [|discriminate].
  unfold newCoinFromCreateInst.
  destruct (UserAccount accounts), (MintAccount accounts),
    (BondingCurveAccount accounts), (AssociatedBondingCurveAccount accounts),
    (EventAuthorityAccount accounts); try discriminate.
  intros H. injection H as <-. repeat split.
Qed.

Lemma fetchMintDetails_fresh (decodedTx : Transaction) (c : Coin) :
  fetchMintDetails decodedTx = MintOk c ->
  creatorPurchased c = true /\
  (exists maxSolCost, creatorPurchaseSol c = creatorPurchaseOf maxSolCost) /\
  creatorSold c = false /\ botPurchased c = false /\
  exitedBuyCoin c = false /\ exitedSellCoin c = false /\
  exitedCreatorListener c = false /\ isSellingCoin c = false /\
  tokensHeld c = None.
Proof.
  unfold fetchMintDetails.
  destruct (fetchNewCoin decodedTx) as [newCoin|] eqn:Hnew; [|discriminate].
  intros H.
  apply fetchCreatorBuy_ok_inv in H
    as (_ & _ & _ & _ & ata & m & _ & _ & _ & _ & _ & ->).
  apply fetchNewCoin_fresh in Hnew.
  split; [reflexivity|]. split; [exists m; reflexivity|]. exact Hnew.
Qed.

(** X18.  A coin reaches the buy queue only fresh and vetted: its
    creation transaction was decoded with a creator purchase, the
    vetting returned true, no more than two seconds had passed when
    this was checked, and none of its lifecycle flags is set; once
    [addNewPendingCoin] has registered it, a scan neither removes nor
    selects it, and the creator listener does not give up on it. *)
Theorem checkAndSignalBuyCoin_forwards_fresh (b : Bot)
    (mintTx : option Transaction) (elapsed : Z) (coin : Coin)
    (pendingCoins : gmap string (option Coin)) :
  checkAndSignalBuyCoin b mintTx elapsed = SendToBuy coin ->
  (exists decodedTx,
     mintTx = Some decodedTx /\ fetchMintDetails decodedTx = MintOk coin) /\
  shouldBuyCoin b coin = Returns true /\
  elapsed <= 2000000000 /\
  creatorPurchased coin = true /\
  botPurchased coin = false /\ tokensHeld coin = None /\
  listenerGivesUp coin = false /\
  snd (fetchCoinsToSell (addNewPendingCoin pendingCoins coin)) !! mintAddr coin
  = Some (Some coin) /\
  ~ coin ∈ fst (fetchCoinsToSell (addNewPendingCoin pendingCoins coin)).
Proof.
  unfold checkAndSignalBuyCoin.
  destruct mintTx as [decodedTx|]; [|discriminate].
  destruct (fetchMintDetails decodedTx) as [newCoin|] eqn:Hmint; [|discriminate].
  destruct (shouldBuyCoin b newCoin) as [[|]| |] eqn:Hvet; try discriminate.
  destruct (Z.ltb_spec (2 * 1000000000) elapsed) as [|Hfresh]; [discriminate|].
  intros H. injection H as <-.
  apply fetchMintDetails_fresh in Hmint
    as Hflags; destruct Hflags as (Hp & _ & Hsold & Hbought & Hexit & Hsell & Hlis & Hselling & Hheld).
  assert (Hnot : botHoldsTokens newCoin = false)
    by (apply botHoldsTokens_nil; assumption).
  split; [exists decodedTx; auto|]. split; [assumption|].
  split; [lia|]. split; [assumption|]. split; [assumption|].
  split; [assumption|]. split.
  { unfold listenerGivesUp. rewrite Hexit, Hbought. reflexivity. }
  split.
  - rewrite fetchCoinsToSell_registry. unfold addNewPendingCoin.
    rewrite lookup_insert_eq. unfold deletedByScan.
    rewrite Hexit, Hsell. reflexivity.
  - intros Hin. apply fetchCoinsToSell_selection in Hin as (_ & _ & Hh & _).
    congruence.
Qed.

Lemma checkAndSignalBuyCoin_forwards_fresh_witness :
  exists coin,
    checkAndSignalBuyCoin
      (botWithFunder "AC5RDfQFmDS1deWZos921JfqscXdByf8BKHs5ACWjtW2")
      (Some [createInstruction;
             buyInstruction 35000000000000 1000000000 "CreatorTokenAccount"])
      1500000000 = SendToBuy coin /\
    shouldBuyCoin (botWithFunder "AC5RDfQFmDS1deWZos921JfqscXdByf8BKHs5ACWjtW2")
                  coin = Returns true /\
    listenerGivesUp coin = false.
Proof.
  destruct (checkAndSignalBuyCoin
              (botWithFunder "AC5RDfQFmDS1deWZos921JfqscXdByf8BKHs5ACWjtW2")
              (Some [createInstruction;
                     buyInstruction 35000000000000 1000000000
                       "CreatorTokenAccount"])
              1500000000) as [coin| | |] eqn:H;
    [|vm_compute in H; discriminate..].
  exists coin.
  pose proof (checkAndSignalBuyCoin_forwards_fresh _ _ _ _ ∅ H)
    as (_ & Hvet & _ & _ & _ & _ & Hlisten & _).
  split; [reflexivity|]. split; assumption.
Defined.

(** ** The creator's exit *)








(** ** The handoff after the purchase *)

Lemma BuyCoin_returned_cases (b : Bot) (env : BuyEnv) (coin c' : Coin)
    (err : option buyError) (signed : option (list TxInstruction * bool)) :
  BuyCoin b env coin = BuyReturned err c' signed ->
  (err <> None /\
   (c' = setExitedBuyCoinTrue coin
    \/ c' = setExitedBuyCoinTrue (setBuyPrice coin (buyAmountLamport b)))) \/
  (err = None /\
   exists bcd q,
     fetchBondingCurve (curveAccount env) = CurveOk bcd /\
     calculateBuyQuote (buyAmountLamport b) bcd (Float64.lit 98 100) = Some q /\
     c' = setExitedBuyCoinTrue
            (setPurchased (setBuyPrice coin (buyAmountLamport b)) q)).
Proof.
  unfold BuyCoin.
  destruct (ataAddress env);
    [|intros H; inversion H; left; split; [discriminate | left; reflexivity]].
  destruct (fetchBondingCurve (curveAccount env)) as [bcd|];
    [|intros H; inversion H; left; split; [discriminate | left; reflexivity]].
  destruct (lateToBuy coin bcd);
    [intros H; inversion H; left; split; [discriminate | left; reflexivity]|].
  destruct (calculateBuyQuote _ bcd _) as [q|] eqn:Hq; [|discriminate].
  destruct (skipATALookup env), (ataExists env),
    (createATAInstruction env) as [createAta|],
    (isJitoLeader (jitoManager env)), (tipInstruction env) as [tipInst|],
    (transactionCreated env), (sendResult env);
    simpl; intros H; inversion H; subst; clear H;
    first
      [ left; split; [discriminate | right; reflexivity]
      | right; split; [reflexivity|]; exists bcd, q; auto ].
Qed.

(** X20.  The handoff after [BuyCoin] on a coin that was not bought
    before.  After any error the coin counts as not bought: the creator
    listener gives up at its next notification, the next scan removes
    the coin from the registry and never selects it for sale.  After a
    purchase of more than 100 and fewer than 2^63 units the listener
    keeps watching, the scan keeps the coin as long as the sale or the
    listener is still running, and selects it exactly when the creator
    has sold and no sale is running.  A purchase of 100 units or fewer
    is handed on like a failed one. *)
Theorem BuyCoin_handoff (b : Bot) (env : BuyEnv) (coin c' : Coin)
    (err : option buyError) (signed : option (list TxInstruction * bool)) :
  BuyCoin b env coin = BuyReturned err c' signed ->
  botPurchased coin = false -> tokensHeld coin = None ->
  (err <> None ->
   listenerGivesUp c' = true /\ deletedByScan c' = true /\
   selectedForSale c' = false) /\
  (err = None ->
   exists q,
     tokensHeld c' = Some q /\
     (100 < q < 2 ^ 63 ->
      listenerGivesUp c' = false /\
      deletedByScan c' = exitedSellCoin coin && exitedCreatorListener coin /\
      selectedForSale c' = creatorSold coin && negb (isSellingCoin coin)) /\
     (0 <= q <= 100 ->
      listenerGivesUp c' = true /\ deletedByScan c' = true /\
      selectedForSale c' = false)).
Proof.
  intros Hrun Hnot Hnil.
  apply BuyCoin_returned_cases in Hrun
    as [(Herr & [->| ->])|(-> & bcd & q & _ & _ & ->)].
  - split; [|contradiction]. intros _.
    unfold listenerGivesUp, deletedByScan, selectedForSale, botHoldsTokens.
    simpl. rewrite Hnot, Hnil. simpl. repeat split.
  - split; [|contradiction]. intros _.
    unfold listenerGivesUp, deletedByScan, selectedForSale, botHoldsTokens.
    simpl. rewrite Hnot, Hnil. simpl. repeat split.
  - split; [intros H; contradiction|]. intros _.
    exists q. split; [reflexivity|].
    unfold listenerGivesUp, deletedByScan, selectedForSale, botHoldsTokens.
    simpl. split.
    + intros Hq. rewrite bigInt64_in_range by lia.
      destruct (Z.ltb_spec 100 q); [|lia]. simpl. repeat split.
    + intros Hq. rewrite bigInt64_in_range by lia.
      destruct (Z.ltb_spec 100 q); [lia|]. simpl. repeat split.
Qed.

Lemma BuyCoin_handoff_witness :
  listenerGivesUp (setExitedBuyCoinTrue (coinWithPurchase one64)) = true /\
  deletedByScan (setExitedBuyCoinTrue (coinWithPurchase one64)) = true /\
  selectedForSale (setExitedBuyCoinTrue (coinWithPurchase one64)) = false.
Proof.
  pose proof (BuyCoin_handoff botWithoutFunder
                {| feeMicroLamport := 200000; skipATALookup := true;
                   ataAddress := Some "BotTokenAccount"%string;
                   ataExists := false;
                   curveAccount := Some (curveAccountData (curveWithSol 31150000000));
                   createATAInstruction :=
                     Some (CreateAssociatedTokenAccount "MintAddress");
                   jitoManager := managerWithoutLeader;
                   tipInstruction := Some (JitoTip 2000000);
                   transactionCreated := true;
                   sendResult := SendConfirmed |}
                (coinWithPurchase one64)
                (setExitedBuyCoinTrue (coinWithPurchase one64))
                (Some errLateToCoin) None) as H.
  destruct H as (Hfail & _);
    [vm_compute; reflexivity | reflexivity | reflexivity |].
  apply Hfail. discriminate.
Defined.
